(** * Weather dashboard: a shallow embedding of [index.tsx]

    The dashboard is one TypeScript file: a handful of global variables
    ([favorites], [debounceTimer], [currentCity]), the page it draws into,
    the browser's [localStorage], and two asynchronous functions that ask a
    generative backend for JSON.  The embedding keeps that shape:

    - [JS] holds what the code takes from the language and its runtime:
      strings and their methods, numbers, JSON values with the coercions
      the untyped ([any]) parts of the code rely on, [JSON.parse] and
      [JSON.stringify];
    - [Page] is the part of the document the code reads and writes;
    - [App] is [index.tsx], function by function, written in a state and
      exception monad over the [world] (globals, page, storage, requests in
      flight, and which writes the storage takes).  An [async] function is
      cut at its [await]: the part that runs when it is called, and the
      part that runs when the backend answers;
    - [Loop] is the event loop: one step per event the browser can deliver;
    - [Schema] reads a parsed value as the report [weatherResponseSchema]
      describes, [View] says what the page shows of such a report, and
      [Sample] holds the pages, answers and runs the examples use.

    Conventions of the embedding.

    - A JavaScript string is a sequence of 16-bit code units.  The model
      covers the code units 0..255 (Latin-1), one [ascii] each; on these
      [length], [includes], [split], [trim] and [toLowerCase] are the
      methods of the language.  Text that denotes other code units is
      outside the model.
    - A number is the rational it denotes, or NaN, or an infinity.  The
      rounding of a decimal literal to binary64 is not modelled: a literal
      denotes its mathematical value.
    - All elements [index.tsx] looks up by id at its top are present in the
      page, so the [?.] accesses and the [if (!el) return] guards never
      skip.
    - The class [hidden] takes an element out of the page (the style sheet
      is not among the sources): what is hidden cannot be clicked.
    - [new Date()] is not modelled: the text of [#current-date] is left out
      of the page.
    - [localStorage.getItem] returns.  [localStorage.setItem] writes the
      item or throws: which texts the storage takes is part of the world
      ([storage_takes]), and no statement of the code changes it. *)

From Stdlib Require Import String Ascii List Bool Arith NArith ZArith QArith Qround Lia.
Import ListNotations.

Set Warnings "-register-all".

Local Open Scope string_scope.
Local Open Scope list_scope.

(* ===================================================================== *)
(** * The language and its runtime *)
(* ===================================================================== *)

Module JS.

(** ** Strings *)

(** [String.prototype.toLowerCase], one code unit: A-Z, and the Latin-1
    capitals U+00C0..U+00DE except the multiplication sign U+00D7. *)
Definition unit_toLowerCase (c : ascii) : ascii :=
  let n := N_of_ascii c in
  if ((65 <=? n) && (n <=? 90) || (192 <=? n) && (n <=? 222) && negb (n =? 215))%N
  then ascii_of_N (n + 32) else c.

Fixpoint toLowerCase (s : string) : string :=
  match s with
  | EmptyString => EmptyString
  | String c r => String (unit_toLowerCase c) (toLowerCase r)
  end.

(** [s.startsWith(pat)] *)
Fixpoint startsWith (s pat : string) {struct pat} : bool :=
  match pat, s with
  | EmptyString, _ => true
  | String p pat', String c s' => Ascii.eqb c p && startsWith s' pat'
  | String _ _, EmptyString => false
  end.

(** [s.includes(pat)] *)
Fixpoint includes (s pat : string) : bool :=
  startsWith s pat ||
  match s with
  | EmptyString => false
  | String _ s' => includes s' pat
  end.

(** White space and line terminators, as [trim] and the conversion of a
    string to a number see them (Latin-1 part): TAB, LF, VT, FF, CR, SP,
    NBSP. *)
Definition is_space (c : ascii) : bool :=
  let n := N_of_ascii c in
  ((9 <=? n) && (n <=? 13) || (n =? 32) || (n =? 160))%N.

Fixpoint trimStart (s : string) : string :=
  match s with
  | EmptyString => EmptyString
  | String c r => if is_space c then trimStart r else s
  end.

Fixpoint trimEnd (s : string) : string :=
  match s with
  | EmptyString => EmptyString
  | String c r =>
      match trimEnd r with
      | EmptyString => if is_space c then EmptyString else String c EmptyString
      | t => String c t
      end
  end.

(** [s.trim()] *)
Definition trim (s : string) : string := trimEnd (trimStart s).

(** [s.split(sep)] for a separator of one code unit; the result is never
    empty. *)
Fixpoint split (sep : ascii) (s : string) : list string :=
  match s with
  | EmptyString => [EmptyString]
  | String c r =>
      if Ascii.eqb c sep then EmptyString :: split sep r
      else match split sep r with
           | h :: t => String c h :: t
           | [] => [String c EmptyString]
           end
  end.

(** ** Numbers *)

Inductive number : Type :=
| NaN
| Infinity (negative : bool)
| Finite (q : Q).

(** [x < y] on numbers; anything compared with NaN is false. *)
Definition lt (x y : number) : bool :=
  match x, y with
  | NaN, _ | _, NaN => false
  | Infinity nx, Infinity ny => nx && negb ny
  | Infinity nx, Finite _ => nx
  | Finite _, Infinity ny => negb ny
  | Finite a, Finite b => negb (Qle_bool b a)
  end.

(** [x > y] *)
Definition gt (x y : number) : bool := lt y x.

(** [Math.round]: the nearest integer, halves towards +Infinity. *)
Definition Math_round (x : number) : number :=
  match x with
  | Finite q => Finite (inject_Z (Qfloor (q + (1 # 2))))
  | _ => x
  end.

Definition of_Z (z : Z) : number := Finite (inject_Z z).

(** ** Reading decimal numerals *)

Definition digit (c : ascii) : option Z :=
  let n := N_of_ascii c in
  if ((48 <=? n) && (n <=? 57))%N then Some (Z.of_N (n - 48)) else None.

(** The longest run of decimal digits at the head of [s]: the number read
    so far, how many digits were read, and what follows. *)
Fixpoint digits (acc : Z) (cnt : nat) (s : string) : Z * nat * string :=
  match s with
  | EmptyString => (acc, cnt, s)
  | String c r =>
      match digit c with
      | Some d => digits (10 * acc + d)%Z (S cnt) r
      | None => (acc, cnt, s)
      end
  end.

(** m * 10^e *)
Definition scale10 (m e : Z) : Q :=
  if (0 <=? e)%Z then inject_Z (m * 10 ^ e) else Qmake m (Z.to_pos (10 ^ (- e))).

(** An optional exponent part [eE][+-]?digits+ at the head of [s]; when the
    digits are missing nothing is consumed. *)
Definition exponent (s : string) : Z * string :=
  match s with
  | String c r =>
      if Ascii.eqb c "e" || Ascii.eqb c "E" then
        let '(neg, r1) :=
          match r with
          | String "-" r' => (true, r')
          | String "+" r' => (false, r')
          | _ => (false, r)
          end in
        let '(e, n, r2) := digits 0 0 r1 in
        match n with
        | O => (0%Z, s)
        | _ => ((if neg then - e else e)%Z, r2)
        end
      else (0%Z, s)
  | EmptyString => (0%Z, s)
  end.

Record numeral : Type := {
  num_int_digits : nat;        (* digits before the point *)
  num_leading_zero : bool;     (* more than one, the first a 0 *)
  num_point : bool;            (* a point is present *)
  num_frac_digits : nat;       (* digits after the point *)
  num_value : Q;
  num_rest : string
}.

(** digits* (. digits* )? exponent?  The two grammars that use it add their
    own conditions on the counts. *)
Definition numeral_of (s : string) : numeral :=
  let lead0 := match s with String "0" _ => true | _ => false end in
  let '(i, ni, r1) := digits 0 0 s in
  let '(point, (m, nf, r2)) :=
    match r1 with
    | String "." r => (true, digits i 0 r)
    | _ => (false, (i, O, r1))
    end in
  let '(e, r3) :=
    match ni, nf with
    | O, O => (0%Z, r2)
    | _, _ => exponent r2
    end in
  {| num_int_digits := ni;
     num_leading_zero := lead0 && Nat.ltb 1 ni;
     num_point := point;
     num_frac_digits := nf;
     num_value := scale10 m (e - Z.of_nat nf);
     num_rest := r3 |}.

(** Digits in a radix up to 16, for [0x], [0o] and [0b] strings. *)
Definition digit_in (radix : N) (c : ascii) : option Z :=
  let n := N_of_ascii c in
  let v := (if (48 <=? n) && (n <=? 57) then Some (n - 48)
            else if (97 <=? n) && (n <=? 102) then Some (n - 87)
            else if (65 <=? n) && (n <=? 70) then Some (n - 55)
            else None)%N in
  match v with
  | Some d => if (d <? radix)%N then Some (Z.of_N d) else None
  | None => None
  end.

Fixpoint radix_digits (radix : N) (acc : option Z) (s : string) : option Z :=
  match s with
  | EmptyString => acc
  | String c r =>
      match digit_in radix c with
      | Some d =>
          radix_digits radix
            (Some (Z.of_N radix * match acc with Some a => a | None => 0 end + d)%Z) r
      | None => None
      end
  end.

(** [Number(s)] for a string: the value of the string as a numeric literal,
    NaN when it is not one. *)
Definition StringToNumber (s : string) : number :=
  let t := trim s in
  let unsigned (u : string) : number :=
    if String.eqb u "Infinity" then Infinity false
    else
      let n := numeral_of u in
      match num_rest n, (num_int_digits n + num_frac_digits n)%nat with
      | EmptyString, S _ => Finite (num_value n)
      | _, _ => NaN
      end in
  let negate (x : number) : number :=
    match x with
    | NaN => NaN
    | Infinity b => Infinity (negb b)
    | Finite q => Finite (- q)
    end in
  match t with
  | EmptyString => of_Z 0
  | String "+" u => unsigned u
  | String "-" u => negate (unsigned u)
  | String "0" (String x u) =>
      let radix :=
        if Ascii.eqb x "x" || Ascii.eqb x "X" then Some 16%N
        else if Ascii.eqb x "o" || Ascii.eqb x "O" then Some 8%N
        else if Ascii.eqb x "b" || Ascii.eqb x "B" then Some 2%N
        else None in
      match radix with
      | Some b => match radix_digits b None u with
                  | Some z => of_Z z
                  | None => NaN
                  end
      | None => unsigned t
      end
  | _ => unsigned t
  end.

(** ** Values

    What [JSON.parse] can return, and [undefined], which reading an absent
    property gives. *)

Inductive value : Type :=
| Undefined
| Null
| Bool (b : bool)
| Num (x : number)
| Str (s : string)
| Arr (l : list value)
| Obj (l : list (string * value)).

(** An own property of an object; keys are unique in an object built by
    [JSON.parse]. *)
Fixpoint own (k : string) (l : list (string * value)) : option value :=
  match l with
  | [] => None
  | (k', v) :: r => if String.eqb k' k then Some v else own k r
  end.

(** Writing an own property: the value is replaced where the key is, or
    the pair is added at the end. *)
Fixpoint define (k : string) (v : value) (l : list (string * value)) : list (string * value) :=
  match l with
  | [] => [(k, v)]
  | (k', v') :: r => if String.eqb k' k then (k', v) :: r else (k', v') :: define k v r
  end.

Inductive exn : Type :=
| TypeError
| SyntaxError
| NetworkError
| QuotaExceededError.   (* what [localStorage.setItem] throws *)

(** [v.k], for the property names [index.tsx] reads ([current], [forecast],
    [temp], [humidity], [wind_speed], [description], [day], [temp_high],
    [temp_low]): none of them is inherited from a prototype, so the
    property is [undefined] unless [v] is an object that owns it.  Reading
    a property of [undefined] or [null] throws. *)
Definition get (v : value) (k : string) : option value :=
  match v with
  | Undefined | Null => None
  | Obj l => Some (match own k l with Some x => x | None => Undefined end)
  | _ => Some Undefined
  end.

(** Conversion to a string throws on an object that owns a [toString]
    property (a parsed value is never callable, and the inherited
    [valueOf] returns the object), and on an array that holds one; [join]
    skips [null] and [undefined]. *)
Fixpoint stringifiable (v : value) : bool :=
  match v with
  | Obj l => match own "toString" l with Some _ => false | None => true end
  | Arr l => forallb stringifiable l
  | _ => true
  end.

(** [Number(v)]; [None] when the conversion throws a TypeError.  An array
    converts through its [join]: the empty array is the empty string, one
    element is that element's string, more give a string with a comma. *)
Fixpoint ToNumber (v : value) : option number :=
  match v with
  | Undefined => Some NaN
  | Null => Some (of_Z 0)
  | Bool b => Some (of_Z (if b then 1 else 0))
  | Num x => Some x
  | Str s => Some (StringToNumber s)
  | Obj _ => if stringifiable v then Some NaN else None
  | Arr [] => Some (of_Z 0)
  | Arr [x] =>
      match x with
      | Undefined => Some (of_Z 0)
      | Bool _ => Some NaN
      | _ => ToNumber x
      end
  | Arr (_ :: _ :: _) => if stringifiable v then Some NaN else None
  end.

(** ** JSON.parse

    A scanner that reads the text one code unit at a time, and a pushdown
    recogniser over its tokens (ECMA-404).  Both are structural, so parsing
    is total: [None] is the SyntaxError of [JSON.parse]. *)

Definition dquote : ascii := ascii_of_N 34.
Definition backslash : ascii := ascii_of_N 92.

Inductive token : Type :=
| TLBrace | TRBrace | TLBrack | TRBrack | TColon | TComma
| TString (s : string)
| TNumber (q : Q)
| TTrue | TFalse | TNull.

Inductive scanning : Type :=
| Between
| InString (acc : list ascii)
| InEscape (acc : list ascii)
| InUnicode (acc : list ascii) (seen : nat) (code : N)
| InWord (acc : list ascii)
| InNumber (acc : list ascii).

Definition text_of (acc : list ascii) : string := string_of_list_ascii (rev acc).

Definition between (c : ascii) (out : list token) : option (scanning * list token) :=
  let n := N_of_ascii c in
  if ((n =? 32) || (n =? 9) || (n =? 10) || (n =? 13))%N then Some (Between, out)
  else if Ascii.eqb c "{" then Some (Between, TLBrace :: out)
  else if Ascii.eqb c "}" then Some (Between, TRBrace :: out)
  else if Ascii.eqb c "[" then Some (Between, TLBrack :: out)
  else if Ascii.eqb c "]" then Some (Between, TRBrack :: out)
  else if Ascii.eqb c ":" then Some (Between, TColon :: out)
  else if Ascii.eqb c "," then Some (Between, TComma :: out)
  else if Ascii.eqb c dquote then Some (InString [], out)
  else if ((97 <=? n) && (n <=? 122))%N then Some (InWord [c], out)
  else if Ascii.eqb c "-" || ((48 <=? n) && (n <=? 57))%N then Some (InNumber [c], out)
  else None.

Definition word (acc : list ascii) : option token :=
  let w := text_of acc in
  if String.eqb w "true" then Some TTrue
  else if String.eqb w "false" then Some TFalse
  else if String.eqb w "null" then Some TNull
  else None.

(** -? (0 | [1-9] digits) (. digits+)? exponent? *)
Definition json_number (acc : list ascii) : option token :=
  let w := text_of acc in
  let '(neg, u) := match w with String "-" r => (true, r) | _ => (false, w) end in
  let n := numeral_of u in
  match num_rest n with
  | EmptyString =>
      if Nat.ltb 0 (num_int_digits n) && negb (num_leading_zero n)
         && (negb (num_point n) || Nat.ltb 0 (num_frac_digits n))
      then Some (TNumber (if neg then - num_value n else num_value n)%Q)
      else None
  | _ => None
  end.

Definition scan_unit (st : scanning) (out : list token) (c : ascii)
  : option (scanning * list token) :=
  let n := N_of_ascii c in
  match st with
  | Between => between c out
  | InString acc =>
      if Ascii.eqb c dquote then Some (Between, TString (text_of acc) :: out)
      else if Ascii.eqb c backslash then Some (InEscape acc, out)
      else if (n <? 32)%N then None
      else Some (InString (c :: acc), out)
  | InEscape acc =>
      if Ascii.eqb c dquote || Ascii.eqb c backslash || Ascii.eqb c "/"
      then Some (InString (c :: acc), out)
      else if Ascii.eqb c "b" then Some (InString (ascii_of_N 8 :: acc), out)
      else if Ascii.eqb c "f" then Some (InString (ascii_of_N 12 :: acc), out)
      else if Ascii.eqb c "n" then Some (InString (ascii_of_N 10 :: acc), out)
      else if Ascii.eqb c "r" then Some (InString (ascii_of_N 13 :: acc), out)
      else if Ascii.eqb c "t" then Some (InString (ascii_of_N 9 :: acc), out)
      else if Ascii.eqb c "u" then Some (InUnicode acc 0 0, out)
      else None
  | InUnicode acc seen code =>
      match digit_in 16 c with
      | Some d =>
          let code' := (16 * code + Z.to_N d)%N in
          match seen with
          | 3%nat => if (code' <? 256)%N then Some (InString (ascii_of_N code' :: acc), out)
                     else None
          | _ => Some (InUnicode acc (S seen) code', out)
          end
      | None => None
      end
  | InWord acc =>
      if ((97 <=? n) && (n <=? 122))%N then Some (InWord (c :: acc), out)
      else match word acc with
           | Some t => between c (t :: out)
           | None => None
           end
  | InNumber acc =>
      if ((48 <=? n) && (n <=? 57))%N || Ascii.eqb c "." || Ascii.eqb c "e"
         || Ascii.eqb c "E" || Ascii.eqb c "+" || Ascii.eqb c "-"
      then Some (InNumber (c :: acc), out)
      else match json_number acc with
           | Some t => between c (t :: out)
           | None => None
           end
  end.

Fixpoint scan (st : scanning) (out : list token) (s : string) : option (list token) :=
  match s with
  | EmptyString =>
      match st with
      | Between => Some (rev out)
      | InWord acc => option_map (fun t => rev (t :: out)) (word acc)
      | InNumber acc => option_map (fun t => rev (t :: out)) (json_number acc)
      | _ => None
      end
  | String c r =>
      match scan_unit st out c with
      | Some (st', out') => scan st' out' r
      | None => None
      end
  end.

Inductive frame : Type :=
| FArr (acc : list value)                       (* elements so far, last first *)
| FObj (acc : list (string * value)) (key : string).

Inductive expecting : Type :=
| AValue (closable : bool)      (* a value; or the bracket closing an empty array *)
| AKey (closable : bool)        (* a key; or the brace closing an empty object *)
| AColon
| ASeparator                    (* a comma, or what closes the container on top *)
| Finished (v : value).

(** A value is complete: it is the result, or it goes into the container on
    top of the stack. *)
Definition complete (v : value) (st : list frame) : expecting * list frame :=
  match st with
  | [] => (Finished v, [])
  | FArr acc :: r => (ASeparator, FArr (v :: acc) :: r)
  | FObj acc k :: r => (ASeparator, FObj (define k v acc) k :: r)
  end.

Definition shift (p : expecting * list frame) (t : token) : option (expecting * list frame) :=
  let '(e, st) := p in
  match e, t, st with
  | AValue _, TLBrack, _ => Some (AValue true, FArr [] :: st)
  | AValue _, TLBrace, _ => Some (AKey true, FObj [] EmptyString :: st)
  | AValue _, TString s, _ => Some (complete (Str s) st)
  | AValue _, TNumber q, _ => Some (complete (Num (Finite q)) st)
  | AValue _, TTrue, _ => Some (complete (Bool true) st)
  | AValue _, TFalse, _ => Some (complete (Bool false) st)
  | AValue _, TNull, _ => Some (complete Null st)
  | AValue true, TRBrack, FArr _ :: r => Some (complete (Arr []) r)
  | AKey _, TString k, FObj acc _ :: r => Some (AColon, FObj acc k :: r)
  | AKey true, TRBrace, FObj _ _ :: r => Some (complete (Obj []) r)
  | AColon, TColon, _ => Some (AValue false, st)
  | ASeparator, TComma, FArr _ :: _ => Some (AValue false, st)
  | ASeparator, TRBrack, FArr acc :: r => Some (complete (Arr (rev acc)) r)
  | ASeparator, TComma, FObj _ _ :: _ => Some (AKey false, st)
  | ASeparator, TRBrace, FObj acc _ :: r => Some (complete (Obj acc) r)
  | _, _, _ => None
  end.

Fixpoint shift_all (p : expecting * list frame) (ts : list token) : option value :=
  match ts with
  | [] => match p with (Finished v, []) => Some v | _ => None end
  | t :: r => match shift p t with Some p' => shift_all p' r | None => None end
  end.

(** [JSON.parse(text)]; [None] is a SyntaxError. *)
Definition JSON_parse (text : string) : option value :=
  match scan Between [] text with
  | Some ts => shift_all (AValue false, []) ts
  | None => None
  end.

(** ** JSON.stringify, for an array of strings *)

Definition hex_digit (n : N) : ascii :=
  ascii_of_N (if (n <? 10)%N then 48 + n else 87 + n).

Definition quote_unit (c : ascii) : string :=
  let n := N_of_ascii c in
  let esc (x : ascii) := String backslash (String x EmptyString) in
  if Ascii.eqb c dquote then esc dquote
  else if Ascii.eqb c backslash then esc backslash
  else if (n =? 8)%N then esc "b"%char
  else if (n =? 12)%N then esc "f"%char
  else if (n =? 10)%N then esc "n"%char
  else if (n =? 13)%N then esc "r"%char
  else if (n =? 9)%N then esc "t"%char
  else if (n <? 32)%N
  then String backslash
         (String "u" (String "0" (String "0"
           (String (hex_digit (n / 16)) (String (hex_digit (n mod 16)) EmptyString)))))
  else String c EmptyString.

Fixpoint quote_units (s : string) : string :=
  match s with
  | EmptyString => EmptyString
  | String c r => quote_unit c ++ quote_units r
  end.

Definition quote (s : string) : string :=
  String dquote (quote_units s ++ String dquote EmptyString).

(** [JSON.stringify(l)] for [l : string[]] *)
Definition JSON_stringify (l : list string) : string :=
  "[" ++ String.concat "," (map quote l) ++ "]".

(** A string literal with every apostrophe standing for the quotation mark,
    to write JSON texts down. *)
Fixpoint json (s : string) : string :=
  match s with
  | EmptyString => EmptyString
  | String c r => String (if Ascii.eqb c "'" then dquote else c) (json r)
  end.

End JS.

(* ===================================================================== *)
(** * The page *)
(* ===================================================================== *)

Module Page.
Import JS.

(** The pictures [getWeatherIcon] chooses from (emoji in the source). *)
Inductive emoji : Type :=
| Sun | Cloud | RainCloud | ThunderCloud | Snowflake | Fog | Globe.

Record look : Type := {
  icon : emoji;
  animationClass : string;
  backgroundClass : string
}.

(** An alert pill: [className] is [`alert-pill ${className}`], and the text
    follows the icon in [innerHTML]. *)
Record pill : Type := {
  pill_class : string;
  pill_text : string
}.

(** [#search-btn]: the classes [searching] and [loading], and [disabled]. *)
Record button : Type := {
  searching : bool;
  loading : bool;
  disabled : bool
}.

(** Which of the five blocks carry the class [hidden]. *)
Record visibility : Type := {
  loader_hidden : bool;
  error_hidden : bool;
  favorites_hidden : bool;
  current_hidden : bool;
  forecast_hidden : bool
}.

(** The current-weather card.  Where the source interpolates a value into a
    template, the field holds the value: [current_temp] for
    [`${Math.round(current.temp)}°C`], [humidity] for
    [`${current.humidity}%`], [wind_speed] for [`${current.wind_speed} km/h`]. *)
Record current_card : Type := {
  city_name : string;
  weather_icon : emoji;
  icon_animation : string;
  card_background : string;
  current_temp : number;
  weather_description : string;
  humidity : value;
  wind_speed : value;
  weather_alerts : list pill
}.

(** One card of the forecast: the day, the icon with its animation class,
    and the two rounded temperatures of [`${hi}° / ${lo}°`]. *)
Record forecast_card : Type := {
  card_day : value;
  card_icon : emoji;
  card_animation : string;
  card_high : number;
  card_low : number
}.

Record page : Type := {
  city_input : string;                (* cityInput.value *)
  search_btn : button;
  shown : visibility;
  error_message : string;
  suggestions_hidden : bool;
  suggestions : list value;           (* the text of each .suggestion-item *)
  favorites_list : list string;       (* one .favorite-city-btn per city *)
  star : bool;                        (* #add-favorite-btn is filled *)
  current : current_card;
  forecast_cards : list forecast_card
}.

Definition set_city_name (x : string) (c : current_card) : current_card :=
  {| city_name := x; weather_icon := weather_icon c; icon_animation := icon_animation c;
     card_background := card_background c; current_temp := current_temp c;
     weather_description := weather_description c; humidity := humidity c;
     wind_speed := wind_speed c; weather_alerts := weather_alerts c |}.

Definition set_weather_icon (x : emoji) (a : string) (c : current_card) : current_card :=
  {| city_name := city_name c; weather_icon := x; icon_animation := a;
     card_background := card_background c; current_temp := current_temp c;
     weather_description := weather_description c; humidity := humidity c;
     wind_speed := wind_speed c; weather_alerts := weather_alerts c |}.

Definition set_card_background (x : string) (c : current_card) : current_card :=
  {| city_name := city_name c; weather_icon := weather_icon c; icon_animation := icon_animation c;
     card_background := x; current_temp := current_temp c;
     weather_description := weather_description c; humidity := humidity c;
     wind_speed := wind_speed c; weather_alerts := weather_alerts c |}.

Definition set_current_temp (x : number) (c : current_card) : current_card :=
  {| city_name := city_name c; weather_icon := weather_icon c; icon_animation := icon_animation c;
     card_background := card_background c; current_temp := x;
     weather_description := weather_description c; humidity := humidity c;
     wind_speed := wind_speed c; weather_alerts := weather_alerts c |}.

Definition set_weather_description (x : string) (c : current_card) : current_card :=
  {| city_name := city_name c; weather_icon := weather_icon c; icon_animation := icon_animation c;
     card_background := card_background c; current_temp := current_temp c;
     weather_description := x; humidity := humidity c;
     wind_speed := wind_speed c; weather_alerts := weather_alerts c |}.

Definition set_humidity (x : value) (c : current_card) : current_card :=
  {| city_name := city_name c; weather_icon := weather_icon c; icon_animation := icon_animation c;
     card_background := card_background c; current_temp := current_temp c;
     weather_description := weather_description c; humidity := x;
     wind_speed := wind_speed c; weather_alerts := weather_alerts c |}.

Definition set_wind_speed (x : value) (c : current_card) : current_card :=
  {| city_name := city_name c; weather_icon := weather_icon c; icon_animation := icon_animation c;
     card_background := card_background c; current_temp := current_temp c;
     weather_description := weather_description c; humidity := humidity c;
     wind_speed := x; weather_alerts := weather_alerts c |}.

Definition set_weather_alerts (x : list pill) (c : current_card) : current_card :=
  {| city_name := city_name c; weather_icon := weather_icon c; icon_animation := icon_animation c;
     card_background := card_background c; current_temp := current_temp c;
     weather_description := weather_description c; humidity := humidity c;
     wind_speed := wind_speed c; weather_alerts := x |}.

Definition set_city_input (x : string) (p : page) : page :=
  {| city_input := x; search_btn := search_btn p; shown := shown p;
     error_message := error_message p; suggestions_hidden := suggestions_hidden p;
     suggestions := suggestions p; favorites_list := favorites_list p; star := star p;
     current := current p; forecast_cards := forecast_cards p |}.

Definition set_search_btn (x : button) (p : page) : page :=
  {| city_input := city_input p; search_btn := x; shown := shown p;
     error_message := error_message p; suggestions_hidden := suggestions_hidden p;
     suggestions := suggestions p; favorites_list := favorites_list p; star := star p;
     current := current p; forecast_cards := forecast_cards p |}.

Definition set_shown (x : visibility) (p : page) : page :=
  {| city_input := city_input p; search_btn := search_btn p; shown := x;
     error_message := error_message p; suggestions_hidden := suggestions_hidden p;
     suggestions := suggestions p; favorites_list := favorites_list p; star := star p;
     current := current p; forecast_cards := forecast_cards p |}.

Definition set_error_message (x : string) (p : page) : page :=
  {| city_input := city_input p; search_btn := search_btn p; shown := shown p;
     error_message := x; suggestions_hidden := suggestions_hidden p;
     suggestions := suggestions p; favorites_list := favorites_list p; star := star p;
     current := current p; forecast_cards := forecast_cards p |}.

Definition set_suggestions_hidden (x : bool) (p : page) : page :=
  {| city_input := city_input p; search_btn := search_btn p; shown := shown p;
     error_message := error_message p; suggestions_hidden := x;
     suggestions := suggestions p; favorites_list := favorites_list p; star := star p;
     current := current p; forecast_cards := forecast_cards p |}.

Definition set_suggestions (x : list value) (p : page) : page :=
  {| city_input := city_input p; search_btn := search_btn p; shown := shown p;
     error_message := error_message p; suggestions_hidden := suggestions_hidden p;
     suggestions := x; favorites_list := favorites_list p; star := star p;
     current := current p; forecast_cards := forecast_cards p |}.

Definition set_favorites_list (x : list string) (p : page) : page :=
  {| city_input := city_input p; search_btn := search_btn p; shown := shown p;
     error_message := error_message p; suggestions_hidden := suggestions_hidden p;
     suggestions := suggestions p; favorites_list := x; star := star p;
     current := current p; forecast_cards := forecast_cards p |}.

Definition set_star (x : bool) (p : page) : page :=
  {| city_input := city_input p; search_btn := search_btn p; shown := shown p;
     error_message := error_message p; suggestions_hidden := suggestions_hidden p;
     suggestions := suggestions p; favorites_list := favorites_list p; star := x;
     current := current p; forecast_cards := forecast_cards p |}.

Definition set_current (x : current_card) (p : page) : page :=
  {| city_input := city_input p; search_btn := search_btn p; shown := shown p;
     error_message := error_message p; suggestions_hidden := suggestions_hidden p;
     suggestions := suggestions p; favorites_list := favorites_list p; star := star p;
     current := x; forecast_cards := forecast_cards p |}.

Definition set_forecast_cards (x : list forecast_card) (p : page) : page :=
  {| city_input := city_input p; search_btn := search_btn p; shown := shown p;
     error_message := error_message p; suggestions_hidden := suggestions_hidden p;
     suggestions := suggestions p; favorites_list := favorites_list p; star := star p;
     current := current p; forecast_cards := x |}.

(** The phase the five classes spell (section 4.3 of the specification):
    [showLoading], [showContent] and [showError] are its three writers. *)
Inductive phase : Type := Loading | Content | Error.

Definition phase_of (v : visibility) : option phase :=
  match loader_hidden v, error_hidden v, current_hidden v, forecast_hidden v with
  | false, true, true, true => Some Loading
  | true, true, false, false => Some Content
  | true, false, true, true => Some Error
  | _, _, _, _ => None
  end.

End Page.

(* ===================================================================== *)
(** * index.tsx *)
(* ===================================================================== *)

Module App.
Import JS Page.

(** What the code after an [await] still holds of its call. *)
Inductive awaiting : Type :=
| WeatherFor (city : string) (isAutoRefresh : bool)
| Suggestions.

(** A call of [ai.models.generateContent] that has not settled. *)
Record request : Type := {
  req_id : nat;
  req_prompt : string;
  req_then : awaiting
}.

(** How the backend settles a request: the promise rejects, or it resolves
    and [response.text] is the given text. *)
Inductive response : Type :=
| Rejected
| Resolved (text : string).

Record world : Type := {
  favorites : list string;
  debounceTimer : option string;  (* the pending timeout and the query its callback holds *)
  currentCity : string;
  document : page;
  localStorage : option string;   (* the item stored under FAVORITES_KEY *)
  in_flight : list request;
  calls : nat;                    (* how many requests were made so far *)
  storage_takes : string -> bool  (* whether [setItem] takes the text; it throws otherwise *)
}.

Definition set_favorites (x : list string) (w : world) : world :=
  {| favorites := x; debounceTimer := debounceTimer w; currentCity := currentCity w;
     document := document w; localStorage := localStorage w;
     in_flight := in_flight w; calls := calls w;
     storage_takes := storage_takes w |}.

Definition set_debounceTimer (x : option string) (w : world) : world :=
  {| favorites := favorites w; debounceTimer := x; currentCity := currentCity w;
     document := document w; localStorage := localStorage w;
     in_flight := in_flight w; calls := calls w;
     storage_takes := storage_takes w |}.

Definition set_currentCity (x : string) (w : world) : world :=
  {| favorites := favorites w; debounceTimer := debounceTimer w; currentCity := x;
     document := document w; localStorage := localStorage w;
     in_flight := in_flight w; calls := calls w;
     storage_takes := storage_takes w |}.

Definition set_document (x : page) (w : world) : world :=
  {| favorites := favorites w; debounceTimer := debounceTimer w; currentCity := currentCity w;
     document := x; localStorage := localStorage w;
     in_flight := in_flight w; calls := calls w;
     storage_takes := storage_takes w |}.

Definition set_localStorage (x : option string) (w : world) : world :=
  {| favorites := favorites w; debounceTimer := debounceTimer w; currentCity := currentCity w;
     document := document w; localStorage := x;
     in_flight := in_flight w; calls := calls w;
     storage_takes := storage_takes w |}.

Definition set_in_flight (x : list request) (n : nat) (w : world) : world :=
  {| favorites := favorites w; debounceTimer := debounceTimer w; currentCity := currentCity w;
     document := document w; localStorage := localStorage w;
     in_flight := x; calls := n; storage_takes := storage_takes w |}.

(** The storage is the browser's: no statement of [index.tsx] changes what
    it takes. *)
Definition set_storage_takes (x : string -> bool) (w : world) : world :=
  {| favorites := favorites w; debounceTimer := debounceTimer w; currentCity := currentCity w;
     document := document w; localStorage := localStorage w;
     in_flight := in_flight w; calls := calls w; storage_takes := x |}.

(** ** Statements: state and exceptions

    A statement runs in a world and returns, or throws leaving the world as
    it was at the throw.  [Untyped] is the third way out: a variable
    declared [string[]] received a value that is not one; what the program
    does from there is not followed. *)

Inductive outcome (A : Type) : Type :=
| Returns (a : A) (w : world)
| Throws (e : exn) (w : world)
| Untyped.

Arguments Returns {A} a w.
Arguments Throws {A} e w.
Arguments Untyped {A}.

Definition M (A : Type) : Type := world -> outcome A.

Definition ret {A : Type} (a : A) : M A := fun w => Returns a w.

Definition bind {A B : Type} (m : M A) (k : A -> M B) : M B :=
  fun w =>
    match m w with
    | Returns a w' => k a w'
    | Throws e w' => Throws e w'
    | Untyped => Untyped
    end.

Definition throw {A : Type} (e : exn) : M A := fun w => Throws e w.

Definition read {A : Type} (f : world -> A) : M A := fun w => Returns (f w) w.

Definition write (f : world -> world) : M unit := fun w => Returns tt (f w).

(** try { body } catch (error) { handler } *)
Definition try_catch {A : Type} (body : M A) (handler : exn -> M A) : M A :=
  fun w =>
    match body w with
    | Throws e w' => handler e w'
    | r => r
    end.

(** try { body } finally { last } *)
Definition try_finally {A : Type} (body : M A) (last : M unit) : M A :=
  fun w =>
    match body w with
    | Returns a w' => bind last (fun _ => ret a) w'
    | Throws e w' => bind last (fun _ => throw e) w'
    | Untyped => Untyped
    end.

Declare Scope stmt_scope.
Delimit Scope stmt_scope with stmt.
Notation "x <- m ;; k" := (bind m (fun x => k))
  (at level 61, m at next level, right associativity) : stmt_scope.
Notation "m ;; k" := (bind m (fun _ => k))
  (at level 61, right associativity) : stmt_scope.
Local Open Scope stmt_scope.

Definition when (b : bool) (m : M unit) : M unit := if b then m else ret tt.

Fixpoint forEach {A : Type} (l : list A) (f : A -> M unit) : M unit :=
  match l with
  | [] => ret tt
  | x :: r => f x ;; forEach r f
  end.

(** Writes to the page and to the card of the current weather. *)
Definition draw (f : page -> page) : M unit :=
  write (fun w => set_document (f (document w)) w).

Definition draw_current (f : current_card -> current_card) : M unit :=
  draw (fun p => set_current (f (current p)) p).

(** [v.k] *)
Definition prop (v : value) (k : string) : M value :=
  match get v k with
  | Some x => ret x
  | None => throw TypeError
  end.

(** The conversion to a number that [Math.round] and [>] apply. *)
Definition number_of (v : value) : M number :=
  match ToNumber v with
  | Some x => ret x
  | None => throw TypeError
  end.

(** The conversion to a string that a template and [textContent] apply;
    the value stands for its text. *)
Definition text_of_value (v : value) : M value :=
  if stringifiable v then ret v else throw TypeError.

(** [v.toLowerCase()]: a method of strings only. *)
Definition lower_of (v : value) : M string :=
  match v with
  | Str s => ret (toLowerCase s)
  | _ => throw TypeError
  end.

(** ** Weather functions *)

Definition getWeatherIcon (description : string) : look :=
  let desc := toLowerCase description in
  if includes desc "clear"
  then {| icon := Sun; animationClass := "animate-sun"; backgroundClass := "bg-sunny" |}
  else if includes desc "cloud"
  then {| icon := Cloud; animationClass := "animate-cloud"; backgroundClass := "bg-cloudy" |}
  else if includes desc "rain"
  then {| icon := RainCloud; animationClass := "animate-rain"; backgroundClass := "bg-rainy" |}
  else if includes desc "storm" || includes desc "thunder"
  then {| icon := ThunderCloud; animationClass := "animate-storm"; backgroundClass := "bg-stormy" |}
  else if includes desc "snow"
  then {| icon := Snowflake; animationClass := "animate-snow"; backgroundClass := "bg-snowy" |}
  else if includes desc "mist" || includes desc "fog"
  then {| icon := Fog; animationClass := "animate-mist"; backgroundClass := "bg-misty" |}
  else {| icon := Globe; animationClass := ""; backgroundClass := "bg-default" |}.

(** [getWeatherIcon(x.description)] where [x] is [any]: on an argument that
    is not a string, [description.toLowerCase()] throws. *)
Definition getWeatherIcon_of (description : value) : M look :=
  match description with
  | Str s => ret (getWeatherIcon s)
  | _ => throw TypeError
  end.

(** ** UI state management *)

Definition hideSuggestions : M unit :=
  draw (fun p => set_suggestions [] (set_suggestions_hidden true p)).

Definition showLoading : M unit :=
  draw (set_shown {| loader_hidden := false; error_hidden := true; favorites_hidden := true;
                     current_hidden := true; forecast_hidden := true |}).

Definition showContent : M unit :=
  favs <- read favorites ;;
  draw (fun p =>
    set_shown {| loader_hidden := true; error_hidden := true;
                 favorites_hidden :=
                   if Nat.ltb 0 (List.length favs) then false else favorites_hidden (shown p);
                 current_hidden := false; forecast_hidden := false |} p).

Definition showError (message : string) : M unit :=
  draw (fun p =>
    set_error_message message
      (set_shown {| loader_hidden := true; error_hidden := false; favorites_hidden := true;
                    current_hidden := true; forecast_hidden := true |} p)).

(** ** Alerts *)

Definition createAlertPill (text className : string) : pill :=
  {| pill_class := "alert-pill " ++ className; pill_text := text |}.

Definition appendAlert (x : pill) : M unit :=
  draw_current (fun c => set_weather_alerts (weather_alerts c ++ [x]) c).

Definition displayWeatherAlerts (current : value) : M unit :=
  draw_current (set_weather_alerts []) ;;
  temp <- prop current "temp" ;;
  t <- number_of temp ;;
  (if gt t (of_Z 30) then appendAlert (createAlertPill "Extreme Heat" "alert-hot")
   else
     temp' <- prop current "temp" ;;
     t' <- number_of temp' ;;
     when (lt t' (of_Z 5)) (appendAlert (createAlertPill "Cold Weather" "alert-cold"))) ;;
  wind <- prop current "wind_speed" ;;
  ws <- number_of wind ;;
  when (gt ws (of_Z 30)) (appendAlert (createAlertPill "High Wind" "alert-wind")) ;;
  description <- prop current "description" ;;
  desc <- lower_of description ;;
  when (includes desc "storm" || includes desc "thunder")
       (appendAlert (createAlertPill "Storm Alert" "alert-storm")).

(** ** UI update functions *)

Definition displayCurrentWeather (city : string) (current : value) : M unit :=
  draw_current (set_city_name city) ;;
  description <- prop current "description" ;;
  l <- getWeatherIcon_of description ;;
  draw_current (set_weather_icon (icon l) (animationClass l)) ;;
  draw_current (set_card_background (backgroundClass l)) ;;
  temp <- prop current "temp" ;;
  t <- number_of temp ;;
  draw_current (set_current_temp (Math_round t)) ;;
  description' <- prop current "description" ;;
  draw_current (set_weather_description
                  (match description' with Str s => s | _ => EmptyString end)) ;;
  h <- prop current "humidity" ;;
  h' <- text_of_value h ;;
  draw_current (set_humidity h') ;;
  ws <- prop current "wind_speed" ;;
  ws' <- text_of_value ws ;;
  draw_current (set_wind_speed ws') ;;
  displayWeatherAlerts current.

(** [forecast.slice(0, 5)] followed by [.forEach]: only an array has both. *)
Definition slice_0_5 (forecast : value) : M (list value) :=
  match forecast with
  | Arr l => ret (firstn 5 l)
  | _ => throw TypeError
  end.

(** The callback of [forEach] in [displayForecast]: the card of one day. *)
Definition displayForecast_card (day : value) : M unit :=
  d <- prop day "day" ;;
  d' <- text_of_value d ;;
  description <- prop day "description" ;;
  l <- getWeatherIcon_of description ;;
  hi <- prop day "temp_high" ;;
  hi' <- number_of hi ;;
  lo <- prop day "temp_low" ;;
  lo' <- number_of lo ;;
  draw (fun p =>
    set_forecast_cards
      (forecast_cards p ++
         [{| card_day := d'; card_icon := icon l; card_animation := animationClass l;
             card_high := Math_round hi'; card_low := Math_round lo' |}]) p).

Definition displayForecast (forecast : value) : M unit :=
  draw (set_forecast_cards []) ;;
  days <- slice_0_5 forecast ;;
  forEach days displayForecast_card.

(** [suggestions.length], as far as [=== 0] can tell: an array's and a
    string's length, an object's own [length] property. *)
Definition length_is_zero (suggestions : value) : M bool :=
  match suggestions with
  | Undefined | Null => throw TypeError
  | Arr l => ret (Nat.eqb (List.length l) 0)
  | Str s => ret (Nat.eqb (String.length s) 0)
  | Obj l => ret (match own "length" l with
                  | Some (Num (Finite q)) => Qeq_bool q 0
                  | _ => false
                  end)
  | _ => ret false
  end.

(** The callback of [forEach] in [displaySuggestions]: one item. *)
Definition displaySuggestions_item (city : value) : M unit :=
  city' <- text_of_value city ;;
  draw (fun p => set_suggestions (Page.suggestions p ++ [city']) p).

Definition displaySuggestions (suggestions : value) : M unit :=
  draw (set_suggestions []) ;;
  empty <- length_is_zero suggestions ;;
  if empty then hideSuggestions
  else
    match suggestions with
    | Arr l =>
        forEach l displaySuggestions_item ;;
        draw (set_suggestions_hidden false)
    | _ => throw TypeError              (* forEach is not a function *)
    end.

(** ** Favorites *)

(** [favorites.some(city => city.toLowerCase() === name.toLowerCase())] *)
Definition is_favorite (favs : list string) (name : string) : bool :=
  existsb (fun city => String.eqb (toLowerCase city) (toLowerCase name)) favs.

Definition strings_of (v : value) : option (list string) :=
  match v with
  | Arr l =>
      fold_right (fun x acc =>
                    match x, acc with
                    | Str s, Some r => Some (s :: r)
                    | _, _ => None
                    end) (Some []) l
  | _ => None
  end.

Definition loadFavorites : M unit :=
  storedFavorites <- read localStorage ;;
  match storedFavorites with
  | None | Some EmptyString => ret tt
  | Some text =>
      match JSON_parse text with
      | None => throw SyntaxError
      | Some v =>
          match strings_of v with
          | Some l => write (set_favorites l)
          | None => fun _ => Untyped
          end
      end
  end.

(** [localStorage.setItem(FAVORITES_KEY, text)]: the item is written, or
    the call throws (the storage is full, or refuses every write) and the
    item stays as it was. *)
Definition setItem (text : string) : M unit :=
  takes <- read storage_takes ;;
  if takes text then write (set_localStorage (Some text))
  else throw QuotaExceededError.

Definition saveFavorites : M unit :=
  favs <- read favorites ;;
  setItem (JSON_stringify favs).

(** The callback of [forEach] in [renderFavorites]: one button. *)
Definition renderFavorites_item (city : string) : M unit :=
  draw (fun p => set_favorites_list (favorites_list p ++ [city]) p).

Definition set_favorites_hidden (b : bool) : M unit :=
  draw (fun p =>
    set_shown {| loader_hidden := loader_hidden (shown p); error_hidden := error_hidden (shown p);
                 favorites_hidden := b; current_hidden := current_hidden (shown p);
                 forecast_hidden := forecast_hidden (shown p) |} p).

Definition renderFavorites : M unit :=
  draw (set_favorites_list []) ;;
  favs <- read favorites ;;
  if Nat.ltb 0 (List.length favs) then
    set_favorites_hidden false ;;
    forEach favs renderFavorites_item
  else
    set_favorites_hidden true.

Definition updateFavoriteButton : M unit :=
  favs <- read favorites ;;
  city <- read currentCity ;;
  draw (set_star (is_favorite favs city)).

Definition addFavorite (cityToAdd : string) : M unit :=
  favs <- read favorites ;;
  if negb (is_favorite favs cityToAdd) then
    write (set_favorites (favs ++ [cityToAdd])) ;;
    saveFavorites ;;
    renderFavorites ;;
    updateFavoriteButton
  else ret tt.

(** [confirmed] is what the user answers to [confirm]. *)
Definition removeFavorite (cityToRemove : string) (confirmed : bool) : M unit :=
  if confirmed then
    favs <- read favorites ;;
    write (set_favorites
             (filter (fun city =>
                        negb (String.eqb (toLowerCase city) (toLowerCase cityToRemove))) favs)) ;;
    saveFavorites ;;
    renderFavorites ;;
    updateFavoriteButton
  else ret tt.

(** ** Requests to the backend *)

(** [ai.models.generateContent({ contents: prompt, ... })]: the request is
    in flight until the backend settles it. *)
Definition generateContent (prompt : string) (k : awaiting) : M unit :=
  write (fun w =>
    set_in_flight
      (in_flight w ++ [{| req_id := calls w; req_prompt := prompt; req_then := k |}])
      (S (calls w)) w).

(** What [await] gives once the request has settled. *)
Definition await (r : response) : M string :=
  match r with
  | Rejected => throw NetworkError
  | Resolved text => ret text
  end.

Definition parse (text : string) : M value :=
  match JSON_parse text with
  | Some v => ret v
  | None => throw SyntaxError
  end.

Definition set_searching (b : bool) : M unit :=
  draw (fun p =>
    set_search_btn {| searching := b; loading := loading (search_btn p); disabled := b |} p).

Definition set_loading (b : bool) : M unit :=
  draw (fun p =>
    set_search_btn {| searching := searching (search_btn p); loading := b;
                      disabled := disabled (search_btn p) |} p).

(** [fetchWeather(city, isAutoRefresh)], from the call to the [await]. *)
Definition fetchWeather (city : string) (isAutoRefresh : bool) : M unit :=
  when (negb isAutoRefresh)
       (hideSuggestions ;;
        showLoading ;;
        set_searching true) ;;
  generateContent
    ("Provide the current weather and a 5-day forecast for " ++ city
       ++ ". Use Celsius for temperature.")
    (WeatherFor city isAutoRefresh).

(** [city.split(',')[0].trim()] *)
Definition displayCity_of (city : string) : string :=
  trim (hd EmptyString (split "," city)).

(** The [try] block of [fetchWeather], from the [await] on. *)
Definition fetchWeather_try (city : string) (isAutoRefresh : bool) (r : response) : M unit :=
  text <- await r ;;
  weatherData <- parse text ;;
  write (set_currentCity city) ;;
  updateFavoriteButton ;;
  let displayCity := displayCity_of city in
  current <- prop weatherData "current" ;;
  displayCurrentWeather displayCity current ;;
  forecast <- prop weatherData "forecast" ;;
  displayForecast forecast ;;
  when (negb isAutoRefresh) showContent.

(** [fetchWeather], from the [await] to its end: the [try] block, its
    [catch] and its [finally]. *)
Definition fetchWeather_then (city : string) (isAutoRefresh : bool) (r : response) : M unit :=
  try_finally
    (try_catch
       (fetchWeather_try city isAutoRefresh r)
       (fun error =>
          when (negb isAutoRefresh)
               (showError "Could not retrieve weather data. Please try another city.")))
    (when (negb isAutoRefresh) (set_searching false)).

Definition suggestions_prompt (query : string) : string :=
  "Provide a list of up to 5 city names that start with '" ++ query
    ++ "'. Include country. Return only a JSON array of strings. Example: ["
    ++ quote "London, UK" ++ ", " ++ quote "Londrina, Brazil" ++ "]".

(** [fetchCitySuggestions(query)], from the call to the [await], or to the
    [return] of the guard. *)
Definition fetchCitySuggestions (query : string) : M unit :=
  if Nat.ltb (String.length query) 3 then
    hideSuggestions ;;
    set_loading false
  else
    set_loading true ;;
    generateContent (suggestions_prompt query) Suggestions.

(** [fetchCitySuggestions], from the [await] to its end. *)
Definition fetchCitySuggestions_then (r : response) : M unit :=
  try_finally
    (try_catch
       (text <- await r ;;
        suggestions <- parse text ;;
        displaySuggestions suggestions)
       (fun error => hideSuggestions))
    (set_loading false).

(** ** Event listeners *)

(** click on [#search-btn] *)
Definition on_search_click : M unit :=
  p <- read document ;;
  let city := trim (city_input p) in
  if Nat.ltb 0 (String.length city) then fetchWeather city false else ret tt.

(** [input] on [#city-input], the field now holding [text] *)
Definition on_input (text : string) : M unit :=
  draw (set_city_input text) ;;
  write (set_debounceTimer None) ;;
  let query := trim text in
  write (set_debounceTimer (Some query)).

(** click on [#add-favorite-btn] *)
Definition on_favorite_click (confirmed : bool) : M unit :=
  favs <- read favorites ;;
  city <- read currentCity ;;
  if is_favorite favs city then removeFavorite city confirmed else addFavorite city.

(** click on a [.suggestion-item] *)
Definition on_suggestion_click (city : string) : M unit :=
  draw (set_city_input city) ;;
  fetchWeather city false.

(** [load] on the window *)
Definition on_load : M unit :=
  loadFavorites ;;
  renderFavorites ;;
  favs <- read favorites ;;
  let initialCity := match favs with city :: _ => city | [] => "London" end in
  write (set_currentCity initialCity) ;;
  fetchWeather initialCity false.

(** the callback of [setInterval] *)
Definition on_refresh : M unit :=
  city <- read currentCity ;;
  if Nat.ltb 0 (String.length city) then fetchWeather city true else ret tt.

(** The world when the script has run and nothing has happened yet, over
    the page the document came with and what the storage holds.  Its
    storage takes every write; [set_storage_takes] gives the worlds whose
    storage does not. *)
Definition boot (p : page) (stored : option string) : world :=
  {| favorites := []; debounceTimer := None; currentCity := "London";
     document := p; localStorage := stored; in_flight := []; calls := 0;
     storage_takes := fun _ => true |}.

End App.

(* ===================================================================== *)
(** * The event loop *)
(* ===================================================================== *)

Module Loop.
Import JS Page App.
Local Open Scope stmt_scope.

(** What the browser can deliver.  Timers are not timed: the callback of
    the debounce timeout or of the refresh interval runs when its event
    comes, so all orders in which time may let them come are covered.  A
    click outside the search wrapper also reaches the listener of the
    document: that is [ClickOutside], to be put after the click. *)
Inductive event : Type :=
| Load
| Input (text : string)                 (* the user edits the field to [text] *)
| DebounceFires
| ClickSearch
| PressEnter
| ClickSuggestion (i : nat)
| ClickFavorite (i : nat)
| ClickRemove (i : nat) (confirmed : bool)
| ClickStar (confirmed : bool)
| ClickOutside
| RefreshFires
| Settles (id : nat) (r : response).    (* the backend settles a request *)

Fixpoint take_request (id : nat) (l : list request) : option (request * list request) :=
  match l with
  | [] => None
  | q :: r =>
      if Nat.eqb (req_id q) id then Some (q, r)
      else match take_request id r with
           | Some (x, r') => Some (x, q :: r')
           | None => None
           end
  end.

(** The listener an event runs; [None] when the event cannot come in this
    world: a disabled button gets no click, an element that is hidden or
    absent neither, a timeout fires only while it is pending, a request
    settles only while it is in flight.  (A click on a suggestion that is
    not a string would call [fetchWeather] outside its type; it is not
    followed either.) *)
Definition listener (w : world) (e : event) : option (M unit) :=
  let p := document w in
  match e with
  | Load => Some on_load
  | Input text => Some (on_input text)
  | DebounceFires =>
      match debounceTimer w with
      | Some query => Some (write (set_debounceTimer None) ;; fetchCitySuggestions query)
      | None => None
      end
  | ClickSearch | PressEnter =>
      if disabled (search_btn p) then None else Some on_search_click
  | ClickSuggestion i =>
      if suggestions_hidden p then None
      else match nth_error (suggestions p) i with
           | Some (Str city) => Some (on_suggestion_click city)
           | _ => None
           end
  | ClickFavorite i =>
      if favorites_hidden (shown p) then None
      else match nth_error (favorites_list p) i with
           | Some city => Some (fetchWeather city false)
           | None => None
           end
  | ClickRemove i confirmed =>
      if favorites_hidden (shown p) then None
      else match nth_error (favorites_list p) i with
           | Some city => Some (removeFavorite city confirmed)
           | None => None
           end
  | ClickStar confirmed => Some (on_favorite_click confirmed)
  | ClickOutside => Some hideSuggestions
  | RefreshFires => Some on_refresh
  | Settles id r =>
      match take_request id (in_flight w) with
      | Some (q, rest) =>
          Some (write (fun w => set_in_flight rest (calls w) w) ;;
                match req_then q with
                | WeatherFor city isAutoRefresh => fetchWeather_then city isAutoRefresh r
                | Suggestions => fetchCitySuggestions_then r
                end)
      | None => None
      end
  end.

(** One turn of the loop.  An exception no listener catches ends the
    listener and leaves the world as it is. *)
Definition step (w : world) (e : event) : option world :=
  match listener w e with
  | Some m =>
      match m w with
      | Returns _ w' => Some w'
      | Throws _ w' => Some w'
      | Untyped => None
      end
  | None => None
  end.

Fixpoint run (w : world) (es : list event) : option world :=
  match es with
  | [] => Some w
  | e :: r =>
      match step w e with
      | Some w' => run w' r
      | None => None
      end
  end.

End Loop.

(* ===================================================================== *)
(** * Well-shaped responses *)
(* ===================================================================== *)

(** The shapes [weatherResponseSchema] asks the backend for, as records,
    and how a parsed value is read as one.  [index.tsx] never checks the
    shape: these definitions serve to state what it draws when the shape
    holds. *)
Module Schema.
Import JS.

Record current : Type := {
  temp : Q;
  humidity : Q;
  wind_speed : Q;
  description : string
}.

Record day : Type := {
  day_name : string;
  temp_high : Q;
  temp_low : Q;
  day_description : string
}.

Record report : Type := {
  now : current;
  forecast : list day
}.

Definition number_at (v : value) (k : string) : option Q :=
  match get v k with
  | Some (Num (Finite q)) => Some q
  | _ => None
  end.

Definition string_at (v : value) (k : string) : option string :=
  match get v k with
  | Some (Str s) => Some s
  | _ => None
  end.

Definition current_of (v : value) : option current :=
  match number_at v "temp", number_at v "humidity", number_at v "wind_speed",
        string_at v "description" with
  | Some t, Some h, Some ws, Some d =>
      Some {| temp := t; humidity := h; wind_speed := ws; description := d |}
  | _, _, _, _ => None
  end.

Definition day_of (v : value) : option day :=
  match string_at v "day", number_at v "temp_high", number_at v "temp_low",
        string_at v "description" with
  | Some n, Some hi, Some lo, Some d =>
      Some {| day_name := n; temp_high := hi; temp_low := lo; day_description := d |}
  | _, _, _, _ => None
  end.

Fixpoint days_of (l : list value) : option (list day) :=
  match l with
  | [] => Some []
  | v :: r =>
      match day_of v, days_of r with
      | Some d, Some ds => Some (d :: ds)
      | _, _ => None
      end
  end.

Definition report_of (v : value) : option report :=
  match get v "current", get v "forecast" with
  | Some c, Some (Arr l) =>
      match current_of c, days_of l with
      | Some c', Some ds => Some {| now := c'; forecast := ds |}
      | _, _ => None
      end
  | _, _ => None
  end.

(** The value a record of the current weather is carried by, keys in the
    order of the schema. *)
Definition value_of_current (c : current) : value :=
  Obj [("temp", Num (Finite (temp c))); ("humidity", Num (Finite (humidity c)));
       ("wind_speed", Num (Finite (wind_speed c))); ("description", Str (description c))].

End Schema.

(** What the page shows of a well-shaped report: the functions below
    follow the words of the specification (section 4.4), to be compared
    with what the code of [App] draws. *)
Module View.
Import JS Page App.

Definition heat_alert : pill := createAlertPill "Extreme Heat" "alert-hot".
Definition cold_alert : pill := createAlertPill "Cold Weather" "alert-cold".
Definition wind_alert : pill := createAlertPill "High Wind" "alert-wind".
Definition storm_alert : pill := createAlertPill "Storm Alert" "alert-storm".

(** [word] occurs in [s], letter case apart. *)
Definition mentions (s word : string) : Prop :=
  exists before found rest : string,
    s = (before ++ found ++ rest)%string /\ toLowerCase found = toLowerCase word.

Definition temperature_alerts (t : Q) : list pill :=
  if negb (Qle_bool t 30) then [heat_alert]
  else if negb (Qle_bool 5 t) then [cold_alert]
  else [].

Definition wind_alerts (ws : Q) : list pill :=
  if negb (Qle_bool ws 30) then [wind_alert] else [].

Definition storm_alerts (d : string) : list pill :=
  if includes (toLowerCase d) "storm" || includes (toLowerCase d) "thunder"
  then [storm_alert] else [].

Definition alerts_of (c : Schema.current) : list pill :=
  temperature_alerts (Schema.temp c) ++ wind_alerts (Schema.wind_speed c)
    ++ storm_alerts (Schema.description c).

Definition card_of (city : string) (c : Schema.current) : current_card :=
  let l := getWeatherIcon (Schema.description c) in
  {| city_name := city;
     weather_icon := icon l;
     icon_animation := animationClass l;
     card_background := backgroundClass l;
     current_temp := Math_round (Finite (Schema.temp c));
     weather_description := Schema.description c;
     humidity := Num (Finite (Schema.humidity c));
     wind_speed := Num (Finite (Schema.wind_speed c));
     weather_alerts := alerts_of c |}.

Definition forecast_card_of (d : Schema.day) : forecast_card :=
  let l := getWeatherIcon (Schema.day_description d) in
  {| card_day := Str (Schema.day_name d);
     card_icon := icon l;
     card_animation := animationClass l;
     card_high := Math_round (Finite (Schema.temp_high d));
     card_low := Math_round (Finite (Schema.temp_low d)) |}.

(** The part of [s] before its first comma, all of [s] when it has none. *)
Fixpoint before_first_comma (s : string) : string :=
  match s with
  | EmptyString => EmptyString
  | String c r => if Ascii.eqb c "," then EmptyString else String c (before_first_comma r)
  end.

(** The world once a well-shaped report for [city] has been drawn: the
    city is current, the star tells whether it is a favorite, the card and
    the forecast show the report, the first five days of it. *)
Definition drawn (city : string) (rep : Schema.report) (w : world) : world :=
  set_document
    (set_forecast_cards (map forecast_card_of (firstn 5 (Schema.forecast rep)))
       (set_current (card_of (displayCity_of city) (Schema.now rep))
          (set_star (is_favorite (favorites w) city) (document w))))
    (set_currentCity city w).

(** Everything of the world an auto-refresh has no business with: the
    phase and the controls, the error message, the suggestions, the input,
    the favorites and their list, the storage, the timer, the requests. *)
Definition beside_the_weather (w : world) :=
  (shown (document w), search_btn (document w), error_message (document w),
   (suggestions_hidden (document w), suggestions (document w)),
   city_input (document w), favorites_list (document w),
   (favorites w, localStorage w, debounceTimer w, in_flight w, calls w)).

End View.

(* ===================================================================== *)
(** * Sample data *)
(* ===================================================================== *)

Module Sample.
Import JS Page App Loop.

(** A page on which nothing has been drawn yet. *)
Definition blank : page :=
  {| city_input := EmptyString;
     search_btn := {| searching := false; loading := false; disabled := false |};
     shown := {| loader_hidden := true; error_hidden := true; favorites_hidden := true;
                 current_hidden := true; forecast_hidden := true |};
     error_message := EmptyString;
     suggestions_hidden := true;
     suggestions := [];
     favorites_list := [];
     star := false;
     current := {| city_name := EmptyString; weather_icon := Globe;
                   icon_animation := EmptyString; card_background := EmptyString;
                   current_temp := NaN; weather_description := EmptyString;
                   humidity := Undefined; wind_speed := Undefined; weather_alerts := [] |};
     forecast_cards := [] |}.

Definition london : string :=
  json "{'current':{'temp':12,'humidity':70,'wind_speed':10,'description':'Light rain'},'forecast':[{'day':'Mon','temp_high':14,'temp_low':9,'description':'Cloudy'}]}".

Definition tokyo : string :=
  json "{'current':{'temp':31,'humidity':60,'wind_speed':12,'description':'Clear sky'},'forecast':[{'day':'Mon','temp_high':33,'temp_low':24,'description':'Sunny and clear'}]}".

Definition paris : string :=
  json "{'current':{'temp':4,'humidity':80,'wind_speed':35,'description':'Thunderstorm'},'forecast':[]}".

(** A current weather and no forecast. *)
Definition no_forecast : string :=
  json "{'current':{'temp':31,'humidity':60,'wind_speed':12,'description':'Clear sky'}}".

(** The page is loaded and shows London. *)
Definition showing_london : list event :=
  [Load; Settles 0 (Resolved london)].

(** The world the events lead to, from a blank page and an empty storage. *)
Definition world_after (es : list event) : world :=
  match run (boot blank None) es with
  | Some w => w
  | None => boot blank None
  end.

(** A search for Tokyo by the button; while it is in flight the user types
    "Par", picks "Paris, France" from the suggestions, and the answer for
    Paris comes; the answer for Tokyo comes last. *)
Definition tokyo_then_paris : list event :=
  showing_london ++
  [Input "Tokyo"; ClickSearch;
   Input "Par"; DebounceFires; Settles 2 (Resolved (json "['Paris, France']"));
   ClickSuggestion 0;
   Settles 3 (Resolved paris);
   Settles 1 (Resolved tokyo)].

(** The refresh interval fires while London is shown; before the backend
    answers it the user searches Tokyo and gets it.  The request of the
    refresh, number 1, is still in flight. *)
Definition refresh_then_tokyo : list event :=
  showing_london ++
  [RefreshFires;
   Input "Tokyo"; ClickSearch; Settles 2 (Resolved tokyo)].

(** The same, London having been made a favorite first. *)
Definition favorite_refresh_then_tokyo : list event :=
  showing_london ++
  [ClickStar true;
   RefreshFires;
   Input "Tokyo"; ClickSearch; Settles 2 (Resolved tokyo)].

(** The reports the texts above carry. *)
Definition london_report : Schema.report :=
  {| Schema.now := {| Schema.temp := 12; Schema.humidity := 70; Schema.wind_speed := 10;
                      Schema.description := "Light rain" |};
     Schema.forecast := [{| Schema.day_name := "Mon"; Schema.temp_high := 14;
                            Schema.temp_low := 9; Schema.day_description := "Cloudy" |}] |}.

Definition tokyo_report : Schema.report :=
  {| Schema.now := {| Schema.temp := 31; Schema.humidity := 60; Schema.wind_speed := 12;
                      Schema.description := "Clear sky" |};
     Schema.forecast := [{| Schema.day_name := "Mon"; Schema.temp_high := 33;
                            Schema.temp_low := 24;
                            Schema.day_description := "Sunny and clear" |}] |}.

Definition paris_report : Schema.report :=
  {| Schema.now := {| Schema.temp := 4; Schema.humidity := 80; Schema.wind_speed := 35;
                      Schema.description := "Thunderstorm" |};
     Schema.forecast := [] |}.

(** What the backend suggests for "Lon" and for "Lond". *)
Definition for_lon : string := json "['Lonavala, India','Long Beach, USA']".
Definition for_lond : string := json "['Londrina, Brazil']".

(** The user types "Lon", pauses, and types on to "Lond": the request for
    "Lon", number 1, is in flight and the timer of a newer debounce cycle
    is pending. *)
Definition lon_then_lond : list event :=
  showing_london ++
  [Input "Lon"; DebounceFires;
   Input "Lond"].

End Sample.

(* ===================================================================== *)
(** * What is said of statements *)
(* ===================================================================== *)

Import JS Page App Loop.
Local Open Scope stmt_scope.
Local Close Scope Q_scope.

(** A statement keeps [f] when the world it leaves, returning or throwing,
    has the [f] it found. *)
Definition keeps {A B : Type} (f : world -> B) (m : M A) : Prop :=
  forall w : world,
    match m w with
    | Returns _ w' | Throws _ w' => f w' = f w
    | Untyped => True
    end.

(** A statement is typed when it never leaves the declared types, and
    settles when it always returns. *)
Definition typed {A : Type} (m : M A) : Prop := forall w : world, m w <> Untyped.

Definition settles {A : Type} (m : M A) : Prop :=
  forall w : world, exists (a : A) (w' : world), m w = Returns a w'.

(** [after P m Q]: from a world where [P] holds, when [m] returns, [Q]
    holds of what it returns and of the world it leaves. *)
Definition after {A : Type} (P : world -> Prop) (m : M A) (Q : A -> world -> Prop) : Prop :=
  forall w : world,
    P w -> match m w with Returns a w' => Q a w' | _ => True end.

(** The part of the world the first three writes of the [try] block of
    [fetchWeather] set: [currentCity], the star, the name on the card; with
    the favorites the star is computed from. *)
Definition named (w : world) : string * list string * bool * string :=
  (currentCity w, favorites w, star (document w), city_name (current (document w))).

Definition named_for (city : string) (x : string * list string * bool * string) : Prop :=
  let '(current_city, favs, filled, name) := x in
  current_city = city /\ filled = is_favorite favs city /\ name = displayCity_of city.

(** [leaves P m Q E]: from a world where [P] holds, [m] leaves a world
    where [Q] holds when it returns, and one where [E] holds when it
    throws. *)
Definition leaves {A : Type} (P : world -> Prop) (m : M A) (Q E : world -> Prop) : Prop :=
  forall w : world,
    P w -> match m w with
           | Returns _ w' => Q w'
           | Throws _ w' => E w'
           | Untyped => True
           end.


(** The two classes [getWeatherIcon] gives with each picture. *)
Definition classes_of (e : emoji) : string * string :=
  match e with
  | Sun => ("animate-sun", "bg-sunny")
  | Cloud => ("animate-cloud", "bg-cloudy")
  | RainCloud => ("animate-rain", "bg-rainy")
  | ThunderCloud => ("animate-storm", "bg-stormy")
  | Snowflake => ("animate-snow", "bg-snowy")
  | Fog => ("animate-mist", "bg-misty")
  | Globe => (EmptyString, "bg-default")
  end.

(** Two names are the same favorite when their lowercase forms are equal. *)
Definition same_city (a b : string) : bool := String.eqb (toLowerCase a) (toLowerCase b).

(** No two entries of the list are the same favorite. *)
Definition unique (favs : list string) : Prop := NoDup (map toLowerCase favs).



Definition box_coherent (w : world) : Prop :=
  suggestions_hidden (document w) = true <-> suggestions (document w) = [].

Definition readable (stored : option string) : Prop :=
  match stored with
  | None | Some EmptyString => True
  | Some text => exists l : list string,
                   JSON_parse text = Some (Arr (map Str l)) /\ unique l
  end.

Definition favorites_unique (w : world) : Prop :=
  unique (favorites w) /\ readable (localStorage w).

(** The world once the list of favorites has been set to [l], saved,
    rendered, and the star brought up to date: what [addFavorite] and
    [removeFavorite] do when they do something and the storage takes the
    list.  When it does not, they throw in [set_favorites l w]. *)
Definition written (l : list string) (w : world) : world :=
  set_document
    (set_star (is_favorite l (currentCity w))
       (set_favorites_list l
          (set_shown {| loader_hidden := loader_hidden (shown (document w));
                        error_hidden := error_hidden (shown (document w));
                        favorites_hidden := negb (Nat.ltb 0 (List.length l));
                        current_hidden := current_hidden (shown (document w));
                        forecast_hidden := forecast_hidden (shown (document w)) |}
             (document w))))
    (set_localStorage (Some (JSON_stringify l)) (set_favorites l w)).

(** [l] is [favs] with one city taken out, or with one new city at the end. *)
Definition edited (favs l : list string) : Prop :=
  (exists city, l = filter (fun x => negb (same_city x city)) favs)
  \/ (exists city, is_favorite favs city = false /\ l = favs ++ [city]).

(** The statements that edit the favorites. *)
Inductive edits : M unit -> Prop :=
| edits_add (city : string) : edits (addFavorite city)
| edits_remove (city : string) (confirmed : bool) : edits (removeFavorite city confirmed)
| edits_click (confirmed : bool) : edits (on_favorite_click confirmed).

(** The page is in one of its three phases: the loader alone, the error
    alone, or the current weather with the forecast. *)
Definition in_a_phase (w : world) : Prop := phase_of (shown (document w)) <> None.

(** The events whose listeners write the favorites: the load of the window
    and the clicks on the star and on a remove button. *)
Definition edits_favorites (e : event) : bool :=
  match e with
  | Load | ClickRemove _ _ | ClickStar _ => true
  | _ => false
  end.

(** The favorites, in the globals, in the storage and on the page. *)
Definition saved (w : world) : list string * option string * list string :=
  (favorites w, localStorage w, favorites_list (document w)).

(** The storage holds the list of favorites as [saveFavorites] writes it. *)
Definition mirrors (w : world) : Prop :=
  localStorage w = Some (JSON_stringify (favorites w)).

(** The storage takes every write: [setItem] never throws. *)
Definition reliable (w : world) : Prop :=
  forall text : string, storage_takes w text = true.

(** What a click on the star is about: the favorites in the globals, in
    the storage and on the page, the current city and the star. *)
Definition starred (w : world) : list string * option string * string * bool * list string :=
  (favorites w, localStorage w, currentCity w, star (document w),
   favorites_list (document w)).

(** The page lists what the storage holds. *)
Definition shows_stored (w : world) : Prop :=
  localStorage w = Some (JSON_stringify (favorites_list (document w))).

(** The page shows that it waits for a search: the search button is
    disabled or marked as searching, or the loader shows. *)
Definition busy (w : world) : bool :=
  disabled (search_btn (document w)) || searching (search_btn (document w))
  || negb (loader_hidden (shown (document w))).

(** It does so only while an explicit search is in flight. *)
Definition waits (w : world) : Prop :=
  busy w = true ->
  exists (q : request) (city : string),
    In q (in_flight w) /\ req_then q = WeatherFor city false.

(** What the answer to a suggestion request never touches: all but the
    box and the loading mark of the button. *)
Definition beside_the_box (w : world) :=
  (shown (document w), error_message (document w), city_input (document w),
   (searching (search_btn (document w)), disabled (search_btn (document w))),
   (current (document w), forecast_cards (document w), star (document w),
    favorites_list (document w)),
   (favorites w, currentCity w, localStorage w, debounceTimer w, in_flight w, calls w)).

(** A forecast of seven days, two more than the page shows. *)
Definition week : list value :=
  map (fun name => Obj [("day", Str name); ("temp_high", Num (Finite 14));
                        ("temp_low", Num (Finite 9)); ("description", Str "Cloudy")])
    ["Mon"; "Tue"; "Wed"; "Thu"; "Fri"; "Sat"; "Sun"].

(** The tokens of the text [JSON.stringify] writes for a list of strings,
    between the brackets. *)
Definition tokens_of (l : list string) : list token :=
  match l with
  | [] => []
  | x :: r => TString x :: flat_map (fun y => [TComma; TString y]) r
  end.

(* ===================================================================== *)
(** * The runtime on examples *)
(* ===================================================================== *)

Example parse_object :
  JSON_parse (json "{ 'a' : [1, -2.5e1, true, null, 'x\u0041\n'], 'b' : {} }")
  = Some (Obj [("a", Arr [Num (Finite 1); Num (Finite (-25)); Bool true; Null;
                          Str (String "x" (String "A" (String (ascii_of_N 10) EmptyString)))]);
               ("b", Obj [])]).
Proof. vm_compute. reflexivity. Qed.

Example parse_last_key_wins :
  JSON_parse (json "{'a':1,'b':2,'a':3}") = Some (Obj [("a", Num (Finite 3)); ("b", Num (Finite 2))]).
Proof. vm_compute. reflexivity. Qed.

Example parse_rejects :
  map JSON_parse
      [EmptyString; "oops"; "[Paris"; "[1,]"; json "{'a':1,}"; "01"; "1."; ".5"; "-"; "+1";
       "nul"; "True"; json "'abc"; json "'a\qc'"; "[1 2]"; "[}"; "1 2"; json "{'a' 1}"]
  = repeat None 18.
Proof. vm_compute. reflexivity. Qed.

Example stringify_then_parse :
  JSON_parse (JSON_stringify ["Paris"; "New York"; json "say 'hi'\now"])
  = Some (Arr [Str "Paris"; Str "New York"; Str (json "say 'hi'\now")]).
Proof. vm_compute. reflexivity. Qed.

Example strings :
  (trim "  London  ", split "," "London, UK", split "," EmptyString,
   toLowerCase "ThunderStorm", String.length "Lon",
   includes "heavy thunderstorm" "storm", includes "stor" "storm")
  = ("London", ["London"; " UK"], [EmptyString], "thunderstorm", 3, true, false).
Proof. vm_compute. reflexivity. Qed.

Example numbers :
  (map StringToNumber [EmptyString; " 12 "; "0x1F"; "1e3"; ".5"; "-Infinity"; "12px"],
   map Math_round [Finite (5 # 2); Finite (-5 # 2); Finite (24 # 10)])
  = ([Finite 0; Finite 12; Finite 31; Finite 1000; Finite (5 # 10); Infinity true; NaN],
     [Finite 3; Finite (-2); Finite 2])%Q.
Proof. vm_compute. reflexivity. Qed.

(** The page loads with two favorites in the storage: the first one is
    current and asked for, the list is rendered, the loader is shown and
    the search button is disabled. *)
Example load_with_favorites :
  exists w : world,
    run (boot Sample.blank (Some (json "['Paris','Rome']"))) [Load] = Some w /\
    favorites w = ["Paris"; "Rome"] /\ currentCity w = "Paris" /\
    favorites_list (document w) = ["Paris"; "Rome"] /\
    map req_then (in_flight w) = [WeatherFor "Paris" false] /\
    phase_of (shown (document w)) = Some Loading /\
    disabled (search_btn (document w)) = true /\
    step w ClickSearch = None.
Proof.
  eexists. split; [vm_compute; reflexivity|]. repeat split.
Qed.

(* ===================================================================== *)
(** * Facts about strings *)
(* ===================================================================== *)

Lemma startsWith_iff (s pat : string) :
  startsWith s pat = true <-> exists rest, s = (pat ++ rest)%string.
Proof.
  revert s; induction pat as [|p pat IH]; intros s; simpl.
  - split; [intros _; now exists s | reflexivity].
  - destruct s as [|c s]; simpl.
    + split; [discriminate | intros [rest H]; discriminate].
    + rewrite andb_true_iff, Ascii.eqb_eq, IH. split.
      * intros [-> [rest ->]]. now exists rest.
      * intros [rest H]. injection H as -> ->. split; [reflexivity | now exists rest].
Qed.

Lemma includes_iff (s pat : string) :
  includes s pat = true <-> exists before rest, s = (before ++ pat ++ rest)%string.
Proof.
  induction s as [|c s IH].
  - simpl. rewrite orb_false_r, startsWith_iff. split.
    + intros [rest H]. now exists EmptyString, rest.
    + intros [before [rest H]]. destruct before as [|b before]; [|discriminate].
      now exists rest.
  - cbn [includes]. rewrite orb_true_iff, startsWith_iff, IH. split.
    + intros [[rest H] | [before [rest H]]].
      * exists EmptyString, rest. exact H.
      * exists (String c before), rest. simpl. now rewrite H.
    + intros [before [rest H]]. destruct before as [|b before].
      * left. now exists rest.
      * right. simpl in H. injection H as _ H. now exists before, rest.
Qed.

Lemma toLowerCase_app (a b : string) :
  toLowerCase (a ++ b) = (toLowerCase a ++ toLowerCase b)%string.
Proof. induction a as [|c a IH]; simpl; [reflexivity | now rewrite IH]. Qed.

Lemma toLowerCase_split (s a b : string) :
  toLowerCase s = (a ++ b)%string ->
  exists a' b', s = (a' ++ b')%string /\ toLowerCase a' = a /\ toLowerCase b' = b.
Proof.
  revert s; induction a as [|c a IH]; intros s H.
  - exists EmptyString, s. auto.
  - destruct s as [|d s]; simpl in H; [discriminate|].
    injection H as Hc H. destruct (IH _ H) as [a' [b' [-> [Ha Hb]]]].
    exists (String d a'), b'. simpl. now rewrite Hc, Ha, Hb.
Qed.

(** The test of the code, [s.toLowerCase().includes(word)], is the
    occurrence of the word whatever the case of its letters. *)
Lemma includes_lower_iff (s word : string) :
  includes (toLowerCase s) (toLowerCase word) = true <-> View.mentions s word.
Proof.
  rewrite includes_iff. unfold View.mentions. split.
  - intros [before [rest H]].
    apply toLowerCase_split in H as [b' [r' [-> [Hb H]]]].
    apply toLowerCase_split in H as [f' [r'' [-> [Hf Hr]]]].
    now exists b', f', r''.
  - intros [before [found [rest [-> H]]]].
    exists (toLowerCase before), (toLowerCase rest).
    now rewrite !toLowerCase_app, H.
Qed.

(* ===================================================================== *)
(** * Alerts *)
(* ===================================================================== *)

Ltac break_match_hyp :=
  match goal with
  | H : context [match ?x with _ => _ end] |- _ => destruct x eqn:?; try discriminate H
  end.

Lemma current_of_gets (v : value) (c : Schema.current) :
  Schema.current_of v = Some c ->
  get v "temp" = Some (Num (Finite (Schema.temp c))) /\
  get v "humidity" = Some (Num (Finite (Schema.humidity c))) /\
  get v "wind_speed" = Some (Num (Finite (Schema.wind_speed c))) /\
  get v "description" = Some (Str (Schema.description c)).
Proof.
  unfold Schema.current_of, Schema.number_at, Schema.string_at. intros H.
  repeat break_match_hyp. injection H as <-. subst. simpl. repeat split; congruence.
Qed.

Lemma current_of_value (c : Schema.current) :
  Schema.current_of (Schema.value_of_current c) = Some c.
Proof. destruct c; reflexivity. Qed.

(** On a well-shaped record the code draws the pills of the rules. *)
Lemma displayWeatherAlerts_shaped (v : value) (c : Schema.current) (w : world) :
  Schema.current_of v = Some c ->
  displayWeatherAlerts v w =
  Returns tt
    (set_document
       (set_current (set_weather_alerts (View.alerts_of c) (current (document w)))
          (document w)) w).
Proof.
  intros H. destruct (current_of_gets v c H) as (Ht & _ & Hw & Hd).
  unfold displayWeatherAlerts, bind, prop, number_of.
  rewrite Ht, Hw, Hd. simpl.
  unfold View.alerts_of, View.temperature_alerts, View.wind_alerts, View.storm_alerts,
    gt, lt, of_Z.
  change (inject_Z 30) with 30%Q. change (inject_Z 5) with 5%Q.
  destruct (Qle_bool (Schema.temp c) 30); simpl;
    [destruct (Qle_bool 5 (Schema.temp c)); simpl|];
    (destruct (Qle_bool (Schema.wind_speed c) 30); simpl);
    (destruct (includes (toLowerCase (Schema.description c)) "storm"
               || includes (toLowerCase (Schema.description c)) "thunder"); reflexivity).
Qed.

Lemma gt_iff (x y : Q) : negb (Qle_bool x y) = true <-> (y < x)%Q.
Proof.
  rewrite negb_true_iff. split.
  - intros H. apply Qnot_le_lt. intros L. apply Qle_bool_iff in L. congruence.
  - intros H. destruct (Qle_bool x y) eqn:E; [|reflexivity].
    apply Qle_bool_iff in E. exfalso. exact (Qlt_not_le _ _ H E).
Qed.

Lemma In_temperature_heat (t : Q) :
  In View.heat_alert (View.temperature_alerts t) <-> (30 < t)%Q.
Proof.
  rewrite <- gt_iff. unfold View.temperature_alerts.
  destruct (negb (Qle_bool t 30)); [|destruct (negb (Qle_bool 5 t))]; simpl;
    intuition discriminate.
Qed.

Lemma In_temperature_cold (t : Q) :
  In View.cold_alert (View.temperature_alerts t) <-> (t < 5)%Q.
Proof.
  unfold View.temperature_alerts.
  destruct (negb (Qle_bool t 30)) eqn:Hot; [|destruct (negb (Qle_bool 5 t)) eqn:Cold].
  - apply gt_iff in Hot. simpl. split; [intuition discriminate|].
    intros H. exfalso. apply (Qlt_irrefl 30). apply Qlt_trans with t; [exact Hot|].
    apply Qlt_trans with 5%Q; [exact H | reflexivity].
  - apply gt_iff in Cold. simpl. tauto.
  - simpl. split; [tauto|]. intros H. apply gt_iff in H. congruence.
Qed.

Lemma In_wind (ws : Q) :
  In View.wind_alert (View.wind_alerts ws) <-> (30 < ws)%Q.
Proof.
  rewrite <- gt_iff. unfold View.wind_alerts.
  destruct (negb (Qle_bool ws 30)); simpl; intuition discriminate.
Qed.

Lemma In_storm (d : string) :
  In View.storm_alert (View.storm_alerts d) <->
  View.mentions d "storm" \/ View.mentions d "thunder".
Proof.
  rewrite <- !includes_lower_iff. change (toLowerCase "storm") with "storm".
  change (toLowerCase "thunder") with "thunder".
  rewrite <- orb_true_iff. unfold View.storm_alerts.
  destruct (includes (toLowerCase d) "storm" || includes (toLowerCase d) "thunder");
    simpl; intuition discriminate.
Qed.

Lemma temperature_alerts_only (t : Q) (x : pill) :
  In x (View.temperature_alerts t) -> x = View.heat_alert \/ x = View.cold_alert.
Proof.
  unfold View.temperature_alerts.
  destruct (negb (Qle_bool t 30)); [|destruct (negb (Qle_bool 5 t))]; simpl; intuition.
Qed.

Lemma wind_alerts_only (ws : Q) (x : pill) :
  In x (View.wind_alerts ws) -> x = View.wind_alert.
Proof. unfold View.wind_alerts. destruct (negb (Qle_bool ws 30)); simpl; intuition. Qed.

Lemma storm_alerts_only (d : string) (x : pill) :
  In x (View.storm_alerts d) -> x = View.storm_alert.
Proof.
  unfold View.storm_alerts.
  destruct (includes (toLowerCase d) "storm" || includes (toLowerCase d) "thunder");
    simpl; intuition.
Qed.

(** Each pill of [alerts_of] comes from its own rule. *)
Lemma In_alerts_of (c : Schema.current) :
  (In View.heat_alert (View.alerts_of c) <-> (30 < Schema.temp c)%Q) /\
  (In View.cold_alert (View.alerts_of c) <-> (Schema.temp c < 5)%Q) /\
  (In View.wind_alert (View.alerts_of c) <-> (30 < Schema.wind_speed c)%Q) /\
  (In View.storm_alert (View.alerts_of c) <->
     View.mentions (Schema.description c) "storm"
     \/ View.mentions (Schema.description c) "thunder").
Proof.
  unfold View.alerts_of.
  rewrite <- In_temperature_heat, <- In_temperature_cold, <- In_wind, <- In_storm.
  repeat split; intros H;
    repeat (rewrite in_app_iff in H || rewrite in_app_iff); auto;
    destruct H as [H | [H | H]]; auto;
    try (apply temperature_alerts_only in H; destruct H; discriminate);
    try (apply wind_alerts_only in H; discriminate);
    try (apply storm_alerts_only in H; discriminate).
Qed.

(** C6.  For every record of the current weather, however the parsed
    object carries it, [displayWeatherAlerts] returns and the pills it
    leaves are those of the threshold rules: the heat alert exactly when
    the temperature is above 30, the cold alert exactly when it is below 5,
    never both; the wind alert exactly when the wind speed is above 30;
    the storm alert exactly when the description mentions "storm" or
    "thunder" in any letter case.  Each of the wind and storm alerts
    depends on its own field only. *)
Theorem displayWeatherAlerts_rules (v : value) (c : Schema.current) (w : world) :
  Schema.current_of v = Some c ->
  exists w' : world,
    displayWeatherAlerts v w = Returns tt w' /\
    let pills := weather_alerts (current (document w')) in
    (In View.heat_alert pills <-> (30 < Schema.temp c)%Q) /\
    (In View.cold_alert pills <-> (Schema.temp c < 5)%Q) /\
    ~ (In View.heat_alert pills /\ In View.cold_alert pills) /\
    (In View.wind_alert pills <-> (30 < Schema.wind_speed c)%Q) /\
    (In View.storm_alert pills <->
       View.mentions (Schema.description c) "storm"
       \/ View.mentions (Schema.description c) "thunder") /\
    pills = (View.temperature_alerts (Schema.temp c)
               ++ View.wind_alerts (Schema.wind_speed c)
               ++ View.storm_alerts (Schema.description c)).
Proof.
  intros H. eexists. split; [apply displayWeatherAlerts_shaped; exact H|].
  cbn [document set_document current set_current weather_alerts set_weather_alerts].
  destruct (In_alerts_of c) as (Hh & Hc & Hw & Hs).
  repeat split; try apply Hh; try apply Hc; try apply Hw; try apply Hs.
  intros [A B]. apply Hh in A. apply Hc in B.
  apply (Qlt_irrefl 30). apply Qlt_trans with (Schema.temp c); [exact A|].
  apply Qlt_trans with 5%Q; [exact B | reflexivity].
Qed.

(** At 31 degrees and a wind of 31 with thunder in the air: heat, wind and
    storm alerts, no cold alert; at 30 and 30 none of the first two. *)
Lemma displayWeatherAlerts_rules_witness :
  (exists w' : world,
     displayWeatherAlerts
       (Schema.value_of_current
          {| Schema.temp := 31; Schema.humidity := 50; Schema.wind_speed := 31;
             Schema.description := "Heavy THUNDERstorm" |})
       (boot Sample.blank None) = Returns tt w' /\
     weather_alerts (current (document w'))
     = [View.heat_alert; View.wind_alert; View.storm_alert]) /\
  (exists w' : world,
     displayWeatherAlerts
       (Schema.value_of_current
          {| Schema.temp := 30; Schema.humidity := 50; Schema.wind_speed := 30;
             Schema.description := "Clear" |})
       (boot Sample.blank None) = Returns tt w' /\
     weather_alerts (current (document w')) = []).
Proof.
  split.
  - destruct (displayWeatherAlerts_rules
                (Schema.value_of_current
                   {| Schema.temp := 31; Schema.humidity := 50; Schema.wind_speed := 31;
                      Schema.description := "Heavy THUNDERstorm" |})
                {| Schema.temp := 31; Schema.humidity := 50; Schema.wind_speed := 31;
                   Schema.description := "Heavy THUNDERstorm" |}
                (boot Sample.blank None) eq_refl)
      as (w' & Hrun & _ & _ & _ & _ & _ & Hpills).
    exists w'. split; [exact Hrun | exact Hpills].
  - destruct (displayWeatherAlerts_rules
                (Schema.value_of_current
                   {| Schema.temp := 30; Schema.humidity := 50; Schema.wind_speed := 30;
                      Schema.description := "Clear" |})
                {| Schema.temp := 30; Schema.humidity := 50; Schema.wind_speed := 30;
                   Schema.description := "Clear" |}
                (boot Sample.blank None) eq_refl)
      as (w' & Hrun & _ & _ & _ & _ & _ & Hpills).
    exists w'. split; [exact Hrun | exact Hpills].
Defined.

(* ===================================================================== *)
(** * Reasoning about statements *)
(* ===================================================================== *)

Section Statements.

Context {B : Type} (f : world -> B).

Lemma keeps_ret {A : Type} (a : A) : keeps f (ret a).
Proof. intros w. reflexivity. Qed.

Lemma keeps_throw {A : Type} (e : exn) : keeps f (@throw A e).
Proof. intros w. reflexivity. Qed.

Lemma keeps_read {A : Type} (g : world -> A) : keeps f (read g).
Proof. intros w. reflexivity. Qed.

Lemma keeps_write (g : world -> world) :
  (forall w, f (g w) = f w) -> keeps f (write g).
Proof. intros H w. apply H. Qed.

Lemma keeps_bind {A C : Type} (m : M A) (k : A -> M C) :
  keeps f m -> (forall a, keeps f (k a)) -> keeps f (bind m k).
Proof.
  intros Hm Hk w. unfold bind. specialize (Hm w).
  destruct (m w) as [a w'| e w'|]; auto.
  specialize (Hk a w'). destruct (k a w'); congruence.
Qed.

Lemma keeps_try_catch {A : Type} (body : M A) (handler : exn -> M A) :
  keeps f body -> (forall e, keeps f (handler e)) -> keeps f (try_catch body handler).
Proof.
  intros Hb Hh w. unfold try_catch. specialize (Hb w).
  destruct (body w) as [a w'| e w'|]; auto.
  specialize (Hh e w'). destruct (handler e w'); congruence.
Qed.

Lemma keeps_try_finally {A : Type} (body : M A) (last : M unit) :
  keeps f body -> keeps f last -> keeps f (try_finally body last).
Proof.
  intros Hb Hl w. unfold try_finally, bind. specialize (Hb w).
  destruct (body w) as [a w'| e w'|]; auto;
    specialize (Hl w'); destruct (last w'); simpl; congruence.
Qed.

Lemma keeps_when (b : bool) (m : M unit) : keeps f m -> keeps f (when b m).
Proof. destruct b; [auto | intros _; apply keeps_ret]. Qed.

Lemma keeps_forEach {A : Type} (l : list A) (k : A -> M unit) :
  (forall a, keeps f (k a)) -> keeps f (forEach l k).
Proof.
  intros H. induction l as [|x l IH]; simpl.
  - apply keeps_ret.
  - apply keeps_bind; auto.
Qed.

End Statements.

Lemma typed_ret {A : Type} (a : A) : typed (ret a).
Proof. intros w. discriminate. Qed.

Lemma typed_throw {A : Type} (e : exn) : typed (@throw A e).
Proof. intros w. discriminate. Qed.

Lemma typed_read {A : Type} (g : world -> A) : typed (read g).
Proof. intros w. discriminate. Qed.

Lemma typed_write (g : world -> world) : typed (write g).
Proof. intros w. discriminate. Qed.

Lemma typed_bind {A C : Type} (m : M A) (k : A -> M C) :
  typed m -> (forall a, typed (k a)) -> typed (bind m k).
Proof.
  intros Hm Hk w. unfold bind. specialize (Hm w).
  destruct (m w) as [a w'| e w'|]; [apply Hk | discriminate | congruence].
Qed.

Lemma typed_when (b : bool) (m : M unit) : typed m -> typed (when b m).
Proof. destruct b; [auto | intros _; apply typed_ret]. Qed.

Lemma typed_forEach {A : Type} (l : list A) (k : A -> M unit) :
  (forall a, typed (k a)) -> typed (forEach l k).
Proof.
  intros H. induction l as [|x l IH]; simpl.
  - apply typed_ret.
  - apply typed_bind; auto.
Qed.

Lemma typed_try_catch {A : Type} (body : M A) (handler : exn -> M A) :
  typed body -> (forall e, typed (handler e)) -> typed (try_catch body handler).
Proof.
  intros Hb Hh w. unfold try_catch. specialize (Hb w).
  destruct (body w) as [a w'| e w'|]; [discriminate | apply Hh | congruence].
Qed.

Lemma settles_ret {A : Type} (a : A) : settles (ret a).
Proof. intros w. now exists a, w. Qed.

Lemma settles_read {A : Type} (g : world -> A) : settles (read g).
Proof. intros w. now exists (g w), w. Qed.

Lemma settles_write (g : world -> world) : settles (write g).
Proof. intros w. now exists tt, (g w). Qed.

Lemma settles_bind {A C : Type} (m : M A) (k : A -> M C) :
  settles m -> (forall a, settles (k a)) -> settles (bind m k).
Proof.
  intros Hm Hk w. unfold bind. destruct (Hm w) as (a & w' & ->). apply Hk.
Qed.

Lemma settles_when (b : bool) (m : M unit) : settles m -> settles (when b m).
Proof. destruct b; [auto | intros _; apply settles_ret]. Qed.

Lemma settles_forEach {A : Type} (l : list A) (k : A -> M unit) :
  (forall a, settles (k a)) -> settles (forEach l k).
Proof.
  intros H. induction l as [|x l IH]; simpl.
  - apply settles_ret.
  - apply settles_bind; auto.
Qed.

(** try { body } catch { handler } finally { last } returns whenever the
    handler and the last block do. *)
Lemma settles_caught (body : M unit) (handler : exn -> M unit) (last : M unit) :
  typed body -> (forall e, settles (handler e)) -> settles last ->
  settles (try_finally (try_catch body handler) last).
Proof.
  intros Hb Hh Hl w. unfold try_finally, try_catch, bind. specialize (Hb w).
  destruct (body w) as [[] w'| e w'|]; [| |congruence].
  - destruct (Hl w') as ([] & w'' & ->). now exists tt, w''.
  - destruct (Hh e w') as ([] & w'' & ->). destruct (Hl w'') as ([] & w3 & ->).
    now exists tt, w3.
Qed.

(** What a statement that returns and keeps [f] gives. *)
Lemma settles_keeps {B : Type} (f : world -> B) (m : M unit) (w : world) :
  settles m -> keeps f m -> exists w' : world, m w = Returns tt w' /\ f w' = f w.
Proof.
  intros Hs Hk. destruct (Hs w) as ([] & w' & H). exists w'. split; [exact H|].
  specialize (Hk w). now rewrite H in Hk.
Qed.

Ltac open_statement :=
  unfold displayCurrentWeather, displayWeatherAlerts, displayForecast, displaySuggestions,
    updateFavoriteButton, renderFavorites, saveFavorites, hideSuggestions, showLoading,
    showContent, showError, appendAlert, set_searching, set_loading, generateContent, setItem,
    displayForecast_card, displaySuggestions_item, renderFavorites_item, set_favorites_hidden,
    slice_0_5, length_is_zero, getWeatherIcon_of, await, parse, prop, number_of,
    text_of_value, lower_of, draw_current, draw.

(** Goals [keeps f m], [typed m] and [settles m], by the structure of [m]. *)
Ltac statement :=
  open_statement;
  repeat
    match goal with
    | |- keeps _ (bind _ _) => apply keeps_bind; [|intros ?]
    | |- keeps _ (ret _) => apply keeps_ret
    | |- keeps _ (throw _) => apply keeps_throw
    | |- keeps _ (read _) => apply keeps_read
    | |- keeps _ (write _) => apply keeps_write; intros ?; reflexivity
    | |- keeps _ (when _ _) => apply keeps_when
    | |- keeps _ (forEach _ _) => apply keeps_forEach; intros ?
    | |- keeps _ (try_catch _ _) => apply keeps_try_catch; [|intros ?]
    | |- keeps _ (try_finally _ _) => apply keeps_try_finally
    | |- keeps _ (match ?x with _ => _ end) => destruct x
    | |- typed (bind _ _) => apply typed_bind; [|intros ?]
    | |- typed (ret _) => apply typed_ret
    | |- typed (throw _) => apply typed_throw
    | |- typed (read _) => apply typed_read
    | |- typed (write _) => apply typed_write
    | |- typed (when _ _) => apply typed_when
    | |- typed (forEach _ _) => apply typed_forEach; intros ?
    | |- typed (try_catch _ _) => apply typed_try_catch; [|intros ?]
    | |- typed (match ?x with _ => _ end) => destruct x
    | |- settles (bind _ _) => apply settles_bind; [|intros ?]
    | |- settles (ret _) => apply settles_ret
    | |- settles (read _) => apply settles_read
    | |- settles (write _) => apply settles_write
    | |- settles (when _ _) => apply settles_when
    | |- settles (forEach _ _) => apply settles_forEach; intros ?
    | |- settles (if ?x then _ else _) => destruct x
    end.

Lemma typed_fetchWeather_try (city : string) (isAutoRefresh : bool) (r : response) :
  typed (fetchWeather_try city isAutoRefresh r).
Proof. unfold fetchWeather_try. statement. Qed.

Lemma settles_showError (message : string) : settles (showError message).
Proof. statement. Qed.

Lemma settles_set_searching (b : bool) : settles (set_searching b).
Proof. statement. Qed.

Lemma settles_fetchWeather_then (city : string) (isAutoRefresh : bool) (r : response) :
  settles (fetchWeather_then city isAutoRefresh r).
Proof.
  unfold fetchWeather_then. apply settles_caught.
  - apply typed_fetchWeather_try.
  - intros e. apply settles_when, settles_showError.
  - apply settles_when, settles_set_searching.
Qed.

(** What an auto-refresh leaves alone, whatever the answer. *)
Lemma fetchWeather_try_auto_keeps (city : string) (r : response) :
  keeps View.beside_the_weather (fetchWeather_try city true r).
Proof. unfold fetchWeather_try. cbn [negb when]. statement. Qed.

Lemma fetchWeather_then_auto_keeps (city : string) (r : response) :
  keeps View.beside_the_weather (fetchWeather_then city true r).
Proof.
  unfold fetchWeather_then. cbn [negb when]. statement.
  apply fetchWeather_try_auto_keeps.
Qed.

(* ===================================================================== *)
(** * Favorites *)
(* ===================================================================== *)

Lemma is_favorite_iff (favs : list string) (name : string) :
  is_favorite favs name = true <-> In (toLowerCase name) (map toLowerCase favs).
Proof.
  unfold is_favorite. rewrite existsb_exists, in_map_iff. split.
  - intros [city [Hin H]]. apply String.eqb_eq in H. now exists city.
  - intros [city [H Hin]]. exists city. split; [exact Hin | now apply String.eqb_eq].
Qed.

Lemma settles_renderFavorites : settles renderFavorites.
Proof. statement. Qed.

Lemma settles_updateFavoriteButton : settles updateFavoriteButton.
Proof. statement. Qed.

Lemma renderFavorites_keeps_store :
  keeps (fun w => (favorites w, localStorage w)) renderFavorites.
Proof. statement. Qed.

Lemma updateFavoriteButton_keeps_store :
  keeps (fun w => (favorites w, localStorage w)) updateFavoriteButton.
Proof. statement. Qed.

(** C7.  [addFavorite] is idempotent under equality of lowercase forms:
    when the lowercase form of the city is the lowercase form of an entry
    of the list, the call changes nothing at all (the list keeps its size,
    contents and order); otherwise the city is appended at the end of the
    list, and the list is written to the storage when the storage takes
    it.  When [setItem] throws, [addFavorite] throws with the city in the
    list and nothing else changed: the storage holds what it held, the
    list is not rendered and the star is not brought up to date. *)
Theorem addFavorite_idempotent (w : world) (cityToAdd : string) :
  (In (toLowerCase cityToAdd) (map toLowerCase (favorites w)) ->
   addFavorite cityToAdd w = Returns tt w) /\
  (~ In (toLowerCase cityToAdd) (map toLowerCase (favorites w)) ->
   (storage_takes w (JSON_stringify (favorites w ++ [cityToAdd])) = true ->
    exists w' : world,
      addFavorite cityToAdd w = Returns tt w' /\
      favorites w' = favorites w ++ [cityToAdd] /\
      localStorage w' = Some (JSON_stringify (favorites w ++ [cityToAdd]))) /\
   (storage_takes w (JSON_stringify (favorites w ++ [cityToAdd])) = false ->
    addFavorite cityToAdd w
    = Throws QuotaExceededError (set_favorites (favorites w ++ [cityToAdd]) w))).
Proof.
  unfold addFavorite, bind, read. split; intros H.
  - apply is_favorite_iff in H. now rewrite H.
  - rewrite <- is_favorite_iff in H. apply not_true_is_false in H. rewrite H.
    cbn [negb write saveFavorites setItem bind read storage_takes set_favorites favorites].
    split; intros Htakes; rewrite Htakes; [|reflexivity].
    cbn [write]. set (w2 := set_localStorage _ _).
    destruct (settles_keeps _ renderFavorites w2 settles_renderFavorites
                renderFavorites_keeps_store) as (w3 & -> & H3).
    destruct (settles_keeps _ updateFavoriteButton w3 settles_updateFavoriteButton
                updateFavoriteButton_keeps_store) as (w4 & -> & H4).
    exists w4. rewrite H3 in H4. injection H4 as Hf Hs.
    rewrite Hf, Hs. repeat split.
Qed.

(** With Paris in the list, adding "PARIS" changes nothing and adding Rome
    appends it and stores the list. *)
Lemma addFavorite_idempotent_witness :
  let w := set_favorites ["Paris"] (boot Sample.blank None) in
  addFavorite "PARIS" w = Returns tt w /\
  exists w' : world,
    addFavorite "Rome" w = Returns tt w' /\
    favorites w' = ["Paris"; "Rome"] /\
    localStorage w' = Some (JSON_stringify ["Paris"; "Rome"]).
Proof.
  intros w. split.
  - apply (proj1 (addFavorite_idempotent w "PARIS")). simpl. auto.
  - apply (proj1 (proj2 (addFavorite_idempotent w "Rome")
                    ltac:(simpl; intros [H | []]; discriminate H))).
    reflexivity.
Defined.

(** Over a storage that takes no write, Paris is appended to the list and
    is not stored: [setItem] throws, and the storage stays empty. *)
Lemma full_storage_stores_nothing :
  ~ In (toLowerCase "Paris")
       (map toLowerCase
          (favorites (set_storage_takes (fun _ => false) (boot Sample.blank None)))) /\
  exists w' : world,
    addFavorite "Paris" (set_storage_takes (fun _ => false) (boot Sample.blank None))
    = Throws QuotaExceededError w' /\
    favorites w' = ["Paris"] /\
    localStorage w' = None /\
    favorites_list (document w') = [].
Proof.
  split; [intros []|]. eexists. split; [reflexivity|]. repeat split.
Qed.

(** ** Loading *)

Lemma loadFavorites_absent (w : world) :
  localStorage w = None \/ localStorage w = Some EmptyString ->
  loadFavorites w = Returns tt w.
Proof. unfold loadFavorites, bind, read. intros [-> | ->]; reflexivity. Qed.

Lemma loadFavorites_strings (w : world) (text : string) (l : list string) :
  localStorage w = Some text -> text <> EmptyString ->
  JSON_parse text = Some (Arr (map Str l)) ->
  loadFavorites w = Returns tt (set_favorites l w).
Proof.
  unfold loadFavorites, bind, read. intros -> Hne ->.
  destruct text; [congruence|].
  replace (strings_of (Arr (map Str l))) with (Some l); [reflexivity|].
  unfold strings_of. induction l as [|x l IH]; simpl; [reflexivity | now rewrite <- IH].
Qed.

(** C4.  What [loadFavorites] does when the text in the storage is not
    JSON: the SyntaxError of [JSON.parse] leaves the function, nothing
    catches it. *)
Theorem loadFavorites_throws (w : world) (text : string) :
  localStorage w = Some text -> text <> EmptyString -> JSON_parse text = None ->
  loadFavorites w = Throws SyntaxError w.
Proof.
  unfold loadFavorites, bind, read. intros -> Hne ->.
  destruct text; [congruence | reflexivity].
Qed.

(** The storage holds "[Paris" (a bracket never closed): loading throws,
    and the [load] listener ends there, before any list is rendered and
    any weather is asked for. *)
Lemma loadFavorites_throws_witness :
  loadFavorites (boot Sample.blank (Some "[Paris"))
  = Throws SyntaxError (boot Sample.blank (Some "[Paris"))
  /\ run (boot Sample.blank (Some "[Paris")) [Load] = Some (boot Sample.blank (Some "[Paris")).
Proof.
  split.
  - apply (loadFavorites_throws (boot Sample.blank (Some "[Paris")) "[Paris").
    + reflexivity.
    + discriminate.
    + reflexivity.
  - reflexivity.
Defined.

(* ===================================================================== *)
(** * Suggestions: the guard on the length *)
(* ===================================================================== *)

(** C8.  [fetchCitySuggestions] on a query of fewer than 3 characters makes
    no request and returns at once, leaving the suggestion box empty and
    hidden; on a query of 3 characters or more it makes exactly one
    request, for that query. *)
Theorem fetchCitySuggestions_guard (w : world) (query : string) :
  (String.length query < 3 ->
   exists w' : world,
     fetchCitySuggestions query w = Returns tt w' /\
     in_flight w' = in_flight w /\ calls w' = calls w /\
     suggestions (document w') = [] /\ suggestions_hidden (document w') = true) /\
  (3 <= String.length query ->
   exists w' : world,
     fetchCitySuggestions query w = Returns tt w' /\
     in_flight w' = in_flight w ++ [{| req_id := calls w;
                                       req_prompt := suggestions_prompt query;
                                       req_then := Suggestions |}] /\
     calls w' = S (calls w)).
Proof.
  unfold fetchCitySuggestions. split; intros H.
  - apply Nat.ltb_lt in H. rewrite H. eexists. split; [reflexivity|]. simpl. auto.
  - apply Nat.ltb_ge in H. rewrite H. eexists. split; [reflexivity|]. simpl. auto.
Qed.

(** "Lo" asks nothing, "Lon" asks once. *)
Lemma fetchCitySuggestions_guard_witness :
  (exists w' : world,
     fetchCitySuggestions "Lo" (boot Sample.blank None) = Returns tt w' /\
     in_flight w' = [] /\ calls w' = 0 /\
     suggestions (document w') = [] /\ suggestions_hidden (document w') = true) /\
  (exists w' : world,
     fetchCitySuggestions "Lon" (boot Sample.blank None) = Returns tt w' /\
     in_flight w' = [{| req_id := 0; req_prompt := suggestions_prompt "Lon";
                        req_then := Suggestions |}] /\
     calls w' = 1).
Proof.
  split.
  - apply (proj1 (fetchCitySuggestions_guard (boot Sample.blank None) "Lo")). simpl. lia.
  - apply (proj2 (fetchCitySuggestions_guard (boot Sample.blank None) "Lon")). simpl. lia.
Defined.

(* ===================================================================== *)
(** * fetchWeather, once the backend has answered *)
(* ===================================================================== *)

Lemma after_bind {A C : Type} (P : world -> Prop) (Q : A -> world -> Prop)
    (R : C -> world -> Prop) (m : M A) (k : A -> M C) :
  after P m Q -> (forall a, after (Q a) (k a) R) -> after P (bind m k) R.
Proof.
  intros Hm Hk w HP. unfold bind. specialize (Hm w HP).
  destruct (m w) as [a w'| e w'|]; auto. apply Hk, Hm.
Qed.

Lemma after_keeps {A B : Type} (g : world -> B) (X : B -> Prop) (m : M A) :
  keeps g m -> after (fun w => X (g w)) m (fun _ w => X (g w)).
Proof.
  intros Hk w HX. specialize (Hk w). destruct (m w); auto. now rewrite Hk.
Qed.

(** [before_first_comma s] has no comma, and [s] goes on after it with a
    comma or not at all. *)
Lemma before_first_comma_spec (s : string) :
  includes (View.before_first_comma s) "," = false /\
  exists rest : string,
    s = (View.before_first_comma s ++ rest)%string /\
    (rest = EmptyString \/ exists r, rest = String "," r).
Proof.
  induction s as [|c s [IH1 (rest & IH2 & IH3)]]; simpl.
  - split; [reflexivity|]. exists EmptyString. auto.
  - destruct (Ascii.eqb c ",") eqn:E.
    + apply Ascii.eqb_eq in E. subst c. split; [reflexivity|].
      exists (String "," s). split; [reflexivity|]. right. now exists s.
    + split.
      * cbn [includes startsWith]. rewrite E. cbn. exact IH1.
      * exists rest. split; [simpl; f_equal; exact IH2 | exact IH3].
Qed.

Lemma hd_split_comma (s : string) :
  hd EmptyString (split "," s) = View.before_first_comma s.
Proof.
  induction s as [|c s IH]; simpl; [reflexivity|].
  destruct (Ascii.eqb c ","); [reflexivity|].
  destruct (split "," s); simpl in *; now rewrite <- IH.
Qed.

Lemma fetchWeather_try_names (city : string) (isAutoRefresh : bool) (r : response) :
  after (fun _ => True) (fetchWeather_try city isAutoRefresh r)
        (fun _ w => named_for city (named w)).
Proof.
  unfold fetchWeather_try.
  apply after_bind with (Q := fun _ _ => True); [intros w _; now destruct (await r w)|].
  intros text.
  apply after_bind with (Q := fun _ _ => True); [intros w _; now destruct (parse text w)|].
  intros weatherData.
  apply after_bind with (Q := fun _ w => currentCity w = city).
  { intros w _. reflexivity. }
  intros _.
  apply after_bind
    with (Q := fun _ w => currentCity w = city /\ star (document w) = is_favorite (favorites w) city).
  { intros w H. cbn. now rewrite H. }
  intros _.
  apply after_bind
    with (Q := fun _ w => currentCity w = city /\ star (document w) = is_favorite (favorites w) city).
  { intros w H. unfold prop. now destruct (get weatherData "current"). }
  intros current.
  unfold displayCurrentWeather at 1.
  apply after_bind with (Q := fun _ w => named_for city (named w)).
  - apply after_bind with (Q := fun _ w => named_for city (named w)).
    + intros w [H1 H2]. cbn. auto.
    + intros _. apply (after_keeps named (named_for city)). statement.
  - intros _. apply (after_keeps named (named_for city)).
    destruct isAutoRefresh; cbn [negb when]; statement.
Qed.

(** When the [try] block returns, [catch] is skipped and [finally] gives the
    button back to an explicit search. *)
Lemma fetchWeather_then_of_try (city : string) (isAutoRefresh : bool) (r : response)
    (w w1 : world) :
  fetchWeather_try city isAutoRefresh r w = Returns tt w1 ->
  fetchWeather_then city isAutoRefresh r w
  = Returns tt (if isAutoRefresh then w1
                else set_document
                       (set_search_btn {| searching := false;
                                          loading := loading (search_btn (document w1));
                                          disabled := false |} (document w1)) w1).
Proof.
  intros H. unfold fetchWeather_then, try_finally, try_catch. rewrite H.
  destruct isAutoRefresh; reflexivity.
Qed.

(** C10.  When [fetchWeather(city)] succeeds, the name on the weather card
    is the part of the query before its first comma, trimmed, while
    [currentCity] is the whole query and the star is the membership of the
    whole query in the favorites. *)
Theorem fetchWeather_names (w w1 : world) (city : string) (isAutoRefresh : bool)
    (r : response) :
  fetchWeather_try city isAutoRefresh r w = Returns tt w1 ->
  exists w' : world,
    fetchWeather_then city isAutoRefresh r w = Returns tt w' /\
    city_name (current (document w')) = trim (View.before_first_comma city) /\
    currentCity w' = city /\
    star (document w') = is_favorite (favorites w') city.
Proof.
  intros H. eexists. split; [apply (fetchWeather_then_of_try _ _ _ _ _ H)|].
  pose proof (fetchWeather_try_names city isAutoRefresh r w I) as N.
  rewrite H in N. unfold named_for, named, displayCity_of in N.
  rewrite hd_split_comma in N. destruct N as (N1 & N2 & N3).
  destruct isAutoRefresh; cbn; auto.
Qed.

(** "London, UK" is shown as London and kept whole in [currentCity]; a
    click on the star then makes "London, UK" the favorite. *)
Lemma fetchWeather_names_witness :
  exists w' : world,
    fetchWeather_then "London, UK" false (Resolved Sample.london) (boot Sample.blank None)
    = Returns tt w' /\
    city_name (current (document w')) = "London" /\
    currentCity w' = "London, UK" /\
    star (document w') = is_favorite (favorites w') "London, UK" /\
    exists w'' : world,
      on_favorite_click true w' = Returns tt w'' /\ favorites w'' = ["London, UK"].
Proof.
  assert (exists w1 : world,
             fetchWeather_try "London, UK" false (Resolved Sample.london)
               (boot Sample.blank None) = Returns tt w1) as [w1 Htry].
  { eexists. vm_compute. reflexivity. }
  destruct (fetchWeather_names (boot Sample.blank None) w1
              "London, UK" false (Resolved Sample.london) Htry)
    as (w' & Hrun & Hname & Hcity & Hstar).
  exists w'. split; [exact Hrun|]. split; [exact Hname|]. split; [exact Hcity|].
  split; [exact Hstar|].
  vm_compute in Hrun. injection Hrun as <-.
  eexists. split; vm_compute; reflexivity.
Defined.

(** One step of a sequence, when the first statement is known. *)
Lemma bind_returns {A C : Type} (m : M A) (k : A -> M C) (w : world) (a : A) (w' : world) :
  m w = Returns a w' -> bind m k w = k a w'.
Proof. intros H. unfold bind. now rewrite H. Qed.

Lemma bind_throws {A C : Type} (m : M A) (k : A -> M C) (w : world) (e : exn) (w' : world) :
  m w = Throws e w' -> bind m k w = Throws e w'.
Proof. intros H. unfold bind. now rewrite H. Qed.

(** C5.  What [fetchWeather] does when the answer parses but has no
    [current]: the [try] block throws at [current.description], after
    [currentCity = city] has run; the [catch] branch is taken and
    [currentCity] is the city of the failed fetch. *)
Theorem fetchWeather_catch_after_currentCity (w : world) (city : string)
    (isAutoRefresh : bool) (text : string) (v : value) :
  JSON_parse text = Some v -> get v "current" = Some Undefined ->
  exists w1 w2 : world,
    fetchWeather_try city isAutoRefresh (Resolved text) w = Throws TypeError w1 /\
    fetchWeather_then city isAutoRefresh (Resolved text) w = Returns tt w2 /\
    currentCity w2 = city /\
    (isAutoRefresh = false -> phase_of (shown (document w2)) = Some Error).
Proof.
  intros Hparse Hget.
  assert (fetchWeather_try city isAutoRefresh (Resolved text) w
          = Throws TypeError
              (set_document
                 (set_current
                    (set_city_name (displayCity_of city) (current (document w)))
                    (set_star (is_favorite (favorites w) city) (document w)))
                 (set_currentCity city w))) as Htry.
  { unfold fetchWeather_try.
    erewrite bind_returns by reflexivity.
    erewrite bind_returns by (unfold parse; rewrite Hparse; reflexivity).
    erewrite bind_returns by reflexivity.
    erewrite bind_returns by reflexivity.
    erewrite bind_returns by (unfold prop; rewrite Hget; reflexivity).
    erewrite bind_throws; reflexivity. }
  unfold fetchWeather_then, try_finally, try_catch. rewrite Htry.
  destruct isAutoRefresh; eexists; eexists; (split; [reflexivity|]); cbn;
    (split; [reflexivity|]); split; auto; discriminate.
Qed.

(** London is shown; the answer to a search for Paris is the empty object:
    the search fails, the error is shown, and [currentCity] is Paris. *)
Lemma fetchWeather_catch_after_currentCity_witness :
  currentCity (Sample.world_after Sample.showing_london) = "London" /\
  exists w1 w2 : world,
    fetchWeather_try "Paris" false (Resolved "{}") (Sample.world_after Sample.showing_london)
    = Throws TypeError w1 /\
    fetchWeather_then "Paris" false (Resolved "{}") (Sample.world_after Sample.showing_london)
    = Returns tt w2 /\
    currentCity w2 = "Paris" /\
    (false = false -> phase_of (shown (document w2)) = Some Error).
Proof.
  split; [reflexivity|].
  apply (fetchWeather_catch_after_currentCity
           (Sample.world_after Sample.showing_london) "Paris" false "{}" (Obj []));
    reflexivity.
Defined.

(* ===================================================================== *)
(** * Well-shaped answers are drawn as they are *)
(* ===================================================================== *)

Ltac known_props :=
  unfold prop;
  repeat match goal with H : get _ _ = Some _ |- _ => rewrite H end;
  reflexivity.

Ltac step := erewrite bind_returns by (first [reflexivity | known_props]).

Lemma day_of_gets (v : value) (d : Schema.day) :
  Schema.day_of v = Some d ->
  get v "day" = Some (Str (Schema.day_name d)) /\
  get v "temp_high" = Some (Num (Finite (Schema.temp_high d))) /\
  get v "temp_low" = Some (Num (Finite (Schema.temp_low d))) /\
  get v "description" = Some (Str (Schema.day_description d)).
Proof.
  unfold Schema.day_of, Schema.number_at, Schema.string_at. intros H.
  repeat break_match_hyp. injection H as <-. subst. simpl. repeat split; congruence.
Qed.

Lemma report_of_gets (v : value) (rep : Schema.report) :
  Schema.report_of v = Some rep ->
  exists (c : value) (l : list value),
    get v "current" = Some c /\ get v "forecast" = Some (Arr l) /\
    Schema.current_of c = Some (Schema.now rep) /\
    Schema.days_of l = Some (Schema.forecast rep).
Proof.
  unfold Schema.report_of. intros H.
  repeat break_match_hyp. injection H as <-. subst. eexists. eexists.
  repeat split; eauto.
Qed.

Lemma displayCurrentWeather_shaped (city : string) (v : value) (c : Schema.current)
    (w : world) :
  Schema.current_of v = Some c ->
  displayCurrentWeather city v w
  = Returns tt (set_document (set_current (View.card_of city c) (document w)) w).
Proof.
  intros H. destruct (current_of_gets v c H) as (Ht & Hh & Hw & Hd).
  unfold displayCurrentWeather. do 16 step.
  rewrite (displayWeatherAlerts_shaped v c _ H). reflexivity.
Qed.

Lemma displayForecast_card_shaped (v : value) (d : Schema.day) (w : world) :
  Schema.day_of v = Some d ->
  displayForecast_card v w
  = Returns tt
      (set_document
         (set_forecast_cards (forecast_cards (document w) ++ [View.forecast_card_of d])
            (document w)) w).
Proof.
  intros H. destruct (day_of_gets v d H) as (Hn & Hhi & Hlo & Hd).
  unfold displayForecast_card. do 8 step. reflexivity.
Qed.

Lemma forEach_days (l : list value) (ds : list Schema.day) (w : world) :
  Schema.days_of l = Some ds ->
  forEach l displayForecast_card w
  = Returns tt
      (set_document
         (set_forecast_cards (forecast_cards (document w) ++ map View.forecast_card_of ds)
            (document w)) w).
Proof.
  revert ds w. induction l as [|v l IH]; intros ds w H; simpl in H.
  - injection H as <-. destruct w as [? ? ? p ? ? ? ?]. destruct p. cbn.
    now rewrite app_nil_r.
  - destruct (Schema.day_of v) as [d|] eqn:Hd; [|discriminate].
    destruct (Schema.days_of l) as [ds'|] eqn:Hds; [|discriminate].
    injection H as <-. cbn [forEach].
    erewrite bind_returns by (apply displayForecast_card_shaped; exact Hd).
    rewrite (IH ds' _ eq_refl). cbn. now rewrite <- app_assoc.
Qed.

Lemma days_of_firstn (n : nat) (l : list value) (ds : list Schema.day) :
  Schema.days_of l = Some ds -> Schema.days_of (firstn n l) = Some (firstn n ds).
Proof.
  revert l ds. induction n as [|n IH]; intros l ds H; [reflexivity|].
  destruct l as [|v l]; simpl in H.
  - now injection H as <-.
  - destruct (Schema.day_of v) as [d|] eqn:Hd; [|discriminate].
    destruct (Schema.days_of l) as [ds'|] eqn:Hds; [|discriminate].
    injection H as <-. simpl. now rewrite Hd, (IH l ds' Hds).
Qed.

Lemma displayForecast_shaped (l : list value) (ds : list Schema.day) (w : world) :
  Schema.days_of l = Some ds ->
  displayForecast (Arr l) w
  = Returns tt
      (set_document
         (set_forecast_cards (map View.forecast_card_of (firstn 5 ds)) (document w)) w).
Proof.
  intros H. unfold displayForecast. do 2 step.
  rewrite (forEach_days _ _ _ (days_of_firstn 5 l ds H)). reflexivity.
Qed.

(** The [try] block on a well-shaped answer: the report is drawn, and an
    explicit search then shows the content. *)
Lemma fetchWeather_try_shaped (city : string) (isAutoRefresh : bool) (text : string)
    (v : value) (rep : Schema.report) (w : world) :
  JSON_parse text = Some v -> Schema.report_of v = Some rep ->
  fetchWeather_try city isAutoRefresh (Resolved text) w
  = when (negb isAutoRefresh) showContent (View.drawn city rep w).
Proof.
  intros Hparse Hshape.
  destruct (report_of_gets v rep Hshape) as (c & l & Hc & Hl & Hnow & Hdays).
  unfold fetchWeather_try. step.
  erewrite bind_returns by (unfold parse; rewrite Hparse; reflexivity).
  do 3 step.
  erewrite bind_returns by (apply displayCurrentWeather_shaped; exact Hnow).
  step.
  erewrite bind_returns by (apply displayForecast_shaped; exact Hdays).
  reflexivity.
Qed.

(** An answer that cannot be used: the [try] block throws before it has
    written anything. *)
Lemma fetchWeather_try_unusable (city : string) (isAutoRefresh : bool) (r : response)
    (w : world) :
  r = Rejected \/ (exists text, r = Resolved text /\ JSON_parse text = None) ->
  exists e : exn, fetchWeather_try city isAutoRefresh r w = Throws e w.
Proof.
  intros [-> | (text & -> & H)]; unfold fetchWeather_try.
  - exists NetworkError. erewrite bind_throws; reflexivity.
  - exists SyntaxError. step.
    erewrite bind_throws by (unfold parse; rewrite H; reflexivity). reflexivity.
Qed.

(** What it leaves of an auto-refresh: nothing. *)
Lemma fetchWeather_then_auto_unusable (city : string) (r : response) (w : world) :
  r = Rejected \/ (exists text, r = Resolved text /\ JSON_parse text = None) ->
  fetchWeather_then city true r w = Returns tt w.
Proof.
  intros H. destruct (fetchWeather_try_unusable city true r w H) as [e He].
  unfold fetchWeather_then, try_finally, try_catch. rewrite He. reflexivity.
Qed.

Lemma settles_fetchWeather (city : string) (isAutoRefresh : bool) :
  settles (fetchWeather city isAutoRefresh).
Proof. unfold fetchWeather. statement. Qed.

(** The answer of an explicit search, well-shaped: what the world is then. *)
Lemma fetchWeather_then_explicit_shaped (city text : string) (v : value)
    (rep : Schema.report) (w : world) :
  JSON_parse text = Some v -> Schema.report_of v = Some rep ->
  exists w' : world,
    fetchWeather_then city false (Resolved text) w = Returns tt w' /\
    currentCity w' = city /\
    current (document w') = View.card_of (displayCity_of city) (Schema.now rep) /\
    forecast_cards (document w')
    = map View.forecast_card_of (firstn 5 (Schema.forecast rep)) /\
    phase_of (shown (document w')) = Some Content /\
    disabled (search_btn (document w')) = false.
Proof.
  intros Hparse Hshape.
  pose proof (fetchWeather_try_shaped city false text v rep w Hparse Hshape) as Htry.
  cbn [negb when] in Htry.
  eexists. split.
  - apply fetchWeather_then_of_try. rewrite Htry. reflexivity.
  - cbn. auto.
Qed.

(** The answer of an auto-refresh, well-shaped. *)
Lemma fetchWeather_then_auto_shaped (city text : string) (v : value)
    (rep : Schema.report) (w : world) :
  JSON_parse text = Some v -> Schema.report_of v = Some rep ->
  fetchWeather_then city true (Resolved text) w = Returns tt (View.drawn city rep w).
Proof.
  intros Hparse Hshape.
  rewrite (fetchWeather_then_of_try city true (Resolved text) w (View.drawn city rep w));
    [reflexivity|].
  now rewrite (fetchWeather_try_shaped city true text v rep w Hparse Hshape).
Qed.

(* ===================================================================== *)
(** * Overlapping searches *)
(* ===================================================================== *)

(** C1, as the specification states it, fails.  Tokyo is searched by the
    button; while that request is in flight the user picks "Paris, France"
    from the suggestions; Paris is answered and shown; then Tokyo is
    answered: the page shows Tokyo and [currentCity] is Tokyo, not the
    city searched last. *)
Lemma older_answer_overwrites_newer_search :
  exists w9 w10 : world,
    run (boot Sample.blank None) (removelast Sample.tokyo_then_paris) = Some w9 /\
    currentCity w9 = "Paris, France" /\
    city_name (current (document w9)) = "Paris" /\
    map req_then (in_flight w9) = [WeatherFor "Tokyo" false] /\
    run (boot Sample.blank None) Sample.tokyo_then_paris = Some w10 /\
    currentCity w10 = "Tokyo" /\
    current (document w10) = View.card_of "Tokyo" (Schema.now Sample.tokyo_report) /\
    phase_of (shown (document w10)) = Some Content.
Proof.
  eexists. eexists.
  split; [vm_compute; reflexivity|].
  split; [reflexivity|]. split; [reflexivity|]. split; [reflexivity|].
  split; [vm_compute; reflexivity|].
  split; [reflexivity|]. split; [vm_compute; reflexivity|]. reflexivity.
Qed.

(** C1, amended.  Of two explicit searches that overlap, the one answered
    last is the one shown: when the answer for A, well-shaped, comes after
    the search for B was made and answered, [currentCity] is A and the page
    shows the report for A, as content.  No answer is compared with the
    search made last. *)
Theorem last_answer_wins (w : world) (cityA cityB : string) (rB : response)
    (textA : string) (vA : value) (repA : Schema.report) :
  JSON_parse textA = Some vA -> Schema.report_of vA = Some repA ->
  exists w1 w2 w3 w4 : world,
    fetchWeather cityA false w = Returns tt w1 /\
    fetchWeather cityB false w1 = Returns tt w2 /\
    fetchWeather_then cityB false rB w2 = Returns tt w3 /\
    fetchWeather_then cityA false (Resolved textA) w3 = Returns tt w4 /\
    currentCity w4 = cityA /\
    current (document w4) = View.card_of (displayCity_of cityA) (Schema.now repA) /\
    forecast_cards (document w4)
    = map View.forecast_card_of (firstn 5 (Schema.forecast repA)) /\
    phase_of (shown (document w4)) = Some Content.
Proof.
  intros Hparse Hshape.
  destruct (settles_fetchWeather cityA false w) as ([] & w1 & H1).
  destruct (settles_fetchWeather cityB false w1) as ([] & w2 & H2).
  destruct (settles_fetchWeather_then cityB false rB w2) as ([] & w3 & H3).
  destruct (fetchWeather_then_explicit_shaped cityA textA vA repA w3 Hparse Hshape)
    as (w4 & H4 & Hcity & Hcard & Hcards & Hphase & _).
  exists w1, w2, w3, w4. repeat split; assumption.
Qed.

(** London is shown; Tokyo is searched, then Paris; Paris is answered, then
    Tokyo: Tokyo is shown. *)
Lemma last_answer_wins_witness :
  exists w1 w2 w3 w4 : world,
    fetchWeather "Tokyo" false (Sample.world_after Sample.showing_london) = Returns tt w1 /\
    fetchWeather "Paris, France" false w1 = Returns tt w2 /\
    fetchWeather_then "Paris, France" false (Resolved Sample.paris) w2 = Returns tt w3 /\
    fetchWeather_then "Tokyo" false (Resolved Sample.tokyo) w3 = Returns tt w4 /\
    currentCity w4 = "Tokyo" /\
    current (document w4)
    = View.card_of (displayCity_of "Tokyo") (Schema.now Sample.tokyo_report) /\
    forecast_cards (document w4)
    = map View.forecast_card_of (firstn 5 (Schema.forecast Sample.tokyo_report)) /\
    phase_of (shown (document w4)) = Some Content.
Proof.
  eapply (last_answer_wins (Sample.world_after Sample.showing_london) "Tokyo"
            "Paris, France" (Resolved Sample.paris) Sample.tokyo _ Sample.tokyo_report).
  - vm_compute. reflexivity.
  - vm_compute. reflexivity.
Defined.

(* ===================================================================== *)
(** * Auto-refresh *)
(* ===================================================================== *)

(** C2, as the specification states it, fails.  The refresh fires while
    London is current; the user searches Tokyo and gets it; then the
    refresh is answered: the page shows London again and [currentCity] is
    London. *)
Lemma stale_refresh_overwrites_new_city :
  exists w w' : world,
    run (boot Sample.blank None) Sample.refresh_then_tokyo = Some w /\
    currentCity w = "Tokyo" /\
    city_name (current (document w)) = "Tokyo" /\
    map req_then (in_flight w) = [WeatherFor "London" true] /\
    step w (Settles 1 (Resolved Sample.london)) = Some w' /\
    currentCity w' = "London" /\
    current (document w') = View.card_of "London" (Schema.now Sample.london_report).
Proof.
  eexists. eexists.
  split; [vm_compute; reflexivity|].
  split; [reflexivity|]. split; [reflexivity|]. split; [reflexivity|].
  split; [vm_compute; reflexivity|].
  split; [reflexivity|]. vm_compute. reflexivity.
Qed.

Lemma on_refresh_asks_for_currentCity (w : world) :
  currentCity w <> EmptyString ->
  on_refresh w = fetchWeather (currentCity w) true w.
Proof.
  intros H. unfold on_refresh, bind, read.
  destruct (currentCity w); [congruence | reflexivity].
Qed.

(** C2, amended.  An auto-refresh asks for the city that is current when
    the interval fires, and its answer is applied when it comes, without a
    look at what [currentCity] has become: after an explicit search has
    made B current, the answer to a refresh started for A, well-shaped,
    makes A current again and shows the report for A.  The phase stays as
    it was. *)
Theorem stale_refresh_is_applied (w : world) (cityB textB : string) (vB : value)
    (repB : Schema.report) (textA : string) (vA : value) (repA : Schema.report) :
  currentCity w <> EmptyString ->
  JSON_parse textB = Some vB -> Schema.report_of vB = Some repB ->
  JSON_parse textA = Some vA -> Schema.report_of vA = Some repA ->
  exists w1 w2 w3 w4 : world,
    on_refresh w = Returns tt w1 /\
    in_flight w1
    = in_flight w ++ [{| req_id := calls w;
                         req_prompt := ("Provide the current weather and a 5-day forecast for "
                                          ++ currentCity w
                                          ++ ". Use Celsius for temperature.")%string;
                         req_then := WeatherFor (currentCity w) true |}] /\
    fetchWeather cityB false w1 = Returns tt w2 /\
    fetchWeather_then cityB false (Resolved textB) w2 = Returns tt w3 /\
    currentCity w3 = cityB /\
    fetchWeather_then (currentCity w) true (Resolved textA) w3 = Returns tt w4 /\
    currentCity w4 = currentCity w /\
    current (document w4)
    = View.card_of (displayCity_of (currentCity w)) (Schema.now repA) /\
    forecast_cards (document w4)
    = map View.forecast_card_of (firstn 5 (Schema.forecast repA)) /\
    shown (document w4) = shown (document w3).
Proof.
  intros Hcity HparseB HshapeB HparseA HshapeA.
  rewrite (on_refresh_asks_for_currentCity w Hcity).
  destruct (settles_fetchWeather (currentCity w) true w) as ([] & w1 & H1).
  assert (in_flight w1
          = in_flight w ++ [{| req_id := calls w;
                               req_prompt :=
                                 ("Provide the current weather and a 5-day forecast for "
                                    ++ currentCity w
                                    ++ ". Use Celsius for temperature.")%string;
                               req_then := WeatherFor (currentCity w) true |}]) as Hq.
  { cbn in H1. injection H1 as <-. reflexivity. }
  destruct (settles_fetchWeather cityB false w1) as ([] & w2 & H2).
  destruct (fetchWeather_then_explicit_shaped cityB textB vB repB w2 HparseB HshapeB)
    as (w3 & H3 & HcityB & _).
  exists w1, w2, w3, (View.drawn (currentCity w) repA w3).
  split; [exact H1|]. split; [exact Hq|].
  split; [exact H2|]. split; [exact H3|]. split; [exact HcityB|].
  split; [apply (fetchWeather_then_auto_shaped _ _ _ _ _ HparseA HshapeA)|].
  repeat split.
Qed.

(** London is shown and the refresh fires; Tokyo is searched and shown; the
    refresh is answered: London is shown. *)
Lemma stale_refresh_is_applied_witness :
  exists w1 w2 w3 w4 : world,
    on_refresh (Sample.world_after Sample.showing_london) = Returns tt w1 /\
    in_flight w1
    = [] ++ [{| req_id := 1;
                req_prompt := ("Provide the current weather and a 5-day forecast for "
                                 ++ "London" ++ ". Use Celsius for temperature.")%string;
                req_then := WeatherFor "London" true |}] /\
    fetchWeather "Tokyo" false w1 = Returns tt w2 /\
    fetchWeather_then "Tokyo" false (Resolved Sample.tokyo) w2 = Returns tt w3 /\
    currentCity w3 = "Tokyo" /\
    fetchWeather_then "London" true (Resolved Sample.london) w3 = Returns tt w4 /\
    currentCity w4 = "London" /\
    current (document w4)
    = View.card_of (displayCity_of "London") (Schema.now Sample.london_report) /\
    forecast_cards (document w4)
    = map View.forecast_card_of (firstn 5 (Schema.forecast Sample.london_report)) /\
    shown (document w4) = shown (document w3).
Proof.
  eapply (stale_refresh_is_applied (Sample.world_after Sample.showing_london)
            "Tokyo" Sample.tokyo _ Sample.tokyo_report
            Sample.london _ Sample.london_report).
  - discriminate.
  - vm_compute. reflexivity.
  - vm_compute. reflexivity.
  - vm_compute. reflexivity.
  - vm_compute. reflexivity.
Defined.

(** C3, as the specification states it, fails on two counts.  A refresh
    that succeeds writes more than the weather data: London being a
    favorite and Tokyo current, the answer to a refresh started for London
    changes [currentCity] and fills the star.  A refresh that fails is not
    always without effect: when the answer has a current weather and no
    forecast, the [try] block throws at [forecast.slice], after the card
    has been redrawn and the forecast emptied. *)
Lemma refresh_writes_beyond_the_weather :
  (exists w w' : world,
     run (boot Sample.blank None) Sample.favorite_refresh_then_tokyo = Some w /\
     currentCity w = "Tokyo" /\ star (document w) = false /\
     fetchWeather_try "London" true (Resolved Sample.london) w = Returns tt w' /\
     fetchWeather_then "London" true (Resolved Sample.london) w = Returns tt w' /\
     currentCity w' = "London" /\ star (document w') = true) /\
  (exists w w' : world,
     run (boot Sample.blank None) Sample.showing_london = Some w /\
     current_temp (current (document w)) = of_Z 12 /\
     List.length (forecast_cards (document w)) = 1 /\
     fetchWeather_try "London" true (Resolved Sample.no_forecast) w = Throws TypeError w' /\
     fetchWeather_then "London" true (Resolved Sample.no_forecast) w = Returns tt w' /\
     current_temp (current (document w')) = of_Z 31 /\
     List.length (forecast_cards (document w')) = 0).
Proof.
  split; eexists; eexists.
  - split; [vm_compute; reflexivity|].
    split; [reflexivity|]. split; [reflexivity|].
    split; [vm_compute; reflexivity|].
    split; [vm_compute; reflexivity|].
    split; reflexivity.
  - split; [vm_compute; reflexivity|].
    split; [reflexivity|]. split; [reflexivity|].
    split; [vm_compute; reflexivity|].
    split; [vm_compute; reflexivity|].
    split; reflexivity.
Qed.

Lemma fetchWeather_auto_only_asks (city : string) (w : world) :
  fetchWeather city true w
  = Returns tt
      (set_in_flight
         (in_flight w ++ [{| req_id := calls w;
                             req_prompt :=
                               ("Provide the current weather and a 5-day forecast for "
                                  ++ city ++ ". Use Celsius for temperature.")%string;
                             req_then := WeatherFor city true |}])
         (S (calls w)) w).
Proof. reflexivity. Qed.

(** C3, amended.  A call of [fetchWeather] in auto-refresh mode only makes
    its request: the page and the globals are as before.  Whatever the
    answer, the rest of the call returns and leaves the phase, the search
    button, the error message, the suggestions, the input, the favorites,
    the storage, the timer and the requests as they were: no loading
    state, no control disabled, no error shown.  When the [try] block
    succeeds, [currentCity] is the city asked for, the star tells whether
    that city is a favorite and the card bears its name; on a well-shaped
    report the world is the one where that report is drawn, and nothing
    else is changed.  When the backend rejects the request or its text does
    not parse, the world is left exactly as it was. *)
Theorem auto_refresh_frame (w : world) (city : string) (r : response) :
  (exists w0 : world,
     fetchWeather city true w = Returns tt w0 /\
     document w0 = document w /\ currentCity w0 = currentCity w /\
     favorites w0 = favorites w /\ localStorage w0 = localStorage w /\
     debounceTimer w0 = debounceTimer w) /\
  exists w' : world,
    fetchWeather_then city true r w = Returns tt w' /\
    View.beside_the_weather w' = View.beside_the_weather w /\
    (forall w1 : world,
       fetchWeather_try city true r w = Returns tt w1 ->
       w' = w1 /\ currentCity w' = city /\
       star (document w') = is_favorite (favorites w') city /\
       city_name (current (document w')) = displayCity_of city) /\
    (forall (text : string) (v : value) (rep : Schema.report),
       r = Resolved text -> JSON_parse text = Some v -> Schema.report_of v = Some rep ->
       w' = View.drawn city rep w) /\
    (r = Rejected \/ (exists text, r = Resolved text /\ JSON_parse text = None) ->
     w' = w).
Proof.
  split.
  - eexists. split; [apply fetchWeather_auto_only_asks|]. repeat split.
  - destruct (settles_keeps View.beside_the_weather (fetchWeather_then city true r) w
                (settles_fetchWeather_then city true r)
                (fetchWeather_then_auto_keeps city r)) as (w' & Hrun & Hframe).
    exists w'. split; [exact Hrun|]. split; [exact Hframe|]. split; [|split].
    + intros w1 Htry.
      rewrite (fetchWeather_then_of_try city true r w w1 Htry) in Hrun.
      injection Hrun as <-.
      pose proof (fetchWeather_try_names city true r w I) as N.
      rewrite Htry in N. unfold named_for, named in N. tauto.
    + intros text v rep -> Hparse Hshape.
      rewrite (fetchWeather_then_auto_shaped city text v rep w Hparse Hshape) in Hrun.
      now injection Hrun.
    + intros Hbad. rewrite (fetchWeather_then_auto_unusable city r w Hbad) in Hrun.
      now injection Hrun.
Qed.

(** London is shown.  A refresh answered with the report for Tokyo leaves
    the phase and the controls alone and keeps London current; a refresh
    the backend rejects changes nothing. *)
Lemma auto_refresh_frame_witness :
  (exists w' : world,
     fetchWeather_then "London" true (Resolved Sample.tokyo)
       (Sample.world_after Sample.showing_london) = Returns tt w' /\
     View.beside_the_weather w'
     = View.beside_the_weather (Sample.world_after Sample.showing_london) /\
     currentCity w' = "London" /\
     city_name (current (document w')) = displayCity_of "London") /\
  (exists w' : world,
     fetchWeather_then "London" true Rejected
       (Sample.world_after Sample.showing_london) = Returns tt w' /\
     w' = Sample.world_after Sample.showing_london).
Proof.
  split.
  - destruct (proj2 (auto_refresh_frame (Sample.world_after Sample.showing_london)
                       "London" (Resolved Sample.tokyo)))
      as (w' & Hrun & Hframe & Hgood & _ & _).
    exists w'. split; [exact Hrun|]. split; [exact Hframe|].
    destruct (Hgood (View.drawn "London" Sample.tokyo_report
                       (Sample.world_after Sample.showing_london)))
      as (_ & Hcity & _ & Hname).
    + vm_compute. reflexivity.
    + split; [exact Hcity | exact Hname].
  - destruct (proj2 (auto_refresh_frame (Sample.world_after Sample.showing_london)
                       "London" Rejected))
      as (w' & Hrun & _ & _ & _ & Hbad).
    exists w'. split; [exact Hrun|]. apply Hbad. left. reflexivity.
Defined.

(* ===================================================================== *)
(** * Suggestions that come late *)
(* ===================================================================== *)

(** C9, as the specification states it, fails.  The request for "Lon" is
    in flight when the user types on to "Lond", which starts a newer
    debounce cycle; the answer for "Lon" then comes and is rendered.  And
    when the newer cycle has made its request and got its answer, the
    answer for "Lon", coming last, replaces it. *)
Lemma late_suggestions_are_rendered :
  exists w w1 w2 : world,
    run (boot Sample.blank None) Sample.lon_then_lond = Some w /\
    city_input (document w) = "Lond" /\ debounceTimer w = Some "Lond" /\
    step w (Settles 1 (Resolved Sample.for_lon)) = Some w1 /\
    suggestions (document w1) = [Str "Lonavala, India"; Str "Long Beach, USA"] /\
    suggestions_hidden (document w1) = false /\
    run w [DebounceFires; Settles 2 (Resolved Sample.for_lond);
           Settles 1 (Resolved Sample.for_lon)] = Some w2 /\
    city_input (document w2) = "Lond" /\
    suggestions (document w2) = [Str "Lonavala, India"; Str "Long Beach, USA"] /\
    suggestions_hidden (document w2) = false.
Proof.
  eexists. eexists. eexists.
  split; [vm_compute; reflexivity|].
  split; [reflexivity|]. split; [reflexivity|].
  split; [vm_compute; reflexivity|].
  split; [reflexivity|]. split; [reflexivity|].
  split; [vm_compute; reflexivity|].
  split; [reflexivity|]. split; reflexivity.
Qed.

Lemma forEach_suggestions (l : list string) (w : world) :
  forEach (map Str l) displaySuggestions_item w
  = Returns tt
      (set_document
         (set_suggestions (suggestions (document w) ++ map Str l) (document w)) w).
Proof.
  revert w. induction l as [|x l IH]; intros w.
  - destruct w as [? ? ? p ? ? ? ?]. destruct p. cbn. now rewrite app_nil_r.
  - cbn [map forEach]. erewrite bind_returns by reflexivity.
    rewrite IH. cbn. now rewrite <- app_assoc.
Qed.

(** An answer that is a non-empty array of strings is shown, whatever the
    world it comes to. *)
Lemma fetchCitySuggestions_then_strings (text : string) (l : list string) (w : world) :
  JSON_parse text = Some (Arr (map Str l)) -> l <> [] ->
  fetchCitySuggestions_then (Resolved text) w
  = Returns tt
      (set_document
         (set_search_btn {| searching := searching (search_btn (document w));
                            loading := false;
                            disabled := disabled (search_btn (document w)) |}
            (set_suggestions_hidden false (set_suggestions (map Str l) (document w)))) w).
Proof.
  intros Hparse Hne.
  assert (displaySuggestions (Arr (map Str l)) w
          = Returns tt
              (set_document
                 (set_suggestions_hidden false (set_suggestions (map Str l) (document w)))
                 w)) as Hshow.
  { unfold displaySuggestions. do 2 step.
    destruct l as [|x l]; [congruence|]. cbn [map List.length Nat.eqb].
    erewrite bind_returns by apply (forEach_suggestions (x :: l)). reflexivity. }
  unfold fetchCitySuggestions_then, try_finally, try_catch.
  erewrite bind_returns by reflexivity.
  erewrite bind_returns by (unfold parse; rewrite Hparse; reflexivity).
  rewrite Hshow. reflexivity.
Qed.

(** C9, amended.  The debounce replaces the pending timer and nothing
    else: a request already made stays in flight when the input changes.
    When its answer comes, a non-empty array of strings, it is rendered
    into the suggestion box and the box is shown, the newer debounce cycle
    still pending: no answer is compared with the latest cycle. *)
Theorem late_suggestions_shown (w : world) (query newer text : string) (l : list string) :
  3 <= String.length query ->
  JSON_parse text = Some (Arr (map Str l)) -> l <> [] ->
  exists w1 w2 w3 : world,
    fetchCitySuggestions query w = Returns tt w1 /\
    on_input newer w1 = Returns tt w2 /\
    debounceTimer w2 = Some (trim newer) /\
    in_flight w2 = in_flight w ++ [{| req_id := calls w;
                                      req_prompt := suggestions_prompt query;
                                      req_then := Suggestions |}] /\
    fetchCitySuggestions_then (Resolved text) w2 = Returns tt w3 /\
    suggestions (document w3) = map Str l /\
    suggestions_hidden (document w3) = false /\
    debounceTimer w3 = Some (trim newer) /\
    city_input (document w3) = newer.
Proof.
  intros Hlen Hparse Hne.
  eexists. eexists. eexists.
  split.
  { unfold fetchCitySuggestions. apply Nat.ltb_ge in Hlen. rewrite Hlen. cbn. reflexivity. }
  split; [cbn; reflexivity|]. split; [reflexivity|]. split; [reflexivity|].
  split; [apply (fetchCitySuggestions_then_strings text l _ Hparse Hne)|].
  repeat split.
Qed.

(** "Lon" is asked; the user types on to "Lond"; the answer for "Lon" is
    shown. *)
Lemma late_suggestions_shown_witness :
  exists w1 w2 w3 : world,
    fetchCitySuggestions "Lon" (Sample.world_after Sample.showing_london) = Returns tt w1 /\
    on_input "Lond" w1 = Returns tt w2 /\
    debounceTimer w2 = Some (trim "Lond") /\
    in_flight w2 = [] ++ [{| req_id := 1; req_prompt := suggestions_prompt "Lon";
                             req_then := Suggestions |}] /\
    fetchCitySuggestions_then (Resolved Sample.for_lon) w2 = Returns tt w3 /\
    suggestions (document w3) = map Str ["Lonavala, India"; "Long Beach, USA"] /\
    suggestions_hidden (document w3) = false /\
    debounceTimer w3 = Some (trim "Lond") /\
    city_input (document w3) = "Lond".
Proof.
  apply (late_suggestions_shown (Sample.world_after Sample.showing_london)
           "Lon" "Lond" Sample.for_lon ["Lonavala, India"; "Long Beach, USA"]).
  - simpl. lia.
  - vm_compute. reflexivity.
  - discriminate.
Defined.

(* ===================================================================== *)
(** * More of index.tsx: the icon *)
(* ===================================================================== *)

(** X1.  [getWeatherIcon] looks for its keywords in a fixed order, letter
    case apart: the picture is the sun exactly when the description
    mentions "clear"; failing that the cloud exactly when it mentions
    "cloud"; then rain; then "storm" or "thunder"; then snow; then "mist"
    or "fog"; and the globe exactly when it mentions none of them.  The
    animation and background classes are those of the picture. *)
Theorem getWeatherIcon_order (d : string) :
  let l := getWeatherIcon d in
  let clear := View.mentions d "clear" in
  let cloud := View.mentions d "cloud" in
  let rain := View.mentions d "rain" in
  let storm := View.mentions d "storm" \/ View.mentions d "thunder" in
  let snow := View.mentions d "snow" in
  let mist := View.mentions d "mist" \/ View.mentions d "fog" in
  (icon l = Sun <-> clear) /\
  (icon l = Cloud <-> ~ clear /\ cloud) /\
  (icon l = RainCloud <-> ~ clear /\ ~ cloud /\ rain) /\
  (icon l = ThunderCloud <-> ~ clear /\ ~ cloud /\ ~ rain /\ storm) /\
  (icon l = Snowflake <-> ~ clear /\ ~ cloud /\ ~ rain /\ ~ storm /\ snow) /\
  (icon l = Fog <-> ~ clear /\ ~ cloud /\ ~ rain /\ ~ storm /\ ~ snow /\ mist) /\
  (icon l = Globe <-> ~ clear /\ ~ cloud /\ ~ rain /\ ~ storm /\ ~ snow /\ ~ mist) /\
  (animationClass l, backgroundClass l) = classes_of (icon l).
Proof.
  cbv zeta.
  rewrite <- !(includes_lower_iff d).
  change (toLowerCase "clear") with "clear". change (toLowerCase "cloud") with "cloud".
  change (toLowerCase "rain") with "rain". change (toLowerCase "storm") with "storm".
  change (toLowerCase "thunder") with "thunder". change (toLowerCase "snow") with "snow".
  change (toLowerCase "mist") with "mist". change (toLowerCase "fog") with "fog".
  unfold getWeatherIcon. cbv zeta.
  destruct (includes (toLowerCase d) "clear");
    [cbn; repeat split; intros; try discriminate; intuition congruence|].
  destruct (includes (toLowerCase d) "cloud");
    [cbn; repeat split; intros; try discriminate; intuition congruence|].
  destruct (includes (toLowerCase d) "rain");
    [cbn; repeat split; intros; try discriminate; intuition congruence|].
  destruct (includes (toLowerCase d) "storm"), (includes (toLowerCase d) "thunder");
    try (cbn; repeat split; intros; try discriminate; intuition congruence).
  destruct (includes (toLowerCase d) "snow");
    [cbn; repeat split; intros; try discriminate; intuition congruence|].
  destruct (includes (toLowerCase d) "mist"), (includes (toLowerCase d) "fog");
    cbn; repeat split; intros; try discriminate; intuition congruence.
Qed.

(* ===================================================================== *)
(** * More of index.tsx: the favorites *)
(* ===================================================================== *)

(** Projections of updated records. *)
Ltac fields :=
  cbn [favorites debounceTimer currentCity document localStorage in_flight calls
       storage_takes
       set_favorites set_debounceTimer set_currentCity set_document set_localStorage
       set_in_flight set_storage_takes
       city_input search_btn shown error_message suggestions_hidden suggestions
       favorites_list star current forecast_cards
       set_city_input set_search_btn set_shown set_error_message set_suggestions_hidden
       set_suggestions set_favorites_list set_star set_current set_forecast_cards
       searching loading disabled
       loader_hidden error_hidden favorites_hidden current_hidden forecast_hidden].

Lemma is_favorite_added (favs : list string) (city : string) :
  is_favorite (favs ++ [city]) city = true.
Proof.
  unfold is_favorite. rewrite existsb_app. cbn.
  now rewrite String.eqb_refl, orb_true_r.
Qed.

Lemma forEach_favorites (l : list string) (w : world) :
  forEach l renderFavorites_item w
  = Returns tt
      (set_document
         (set_favorites_list (favorites_list (document w) ++ l) (document w)) w).
Proof.
  revert w. induction l as [|x l IH]; intros w.
  - destruct w as [? ? ? p ? ? ?]. destruct p. cbn. now rewrite app_nil_r.
  - cbn [forEach]. erewrite bind_returns by reflexivity.
    rewrite IH. cbn. now rewrite <- app_assoc.
Qed.

(** [renderFavorites] draws the list as it is and shows the section exactly
    when the list is not empty. *)
Lemma renderFavorites_draws (w : world) :
  renderFavorites w
  = Returns tt
      (set_document
         (set_favorites_list (favorites w)
            (set_shown {| loader_hidden := loader_hidden (shown (document w));
                          error_hidden := error_hidden (shown (document w));
                          favorites_hidden := negb (Nat.ltb 0 (List.length (favorites w)));
                          current_hidden := current_hidden (shown (document w));
                          forecast_hidden := forecast_hidden (shown (document w)) |}
               (document w))) w).
Proof.
  unfold renderFavorites. do 2 step.
  destruct w as [favs ? ? p ? ? ? ?]. cbn [favorites set_document document].
  destruct favs as [|x l]; cbn [List.length Nat.ltb Nat.leb negb].
  - reflexivity.
  - step. rewrite forEach_favorites. reflexivity.
Qed.

Lemma saveFavorites_taken (w : world) :
  storage_takes w (JSON_stringify (favorites w)) = true ->
  saveFavorites w = Returns tt (set_localStorage (Some (JSON_stringify (favorites w))) w).
Proof. intros H. unfold saveFavorites, setItem, bind, read. now rewrite H. Qed.

Lemma saveFavorites_refused (w : world) :
  storage_takes w (JSON_stringify (favorites w)) = false ->
  saveFavorites w = Throws QuotaExceededError w.
Proof. intros H. unfold saveFavorites, setItem, bind, read. now rewrite H. Qed.

(** What a mutation of the list ends with: save, render, update the star,
    when the storage takes the list; and when it does not, the exception of
    [setItem], before anything is rendered. *)
Lemma favorites_written (l : list string) (w : world) :
  storage_takes w (JSON_stringify l) = true ->
  (write (set_favorites l) ;; saveFavorites ;; renderFavorites ;; updateFavoriteButton) w
  = Returns tt (written l w).
Proof.
  intros H. step. erewrite bind_returns by (apply saveFavorites_taken; exact H).
  erewrite bind_returns by apply renderFavorites_draws. reflexivity.
Qed.

Lemma favorites_refused (l : list string) (w : world) :
  storage_takes w (JSON_stringify l) = false ->
  (write (set_favorites l) ;; saveFavorites ;; renderFavorites ;; updateFavoriteButton) w
  = Throws QuotaExceededError (set_favorites l w).
Proof.
  intros H. step. now erewrite bind_throws by (apply saveFavorites_refused; exact H).
Qed.

Lemma addFavorite_new (cityToAdd : string) (w : world) :
  is_favorite (favorites w) cityToAdd = false ->
  addFavorite cityToAdd w
  = (write (set_favorites (favorites w ++ [cityToAdd])) ;; saveFavorites ;;
     renderFavorites ;; updateFavoriteButton) w.
Proof. intros H. unfold addFavorite. step. rewrite H. reflexivity. Qed.

Lemma addFavorite_known (cityToAdd : string) (w : world) :
  is_favorite (favorites w) cityToAdd = true -> addFavorite cityToAdd w = Returns tt w.
Proof. intros H. unfold addFavorite. step. rewrite H. reflexivity. Qed.

Lemma removeFavorite_confirmed (cityToRemove : string) (w : world) :
  removeFavorite cityToRemove true w
  = (write (set_favorites
              (filter (fun city => negb (same_city city cityToRemove)) (favorites w))) ;;
     saveFavorites ;; renderFavorites ;; updateFavoriteButton) w.
Proof. unfold removeFavorite. step. reflexivity. Qed.

Lemma is_favorite_existsb (favs : list string) (name : string) :
  is_favorite favs name = existsb (fun city => same_city city name) favs.
Proof. reflexivity. Qed.

Lemma is_favorite_filtered (favs : list string) (name : string) :
  is_favorite (filter (fun city => negb (same_city city name)) favs) name = false.
Proof.
  rewrite is_favorite_existsb. induction favs as [|x l IH]; [reflexivity|].
  cbn [filter]. destruct (same_city x name) eqn:E; cbn [negb]; [exact IH|].
  cbn [existsb]. now rewrite E, IH.
Qed.

Lemma filter_not_favorite (favs : list string) (name : string) :
  is_favorite favs name = false ->
  filter (fun city => negb (same_city city name)) favs = favs.
Proof.
  rewrite is_favorite_existsb. induction favs as [|x l IH]; [reflexivity|].
  cbn [existsb filter]. intros H. apply orb_false_elim in H as [H1 H2].
  now rewrite H1, (IH H2).
Qed.

(** X2.  [removeFavorite] does nothing when the user declines.  When the
    user confirms, every entry whose lowercase form is that of the city is
    taken out of the list and the others stay, in their order: the city is
    no longer a favorite, and a list the city was not in is as it was.
    Then, when the storage takes the list, the list is written to it and
    rendered, and the star is brought up to date.  When [setItem] throws,
    [removeFavorite] throws: the list has changed, and the storage, the
    page and the star are as they were. *)
Theorem removeFavorite_removes (w : world) (cityToRemove : string) :
  let l := filter (fun city => negb (same_city city cityToRemove)) (favorites w) in
  removeFavorite cityToRemove false w = Returns tt w /\
  is_favorite l cityToRemove = false /\
  (is_favorite (favorites w) cityToRemove = false -> l = favorites w) /\
  (storage_takes w (JSON_stringify l) = true ->
   exists w' : world,
     removeFavorite cityToRemove true w = Returns tt w' /\
     favorites w' = l /\
     localStorage w' = Some (JSON_stringify l) /\
     favorites_list (document w') = l /\
     star (document w') = is_favorite l (currentCity w') /\
     currentCity w' = currentCity w) /\
  (storage_takes w (JSON_stringify l) = false ->
   exists w' : world,
     removeFavorite cityToRemove true w = Throws QuotaExceededError w' /\
     favorites w' = l /\
     localStorage w' = localStorage w /\
     document w' = document w /\
     currentCity w' = currentCity w).
Proof.
  intros l. split; [reflexivity|].
  split; [apply is_favorite_filtered|].
  split; [apply filter_not_favorite|].
  split; intros H; eexists; (split; [rewrite removeFavorite_confirmed|]).
  - apply favorites_written. exact H.
  - unfold written. fields. repeat split.
  - apply favorites_refused. exact H.
  - fields. repeat split.
Qed.

(** Paris and Rome are favorites.  Removing "PARIS" leaves Rome, in the list
    and in the storage; over a storage that takes no write it leaves Rome
    in the list and the storage empty. *)
Lemma removeFavorite_removes_witness :
  (exists w' : world,
     removeFavorite "PARIS" true (set_favorites ["Paris"; "Rome"] (boot Sample.blank None))
     = Returns tt w' /\
     favorites w' = ["Rome"] /\ localStorage w' = Some (JSON_stringify ["Rome"])) /\
  (exists w' : world,
     removeFavorite "PARIS" true
       (set_storage_takes (fun _ => false)
          (set_favorites ["Paris"; "Rome"] (boot Sample.blank None)))
     = Throws QuotaExceededError w' /\
     favorites w' = ["Rome"] /\ localStorage w' = None).
Proof.
  split.
  - destruct (removeFavorite_removes
                (set_favorites ["Paris"; "Rome"] (boot Sample.blank None)) "PARIS")
      as (_ & _ & _ & Htaken & _).
    destruct (Htaken eq_refl) as (w' & Hrun & Hfavs & Hstored & _).
    exists w'. split; [exact Hrun | split; [exact Hfavs | exact Hstored]].
  - destruct (removeFavorite_removes
                (set_storage_takes (fun _ => false)
                   (set_favorites ["Paris"; "Rome"] (boot Sample.blank None))) "PARIS")
      as (_ & _ & _ & _ & Hrefused).
    destruct (Hrefused eq_refl) as (w' & Hrun & Hfavs & Hstored & _).
    exists w'. split; [exact Hrun | split; [exact Hfavs | exact Hstored]].
Defined.

(** X3.  When the storage takes both writes, adding a city that is not a
    favorite and removing it again gives back the list as it was, in the
    globals, in the storage and on the page. *)
Theorem add_then_remove (w : world) (city : string) :
  is_favorite (favorites w) city = false ->
  storage_takes w (JSON_stringify (favorites w ++ [city])) = true ->
  storage_takes w (JSON_stringify (favorites w)) = true ->
  exists w1 w2 : world,
    addFavorite city w = Returns tt w1 /\
    is_favorite (favorites w1) city = true /\
    removeFavorite city true w1 = Returns tt w2 /\
    favorites w2 = favorites w /\
    localStorage w2 = Some (JSON_stringify (favorites w)) /\
    favorites_list (document w2) = favorites w.
Proof.
  intros H Hadd Hremove. eexists. eexists. split.
  { rewrite (addFavorite_new city w H). apply favorites_written. exact Hadd. }
  assert (filter (fun c => negb (same_city c city)) (favorites w ++ [city]) = favorites w)
    as Hfilter.
  { rewrite filter_app, (filter_not_favorite _ _ H). cbn.
    unfold same_city. rewrite String.eqb_refl. cbn. apply app_nil_r. }
  split; [unfold written; fields; apply is_favorite_added|].
  split.
  { rewrite removeFavorite_confirmed. apply favorites_written.
    unfold written. fields. rewrite Hfilter. exact Hremove. }
  unfold written. fields. rewrite Hfilter. repeat split.
Qed.

Lemma add_then_remove_witness :
  exists w1 w2 : world,
    addFavorite "Rome" (set_favorites ["Paris"] (boot Sample.blank None)) = Returns tt w1 /\
    is_favorite (favorites w1) "Rome" = true /\
    removeFavorite "Rome" true w1 = Returns tt w2 /\
    favorites w2 = ["Paris"] /\
    localStorage w2 = Some (JSON_stringify ["Paris"]) /\
    favorites_list (document w2) = ["Paris"].
Proof.
  apply (add_then_remove (set_favorites ["Paris"] (boot Sample.blank None)) "Rome");
    reflexivity.
Defined.

(** X4.  A click on the star, confirmed where it has to be, always goes
    through and toggles the current city in the list of favorites: the
    city is a favorite afterwards exactly when it was not before, and
    [currentCity] is as it was.  When the storage takes the new list, the
    listener returns, the list is stored and rendered and the star says
    what the list says.  When [setItem] throws, the listener throws: the
    list has changed, and the star, the storage and the rendered list are
    as they were.  When the user declines the removal nothing changes.
    The listener of the document, which a click may reach as well, touches
    none of this. *)
Theorem on_favorite_click_toggles (w : world) :
  (exists w' : world,
     step w (ClickStar true) = Some w' /\
     is_favorite (favorites w') (currentCity w')
     = negb (is_favorite (favorites w) (currentCity w)) /\
     currentCity w' = currentCity w /\
     (storage_takes w (JSON_stringify (favorites w')) = true ->
      on_favorite_click true w = Returns tt w' /\
      star (document w') = is_favorite (favorites w') (currentCity w') /\
      localStorage w' = Some (JSON_stringify (favorites w')) /\
      favorites_list (document w') = favorites w') /\
     (storage_takes w (JSON_stringify (favorites w')) = false ->
      on_favorite_click true w = Throws QuotaExceededError w' /\
      star (document w') = star (document w) /\
      localStorage w' = localStorage w /\
      favorites_list (document w') = favorites_list (document w))) /\
  (is_favorite (favorites w) (currentCity w) = true ->
   step w (ClickStar false) = Some w) /\
  (forall x : world,
     exists x' : world, step x ClickOutside = Some x' /\ starred x' = starred x).
Proof.
  assert (forall l : list string,
             is_favorite l (currentCity w) = negb (is_favorite (favorites w) (currentCity w)) ->
             (write (set_favorites l) ;; saveFavorites ;; renderFavorites ;;
              updateFavoriteButton) w = on_favorite_click true w ->
             exists w' : world,
               step w (ClickStar true) = Some w' /\
               is_favorite (favorites w') (currentCity w')
               = negb (is_favorite (favorites w) (currentCity w)) /\
               currentCity w' = currentCity w /\
               (storage_takes w (JSON_stringify (favorites w')) = true ->
                on_favorite_click true w = Returns tt w' /\
                star (document w') = is_favorite (favorites w') (currentCity w') /\
                localStorage w' = Some (JSON_stringify (favorites w')) /\
                favorites_list (document w') = favorites w') /\
               (storage_takes w (JSON_stringify (favorites w')) = false ->
                on_favorite_click true w = Throws QuotaExceededError w' /\
                star (document w') = star (document w) /\
                localStorage w' = localStorage w /\
                favorites_list (document w') = favorites_list (document w))) as Hedit.
  { intros l Hl Hrun. unfold step. cbn [listener]. rewrite <- Hrun.
    destruct (storage_takes w (JSON_stringify l)) eqn:Htakes.
    - rewrite (favorites_written l w Htakes). eexists. split; [reflexivity|].
      unfold written. fields. rewrite Htakes.
      repeat split; try exact Hl; discriminate.
    - rewrite (favorites_refused l w Htakes). eexists. split; [reflexivity|].
      fields. rewrite Htakes. repeat split; try exact Hl; discriminate. }
  assert (forall confirmed : bool,
             on_favorite_click confirmed w
             = if is_favorite (favorites w) (currentCity w)
               then removeFavorite (currentCity w) confirmed w
               else addFavorite (currentCity w) w) as Hclick.
  { intros confirmed. unfold on_favorite_click. do 2 step.
    now destruct (is_favorite (favorites w) (currentCity w)). }
  split; [|split].
  - destruct (is_favorite (favorites w) (currentCity w)) eqn:E.
    + apply (Hedit (filter (fun c => negb (same_city c (currentCity w))) (favorites w))).
      * apply is_favorite_filtered.
      * now rewrite Hclick, removeFavorite_confirmed.
    + apply (Hedit (favorites w ++ [currentCity w])).
      * apply is_favorite_added.
      * now rewrite Hclick, (addFavorite_new _ _ E).
  - intros E. unfold step. cbn [listener]. now rewrite Hclick, E.
  - intros x. eexists. split; reflexivity.
Qed.

(** London is shown and is not a favorite; the storage takes no write.  The
    click puts London in the list, and the star stays empty. *)
Lemma on_favorite_click_toggles_witness :
  exists w' : world,
    step (set_storage_takes (fun _ => false) (Sample.world_after Sample.showing_london))
      (ClickStar true) = Some w' /\
    is_favorite (favorites w') (currentCity w') = true /\
    star (document w') = false.
Proof.
  destruct (proj1 (on_favorite_click_toggles
                     (set_storage_takes (fun _ => false)
                        (Sample.world_after Sample.showing_london))))
    as (w' & Hstep & Hfav & _ & _ & Hrefused).
  exists w'. split; [exact Hstep | split; [exact Hfav|]].
  destruct (Hrefused eq_refl) as (_ & Hstar & _). exact Hstar.
Defined.

(* ===================================================================== *)
(** * More of index.tsx: what every event keeps *)
(* ===================================================================== *)

Section Leaves.

Context {A : Type}.

Lemma leaves_keeps {B : Type} (f : world -> B) (X : B -> Prop) (m : M A) :
  keeps f m -> leaves (fun w => X (f w)) m (fun w => X (f w)) (fun w => X (f w)).
Proof.
  intros Hk w HX. specialize (Hk w). destruct (m w); auto; now rewrite Hk.
Qed.

Lemma leaves_weaken (P P' Q Q' E E' : world -> Prop) (m : M A) :
  (forall w, P' w -> P w) -> (forall w, Q w -> Q' w) -> (forall w, E w -> E' w) ->
  leaves P m Q E -> leaves P' m Q' E'.
Proof.
  intros HP HQ HE H w Hw. specialize (H w (HP w Hw)). destruct (m w); auto.
Qed.

Lemma leaves_bind {C : Type} (P R Q E : world -> Prop) (m : M C) (k : C -> M A) :
  leaves P m R E -> (forall c, leaves R (k c) Q E) -> leaves P (bind m k) Q E.
Proof.
  intros Hm Hk w HP. unfold bind. specialize (Hm w HP).
  destruct (m w) as [c w'| e w'|]; auto. apply Hk, Hm.
Qed.

Lemma leaves_try_catch (P Q R E : world -> Prop) (body : M A) (handler : exn -> M A) :
  leaves P body Q R -> (forall e, leaves R (handler e) Q E) ->
  leaves P (try_catch body handler) Q E.
Proof.
  intros Hb Hh w HP. unfold try_catch. specialize (Hb w HP).
  destruct (body w) as [a w'| e w'|]; auto. apply Hh, Hb.
Qed.

Lemma leaves_try_finally (P Q R E : world -> Prop) (body : M A) (last : M unit) :
  leaves P body R R -> leaves R last Q E -> (forall w, Q w -> E w) ->
  leaves P (try_finally body last) Q E.
Proof.
  intros Hb Hl HQE w HP. unfold try_finally, bind. specialize (Hb w HP).
  destruct (body w) as [a w'| e w'|]; auto;
    specialize (Hl w' Hb); destruct (last w'); cbn; auto.
Qed.

End Leaves.

Lemma leaves_when (P Q E : world -> Prop) (b : bool) (m : M unit) :
  leaves P m Q E -> (forall w, P w -> Q w) -> leaves P (when b m) Q E.
Proof. intros Hm HPQ. destruct b; [exact Hm|]. intros w HP. cbn. auto. Qed.

(** One turn of the loop, from what its listener leaves. *)
Lemma step_leaves (P Q : world -> Prop) (w w' : world) (e : event) :
  (forall m, listener w e = Some m -> leaves P m Q Q) ->
  step w e = Some w' -> P w -> Q w'.
Proof.
  unfold step. intros H Hstep HP.
  destruct (listener w e) as [m|]; [|discriminate].
  specialize (H m eq_refl w HP).
  destruct (m w); [injection Hstep as <- | injection Hstep as <- | discriminate]; exact H.
Qed.

Lemma run_leaves (P : world -> Prop) (ok : event -> Prop) :
  (forall w w' e, ok e -> step w e = Some w' -> P w -> P w') ->
  forall (es : list event) (w w' : world),
    (forall e, In e es -> ok e) -> run w es = Some w' -> P w -> P w'.
Proof.
  intros Hstep es. induction es as [|e es IH]; intros w w' Hok Hrun HP; cbn in Hrun.
  - now injection Hrun as <-.
  - destruct (step w e) as [w1|] eqn:E; [|discriminate].
    apply (IH w1 w'); [intros; apply Hok; now right | exact Hrun|].
    apply (Hstep w w1 e); [apply Hok; now left | exact E | exact HP].
Qed.

Ltac open_listener :=
  unfold on_input, on_search_click, on_suggestion_click, on_refresh, on_load,
    fetchCitySuggestions, fetchCitySuggestions_then, fetchWeather, fetchWeather_then,
    fetchWeather_try.

(** The statement each event runs. *)
Ltac by_event e H :=
  destruct e; cbn [listener] in H;
  repeat match type of H with
         | context [match ?x with _ => _ end] => destruct x eqn:?; try discriminate H
         end;
  injection H as <-.

Ltac which_listener H :=
  cbn [listener] in H;
  repeat match type of H with
         | context [match ?x with _ => _ end] => destruct x eqn:?; try discriminate H
         end;
  injection H as <-.

(** ** The loading of the page *)

Lemma strings_of_inv (v : value) (l : list string) :
  strings_of v = Some l -> v = Arr (map Str l).
Proof.
  destruct v as [| | | | |items|]; try discriminate. unfold strings_of.
  revert l. induction items as [|x r IH]; cbn; intros l Hl.
  - now injection Hl as <-.
  - destruct x; try discriminate.
    destruct (fold_right _ _ r) as [r'|]; [|discriminate].
    injection Hl as <-. cbn. specialize (IH r' eq_refl). now injection IH as ->.
Qed.

(** How [loadFavorites] can end. *)
Lemma loadFavorites_cases (w : world) :
  loadFavorites w = Returns tt w
  \/ (exists (text : string) (l : list string),
        localStorage w = Some text /\ JSON_parse text = Some (Arr (map Str l)) /\
        loadFavorites w = Returns tt (set_favorites l w))
  \/ loadFavorites w = Throws SyntaxError w
  \/ loadFavorites w = Untyped.
Proof.
  unfold loadFavorites, bind, read.
  destruct (localStorage w) as [[|c text]|]; auto.
  destruct (JSON_parse (String c text)) as [v|] eqn:Hparse; auto.
  destruct (strings_of v) as [l|] eqn:Hl; auto.
  right. left. exists (String c text), l. apply strings_of_inv in Hl. subst v.
  repeat split. exact Hparse.
Qed.

(** [load], once the favorites are loaded: the list is rendered, the first
    favorite, or London, is current and is asked for. *)
Lemma on_load_loaded (w w1 : world) :
  loadFavorites w = Returns tt w1 ->
  on_load w
  = fetchWeather (hd "London" (favorites w1)) false
      (set_currentCity (hd "London" (favorites w1))
         (set_document
            (set_favorites_list (favorites w1)
               (set_shown {| loader_hidden := loader_hidden (shown (document w1));
                             error_hidden := error_hidden (shown (document w1));
                             favorites_hidden :=
                               negb (Nat.ltb 0 (List.length (favorites w1)));
                             current_hidden := current_hidden (shown (document w1));
                             forecast_hidden := forecast_hidden (shown (document w1)) |}
                  (document w1))) w1)).
Proof.
  intros H. unfold on_load.
  erewrite bind_returns by exact H.
  erewrite bind_returns by apply renderFavorites_draws.
  do 2 step. fields. destruct (favorites w1); reflexivity.
Qed.

Lemma on_load_thrown (w : world) (e : exn) (w1 : world) :
  loadFavorites w = Throws e w1 -> on_load w = Throws e w1.
Proof. intros H. unfold on_load. now erewrite bind_throws by exact H. Qed.

Lemma on_load_untyped (w : world) :
  loadFavorites w = Untyped -> on_load w = Untyped.
Proof. intros H. unfold on_load, bind. now rewrite H. Qed.

(** ** The statements that edit the favorites *)

(** Each of them leaves the world as it is, or edits the list: then it
    returns in the world [written] when the storage takes the new list, and
    throws in the world where only the list has changed when it does not. *)
Lemma edits_cases (m : M unit) (w : world) :
  edits m ->
  m w = Returns tt w
  \/ exists l : list string,
       edited (favorites w) l /\
       (storage_takes w (JSON_stringify l) = true /\ m w = Returns tt (written l w)
        \/ storage_takes w (JSON_stringify l) = false /\
           m w = Throws QuotaExceededError (set_favorites l w)).
Proof.
  assert (forall l (k : M unit),
             edited (favorites w) l ->
             k w = (write (set_favorites l) ;; saveFavorites ;; renderFavorites ;;
                    updateFavoriteButton) w ->
             exists l : list string,
               edited (favorites w) l /\
               (storage_takes w (JSON_stringify l) = true /\ k w = Returns tt (written l w)
                \/ storage_takes w (JSON_stringify l) = false /\
                   k w = Throws QuotaExceededError (set_favorites l w))) as Hedit.
  { intros l k Hl ->. exists l. split; [exact Hl|].
    destruct (storage_takes w (JSON_stringify l)) eqn:Htakes.
    - left. split; [reflexivity | now apply favorites_written].
    - right. split; [reflexivity | now apply favorites_refused]. }
  assert (forall city, addFavorite city w = Returns tt w
                       \/ exists l : list string,
                            edited (favorites w) l /\
                            (storage_takes w (JSON_stringify l) = true
                             /\ addFavorite city w = Returns tt (written l w)
                             \/ storage_takes w (JSON_stringify l) = false
                                /\ addFavorite city w
                                   = Throws QuotaExceededError (set_favorites l w))) as Hadd.
  { intros city. destruct (is_favorite (favorites w) city) eqn:E.
    - left. now apply addFavorite_known.
    - right. apply (Hedit (favorites w ++ [city])); [right; now exists city|].
      apply (addFavorite_new city w E). }
  assert (forall city confirmed,
             removeFavorite city confirmed w = Returns tt w
             \/ exists l : list string,
                  edited (favorites w) l /\
                  (storage_takes w (JSON_stringify l) = true
                   /\ removeFavorite city confirmed w = Returns tt (written l w)
                   \/ storage_takes w (JSON_stringify l) = false
                      /\ removeFavorite city confirmed w
                         = Throws QuotaExceededError (set_favorites l w))) as Hremove.
  { intros city [|]; [right | left; reflexivity].
    apply (Hedit (filter (fun x => negb (same_city x city)) (favorites w)));
      [left; now exists city|].
    apply removeFavorite_confirmed. }
  intros [city | city confirmed | confirmed]; auto.
  unfold on_favorite_click. do 2 step.
  destruct (is_favorite (favorites w) (currentCity w)); auto.
Qed.

Lemma leaves_edits (P : world -> Prop) (m : M unit) :
  (forall w l, P w -> edited (favorites w) l ->
               storage_takes w (JSON_stringify l) = true -> P (written l w)) ->
  (forall w l, P w -> edited (favorites w) l ->
               storage_takes w (JSON_stringify l) = false -> P (set_favorites l w)) ->
  edits m -> leaves P m P P.
Proof.
  intros Hyes Hno Hm w HP.
  destruct (edits_cases m w Hm) as [-> | (l & Hl & [[Ht ->] | [Ht ->]])]; auto.
Qed.

(** What is seen of a world by a property that does not look at the
    favorites is the same whether an edit has returned or thrown. *)
Ltac edit_unseen :=
  apply leaves_edits; [intros ? ? HP _ _; exact HP | intros ? ? HP _ _; exact HP | constructor].

(** ** The storage goes on taking what it takes *)

Lemma leaves_reliable {A : Type} (P : world -> Prop) (m : M A) :
  keeps storage_takes m -> leaves P m P P ->
  leaves (fun w => reliable w /\ P w) m (fun w => reliable w /\ P w)
    (fun w => reliable w /\ P w).
Proof.
  intros Hk Hm w [Hr HP]. specialize (Hk w). specialize (Hm w HP).
  unfold reliable in *. destruct (m w); auto; split; auto; now rewrite Hk.
Qed.

(** With a storage that takes every write, an edit returns. *)
Lemma leaves_edits_reliable (P : world -> Prop) (m : M unit) :
  (forall w l, P w -> edited (favorites w) l -> P (written l w)) ->
  edits m ->
  leaves (fun w => reliable w /\ P w) m (fun w => reliable w /\ P w)
    (fun w => reliable w /\ P w).
Proof.
  intros H Hm. apply leaves_edits; [| |exact Hm].
  - intros w l [Hr HP] Hl _. split; [exact Hr | now apply H].
  - intros w l [Hr _] _ Hno. rewrite Hr in Hno. discriminate Hno.
Qed.


(** ** The rendered list *)




(** ** The star *)







(** ** The suggestion box *)

Lemma forEach_items (l : list value) (w w' : world) :
  forEach l displaySuggestions_item w = Returns tt w' ->
  w' = set_document (set_suggestions (suggestions (document w) ++ l) (document w)) w.
Proof.
  revert w. induction l as [|x l IH]; intros w H.
  - cbn in H. injection H as <-. destruct w as [? ? ? p ? ? ?]. destruct p. cbn.
    now rewrite app_nil_r.
  - cbn [forEach] in H. unfold displaySuggestions_item at 1, text_of_value in H.
    destruct (stringifiable x).
    + erewrite bind_returns in H by reflexivity.
      apply IH in H. subst w'. cbn. now rewrite <- app_assoc.
    + erewrite bind_throws in H by reflexivity. discriminate.
Qed.

(** However [displaySuggestions] is called, when it returns the box is
    hidden exactly when it is empty. *)
Lemma displaySuggestions_box (v : value) :
  leaves (fun _ => True) (displaySuggestions v) box_coherent (fun _ => True).
Proof.
  intros w _. unfold displaySuggestions. step.
  destruct v as [| | | | |l|l]; cbn [length_is_zero];
    try (erewrite bind_throws by reflexivity; exact I);
    erewrite bind_returns by reflexivity;
    try (cbn; exact I).
  - destruct (Nat.eqb (String.length s) 0); cbn; [split; reflexivity | exact I].
  - destruct l as [|x l]; cbn [List.length Nat.eqb].
    + cbn. split; reflexivity.
    + destruct (forEach (x :: l) displaySuggestions_item
                  (set_document (set_suggestions [] (document w)) w)) as [[] w1|e w1|] eqn:E.
      * erewrite bind_returns by exact E. apply forEach_items in E. subst w1.
        cbn. split; discriminate.
      * now erewrite bind_throws by exact E.
      * unfold bind. now rewrite E.
  - destruct (match own "length" l with
              | Some (Num (Finite q)) => Qeq_bool q 0
              | _ => false
              end); cbn; [split; reflexivity | exact I].
Qed.

Lemma leaves_box {A : Type} (m : M A) :
  keeps (fun w => (suggestions_hidden (document w), suggestions (document w))) m ->
  leaves box_coherent m box_coherent box_coherent.
Proof.
  intros H.
  apply (leaves_keeps (fun w => (suggestions_hidden (document w), suggestions (document w)))
           (fun x => fst x = true <-> snd x = []) m H).
Qed.

Lemma fetchCitySuggestions_then_box (r : response) :
  leaves (fun _ => True) (fetchCitySuggestions_then r) box_coherent box_coherent.
Proof.
  unfold fetchCitySuggestions_then.
  apply leaves_try_finally with (R := box_coherent); [| |auto].
  - apply leaves_try_catch with (R := fun _ => True).
    + apply leaves_bind with (R := fun _ => True); [intros w _; now destruct (await r w)|].
      intros text.
      apply leaves_bind with (R := fun _ => True); [intros w _; now destruct (parse text w)|].
      intros v. apply displaySuggestions_box.
    + intros e w _. cbn. split; reflexivity.
  - apply leaves_box. statement.
Qed.

(** An explicit call of [fetchWeather] hides the box. *)
Lemma fetchWeather_explicit_box (city : string) (P : world -> Prop) :
  leaves P (fetchWeather city false) box_coherent box_coherent.
Proof. intros w _. cbn. split; reflexivity. Qed.

Lemma step_box_coherent (w w' : world) (e : event) :
  step w e = Some w' -> box_coherent w -> box_coherent w'.
Proof.
  apply step_leaves. intros m H.
  by_event e H;
    try (apply leaves_box; open_listener; cbn [negb when]; statement; fail);
    try edit_unseen;
    try apply fetchWeather_explicit_box.
  - (* Load *)
    intros w0 HP.
    destruct (loadFavorites_cases w0) as [H | [(text & l & _ & _ & H) | [H | H]]].
    + rewrite (on_load_loaded _ _ H). cbn. split; reflexivity.
    + rewrite (on_load_loaded _ _ H). cbn. split; reflexivity.
    + rewrite (on_load_thrown _ _ _ H). exact HP.
    + now rewrite (on_load_untyped _ H).
  - (* DebounceFires *)
    intros w0 HP. unfold fetchCitySuggestions. step.
    destruct (Nat.ltb (String.length s) 3); cbn; [split; reflexivity | exact HP].
  - (* ClickSearch *)
    intros w0 HP. unfold on_search_click. step.
    destruct (Nat.ltb 0 (String.length (trim (city_input (document w0)))));
      cbn; [split; reflexivity | exact HP].
  - (* PressEnter *)
    intros w0 HP. unfold on_search_click. step.
    destruct (Nat.ltb 0 (String.length (trim (city_input (document w0)))));
      cbn; [split; reflexivity | exact HP].
  - (* ClickSuggestion *)
    intros w0 HP. cbn. split; reflexivity.
  - (* ClickOutside *)
    intros w0 HP. cbn. split; reflexivity.
  - (* Settles, suggestions *)
    apply leaves_bind with (R := fun _ => True); [intros w0 _; exact I|].
    intros _. apply fetchCitySuggestions_then_box.
Qed.

(** X7.  The suggestion box is hidden exactly when it is empty, whatever
    happens: no run of events leaves an empty box showing, or hides a box
    that has items. *)
Theorem box_always_coherent (w w' : world) (es : list event) :
  box_coherent w -> run w es = Some w' -> box_coherent w'.
Proof.
  intros HP Hrun.
  apply (run_leaves box_coherent (fun _ => True)
           (fun a b e _ => step_box_coherent a b e) es w w'); auto.
Qed.

Lemma box_always_coherent_witness :
  box_coherent (Sample.world_after Sample.tokyo_then_paris).
Proof.
  apply (box_always_coherent (boot Sample.blank None) _ Sample.tokyo_then_paris).
  - split; reflexivity.
  - vm_compute. reflexivity.
Defined.

(* ===================================================================== *)
(** * More of index.tsx: the storage *)
(* ===================================================================== *)

Lemma append_assoc (a b c : string) : ((a ++ b) ++ c = a ++ (b ++ c))%string.
Proof. induction a as [|x a IH]; cbn; [reflexivity | now rewrite IH]. Qed.

(** The scanner reads back one quoted code unit. *)
Lemma scan_quote_unit (c : ascii) (acc : list ascii) (out : list token) (rest : string) :
  scan (InString acc) out (quote_unit c ++ rest) = scan (InString (c :: acc)) out rest.
Proof.
  destruct c as [[|] [|] [|] [|] [|] [|] [|] [|]]; reflexivity.
Qed.

Lemma scan_quote_units (s : string) (acc : list ascii) (out : list token) (rest : string) :
  scan (InString acc) out (quote_units s ++ rest)
  = scan (InString (rev (list_ascii_of_string s) ++ acc)) out rest.
Proof.
  revert acc. induction s as [|c s IH]; intros acc; [reflexivity|].
  cbn [quote_units list_ascii_of_string rev].
  rewrite append_assoc, scan_quote_unit, IH, <- app_assoc. reflexivity.
Qed.

Lemma scan_quote (s : string) (out : list token) (rest : string) :
  scan Between out (quote s ++ rest) = scan Between (TString s :: out) rest.
Proof.
  unfold quote. cbn [append]. change (scan Between out (String dquote ?x))
    with (scan (InString []) out x).
  rewrite append_assoc, scan_quote_units. cbn [append].
  change (scan (InString ?acc) out (String dquote rest))
    with (scan Between (TString (text_of acc) :: out) rest).
  unfold text_of. now rewrite app_nil_r, rev_involutive, string_of_list_ascii_of_string.
Qed.

Lemma scan_strings (x : string) (r : list string) (out : list token) (rest : string) :
  scan Between out (String.concat "," (map quote (x :: r)) ++ rest)
  = scan Between (rev (tokens_of (x :: r)) ++ out) rest.
Proof.
  revert x out. induction r as [|y r IH]; intros x out.
  - cbn [map String.concat]. apply scan_quote.
  - change (String.concat "," (map quote (x :: y :: r)))
      with (quote x ++ "," ++ String.concat "," (map quote (y :: r)))%string.
    rewrite append_assoc, scan_quote. cbn [append].
    change (scan Between (TString x :: out) (String "," ?t))
      with (scan Between (TComma :: TString x :: out) t).
    rewrite IH. f_equal.
    change (tokens_of (x :: y :: r)) with (TString x :: TComma :: tokens_of (y :: r)).
    cbn [rev]. now rewrite <- !app_assoc.
Qed.

Lemma scan_stringify (l : list string) :
  scan Between [] (JSON_stringify l) = Some (TLBrack :: tokens_of l ++ [TRBrack]).
Proof.
  unfold JSON_stringify. destruct l as [|x r]; [reflexivity|].
  cbn [append].
  change (scan Between [] (String "[" ?t)) with (scan Between [TLBrack] t).
  rewrite scan_strings.
  change (scan Between ?out "]") with (Some (rev (TRBrack :: out))).
  cbn [rev]. now rewrite rev_app_distr, rev_involutive.
Qed.

Lemma shift_strings (r : list string) (acc : list value) :
  shift_all (ASeparator, [FArr acc])
    (flat_map (fun y => [TComma; TString y]) r ++ [TRBrack])
  = Some (Arr (rev acc ++ map Str r)).
Proof.
  revert acc. induction r as [|y r IH]; intros acc.
  - cbn. now rewrite app_nil_r.
  - cbn [flat_map app shift_all shift complete]. rewrite IH. cbn [rev map].
    now rewrite <- app_assoc.
Qed.

(** What [JSON.stringify] writes of a list of strings, [JSON.parse] reads
    back as that list. *)
Lemma parse_stringify (l : list string) :
  JSON_parse (JSON_stringify l) = Some (Arr (map Str l)).
Proof.
  unfold JSON_parse. rewrite scan_stringify. destruct l as [|x r]; [reflexivity|].
  cbn [tokens_of app shift_all shift complete]. apply (shift_strings r [Str x]).
Qed.

Lemma stringify_not_empty (l : list string) :
  exists text, JSON_stringify l = String "[" text.
Proof. unfold JSON_stringify. eexists. reflexivity. Qed.

Lemma strings_of_strings (l : list string) : strings_of (Arr (map Str l)) = Some l.
Proof.
  unfold strings_of. induction l as [|x l IH]; cbn; [reflexivity | now rewrite IH].
Qed.

Lemma loadFavorites_stringified (l : list string) (w : world) :
  localStorage w = Some (JSON_stringify l) ->
  loadFavorites w = Returns tt (set_favorites l w).
Proof.
  intros H. unfold loadFavorites, bind, read. rewrite H.
  pose proof (parse_stringify l) as Hparse.
  destruct (stringify_not_empty l) as [text Htext]. rewrite Htext in *.
  now rewrite Hparse, strings_of_strings.
Qed.

(** X8.  What [saveFavorites] writes, [loadFavorites] reads back: when the
    storage takes the list, a new session over the storage a session has
    saved to starts with the same favorites, in the same order and
    spelling, whatever characters the names have; its [load] makes the
    first of them current and asks for its weather (London when there is
    none). *)
Theorem saved_favorites_load_back (w : world) (p : page) :
  storage_takes w (JSON_stringify (favorites w)) = true ->
  exists w1 w2 : world,
    saveFavorites w = Returns tt w1 /\
    loadFavorites (boot p (localStorage w1))
    = Returns tt (set_favorites (favorites w) (boot p (localStorage w1))) /\
    on_load (boot p (localStorage w1)) = Returns tt w2 /\
    favorites w2 = favorites w /\
    favorites_list (document w2) = favorites w /\
    currentCity w2 = hd "London" (favorites w) /\
    map req_then (in_flight w2) = [WeatherFor (hd "London" (favorites w)) false].
Proof.
  intros Htakes.
  exists (set_localStorage (Some (JSON_stringify (favorites w))) w).
  eexists. split; [apply saveFavorites_taken; exact Htakes|]. fields.
  assert (loadFavorites (boot p (Some (JSON_stringify (favorites w))))
          = Returns tt (set_favorites (favorites w)
                          (boot p (Some (JSON_stringify (favorites w)))))) as Hload.
  { apply loadFavorites_stringified. reflexivity. }
  split; [exact Hload|].
  split; [rewrite (on_load_loaded _ _ Hload); reflexivity|].
  repeat split.
Qed.

(** Paris and Rome, with a comma and quotes in the names, come back as
    they were saved. *)
Lemma saved_favorites_load_back_witness :
  exists w1 w2 : world,
    saveFavorites (set_favorites ["Paris, France"; "Rome 'IT'"] (boot Sample.blank None))
    = Returns tt w1 /\
    on_load (boot Sample.blank (localStorage w1)) = Returns tt w2 /\
    favorites w2 = ["Paris, France"; "Rome 'IT'"] /\
    currentCity w2 = "Paris, France".
Proof.
  destruct (saved_favorites_load_back
              (set_favorites ["Paris, France"; "Rome 'IT'"] (boot Sample.blank None))
              Sample.blank eq_refl)
    as (w1 & w2 & Hsave & _ & Hload & Hfavs & _ & Hcity & _).
  exists w1, w2. repeat split; assumption.
Defined.

(** ** No favorite twice *)

Lemma unique_filter (p : string -> bool) (l : list string) :
  unique l -> unique (filter p l).
Proof.
  unfold unique. induction l as [|x l IH]; cbn; intros H; [exact H|].
  inversion H as [|? ? Hx Hl]; subst.
  destruct (p x); [|auto]. cbn. constructor; [|auto].
  intros Hin. apply Hx. apply in_map_iff in Hin as (y & Hy & Hin).
  apply filter_In in Hin as [Hin _]. apply in_map_iff. now exists y.
Qed.

Lemma unique_added (l : list string) (city : string) :
  unique l -> is_favorite l city = false -> unique (l ++ [city]).
Proof.
  unfold unique. intros H Hnot. rewrite map_app. cbn.
  assert (~ In (toLowerCase city) (map toLowerCase l)) as Hin.
  { intros Hin. apply is_favorite_iff in Hin. congruence. }
  clear Hnot. induction (map toLowerCase l) as [|x r IH]; cbn.
  - constructor; [intros [] | constructor].
  - inversion H as [|? ? Hx Hr]; subst. constructor.
    + rewrite in_app_iff. intros [Hi | [Hi | []]]; [auto|].
      apply Hin. left. symmetry. exact Hi.
    + apply IH; [exact Hr|]. intros Hi. apply Hin. now right.
Qed.

Lemma unique_edited (favs l : list string) : unique favs -> edited favs l -> unique l.
Proof.
  intros H [(city & ->) | (city & Hnot & ->)].
  - now apply unique_filter.
  - now apply unique_added.
Qed.

Lemma readable_stringify (l : list string) : unique l -> readable (Some (JSON_stringify l)).
Proof.
  intros H. pose proof (parse_stringify l) as Hparse.
  destruct (stringify_not_empty l) as [text Htext]. rewrite Htext in *.
  exists l. split; [exact Hparse | exact H].
Qed.

Lemma map_Str_injective (a b : list string) : map Str a = map Str b -> a = b.
Proof.
  revert b. induction a as [|x a IH]; intros [|y b] H; try discriminate; [reflexivity|].
  cbn in H. injection H as -> H. now rewrite (IH b H).
Qed.

Lemma leaves_unique {A : Type} (m : M A) :
  keeps (fun w => (favorites w, localStorage w)) m ->
  leaves favorites_unique m favorites_unique favorites_unique.
Proof.
  intros H.
  apply (leaves_keeps (fun w => (favorites w, localStorage w))
           (fun x => unique (fst x) /\ readable (snd x)) m H).
Qed.

Lemma step_favorites_unique (w w' : world) (e : event) :
  step w e = Some w' -> favorites_unique w -> favorites_unique w'.
Proof.
  apply step_leaves. intros m H.
  by_event e H;
    try (apply leaves_unique; open_listener; statement; fail);
    try (apply leaves_edits; [| |constructor];
         intros w0 l [Hu Hr] Hl _; pose proof (unique_edited _ _ Hu Hl) as Hl';
         (split; [exact Hl' | first [exact Hr | apply readable_stringify; exact Hl']])).
  intros w0 [Hu Hr].
  destruct (loadFavorites_cases w0) as [H | [(text & l & Hs & Hp & H) | [H | H]]].
  - rewrite (on_load_loaded _ _ H). split; [exact Hu | exact Hr].
  - rewrite (on_load_loaded _ _ H). split; [|exact Hr].
    cbn. unfold readable in Hr. rewrite Hs in Hr.
    destruct text as [|c text].
    + discriminate Hp.
    + destruct Hr as (l' & Hp' & Hu'). rewrite Hp in Hp'. injection Hp' as Hp'.
      now rewrite (map_Str_injective _ _ Hp').
  - rewrite (on_load_thrown _ _ _ H). split; assumption.
  - now rewrite (on_load_untyped _ H).
Qed.

(** X9.  No city is a favorite twice, letter case apart, in the globals or
    in the storage: from a world where that holds (the script just run
    over a storage that is empty or was written by the script), every run
    of events, the load of the window included, leads to such a world. *)
Theorem favorites_stay_unique (w w' : world) (es : list event) :
  favorites_unique w -> run w es = Some w' -> favorites_unique w'.
Proof.
  intros HP Hrun.
  apply (run_leaves favorites_unique (fun _ => True)
           (fun a b e _ => step_favorites_unique a b e) es w w'); auto.
Qed.

Lemma favorites_stay_unique_witness :
  favorites_unique (Sample.world_after Sample.favorite_refresh_then_tokyo).
Proof.
  apply (favorites_stay_unique (boot Sample.blank None) _
           Sample.favorite_refresh_then_tokyo).
  - split; [constructor | exact I].
  - vm_compute. reflexivity.
Defined.

(* ===================================================================== *)
(** * More of index.tsx: drawing *)
(* ===================================================================== *)

(** The card of a day is fixed by the day: it is appended, or the callback
    throws having drawn nothing, whatever the world. *)
Lemma displayForecast_card_cases (day : value) :
  (forall w : world, displayForecast_card day w = Throws TypeError w)
  \/ exists c : forecast_card,
       forall w : world,
         displayForecast_card day w
         = Returns tt
             (set_document
                (set_forecast_cards (forecast_cards (document w) ++ [c]) (document w)) w).
Proof.
  unfold displayForecast_card, bind, prop, text_of_value, getWeatherIcon_of, number_of,
    draw, write, ret, throw.
  destruct (get day "day") as [d|]; [|now left].
  destruct (stringifiable d); [|now left].
  destruct (get day "description") as [[| | | |s| |]|]; try now left.
  destruct (get day "temp_high") as [hi|]; [|now left].
  destruct (ToNumber hi); [|now left].
  destruct (get day "temp_low") as [lo|]; [|now left].
  destruct (ToNumber lo); [|now left].
  right. eexists. reflexivity.
Qed.

(** Appending no card changes nothing. *)
Lemma no_card_more (w : world) :
  set_document (set_forecast_cards (forecast_cards (document w) ++ []) (document w)) w = w.
Proof. destruct w as [? ? ? p ? ? ? ?]. destruct p. cbn. now rewrite app_nil_r. Qed.

(** The loop appends cards fixed by the days, one a day at most, and stops
    at the first day whose callback throws. *)
Lemma forEach_cards (l : list value) :
  exists (cs : list forecast_card) (thrown : bool),
    List.length cs <= List.length l /\
    forall w : world,
      forEach l displayForecast_card w
      = (if thrown then Throws TypeError else Returns tt)
          (set_document
             (set_forecast_cards (forecast_cards (document w) ++ cs) (document w)) w).
Proof.
  induction l as [|x l (cs & thrown & Hlen & IH)].
  - exists [], false. split; [reflexivity|]. intros w. now rewrite no_card_more.
  - destruct (displayForecast_card_cases x) as [H | [c H]].
    + exists [], true. split; [cbn; lia|]. intros w. cbn [forEach].
      erewrite bind_throws by apply H. now rewrite no_card_more.
    + exists (c :: cs), thrown. split; [cbn; lia|]. intros w. cbn [forEach].
      erewrite bind_returns by apply H. rewrite IH. fields.
      rewrite <- app_assoc. destruct thrown; reflexivity.
Qed.

(** X10.  Whatever it is given, [displayForecast] leaves cards that the
    forecast alone fixes, five at most and none of those the page had
    before, and changes nothing else, whether it returns or throws; a
    forecast that is not an array leaves no card.  Given an array of
    well-shaped days it returns, and the cards are those of the first five
    days, in the order of the array. *)
Theorem displayForecast_first_five (forecast : value) :
  (exists (cs : list forecast_card) (thrown : bool),
     List.length cs <= 5 /\
     ((forall l : list value, forecast <> Arr l) -> cs = [] /\ thrown = true) /\
     forall w : world,
       displayForecast forecast w
       = (if thrown then Throws TypeError else Returns tt)
           (set_document (set_forecast_cards cs (document w)) w)) /\
  (forall (w : world) (l : list value) (ds : list Schema.day),
     forecast = Arr l -> Schema.days_of l = Some ds ->
     exists w' : world,
       displayForecast forecast w = Returns tt w' /\
       forecast_cards (document w') = map View.forecast_card_of (firstn 5 ds) /\
       List.length (forecast_cards (document w')) = Nat.min 5 (List.length l)).
Proof.
  split.
  - assert (forall l : list value,
               forecast = Arr l ->
               exists (cs : list forecast_card) (thrown : bool),
                 List.length cs <= 5 /\
                 ((forall l : list value, forecast <> Arr l) -> cs = [] /\ thrown = true) /\
                 forall w : world,
                   displayForecast forecast w
                   = (if thrown then Throws TypeError else Returns tt)
                       (set_document (set_forecast_cards cs (document w)) w)) as Harray.
    { intros l ->. destruct (forEach_cards (firstn 5 l)) as (cs & thrown & Hlen & H).
      exists cs, thrown. rewrite length_firstn in Hlen.
      split; [lia|]. split; [intros Hno; now destruct (Hno l)|].
      intros w. unfold displayForecast. step. erewrite bind_returns by reflexivity.
      rewrite H. fields. destruct thrown; reflexivity. }
    destruct forecast as [| | | | |l|l]; try (now apply (Harray l));
      (exists [], true; split; [cbn; lia|]; split; [split; reflexivity|]; intros w;
       unfold displayForecast; step; now erewrite bind_throws by reflexivity).
  - intros w l ds -> Hds. eexists. split; [apply (displayForecast_shaped l ds w Hds)|].
    fields. split; [reflexivity|].
    rewrite length_map, length_firstn.
    assert (List.length ds = List.length l) as ->; [|reflexivity].
    revert ds Hds. induction l as [|x l IH]; cbn; intros ds Hds.
    + now injection Hds as <-.
    + destruct (Schema.day_of x); [|discriminate].
      destruct (Schema.days_of l) as [ds'|]; [|discriminate].
      injection Hds as <-. cbn. now rewrite (IH ds' eq_refl).
Qed.

(** Of a week the page shows five days; of a forecast that is no array it
    shows none, and none of the cards it had. *)
Lemma displayForecast_first_five_witness :
  (exists w' : world,
     displayForecast (Arr week) (boot Sample.blank None) = Returns tt w' /\
     List.length (forecast_cards (document w')) = 5) /\
  exists w' : world,
    displayForecast Null (Sample.world_after Sample.showing_london) = Throws TypeError w' /\
    forecast_cards (document w') = [].
Proof.
  split.
  - destruct (proj2 (displayForecast_first_five (Arr week)) (boot Sample.blank None)
                week _ eq_refl eq_refl) as (w' & H & _ & Hl).
    exists w'. split; [exact H | exact Hl].
  - destruct (proj1 (displayForecast_first_five Null)) as (cs & thrown & _ & Hnull & H).
    destruct Hnull as [-> ->]; [discriminate|].
    eexists. split; [apply H | reflexivity].
Defined.

(** X11.  On a well-shaped record [displayCurrentWeather] returns in the
    world it was called in with the card of the record for the card of the
    current weather: the card shows the record and nothing of what it
    showed before, and everything else is as it was (the forecast, the
    star, the favorites, the globals, the storage, the requests), so that
    drawing the same record again changes nothing. *)
Theorem displayCurrentWeather_overwrites (city : string) (v : value) (c : Schema.current)
    (w : world) :
  Schema.current_of v = Some c ->
  exists w' : world,
    displayCurrentWeather city v w = Returns tt w' /\
    w' = set_document (set_current (View.card_of city c) (document w)) w /\
    current (document w') = View.card_of city c /\
    current_temp (current (document w')) = Math_round (Finite (Schema.temp c)) /\
    weather_alerts (current (document w')) = View.alerts_of c /\
    View.beside_the_weather w' = View.beside_the_weather w /\
    forecast_cards (document w') = forecast_cards (document w) /\
    star (document w') = star (document w) /\
    currentCity w' = currentCity w /\
    displayCurrentWeather city v w' = Returns tt w'.
Proof.
  intros H. eexists. split; [apply (displayCurrentWeather_shaped city v c w H)|].
  split; [reflexivity|].
  rewrite (displayCurrentWeather_shaped city v c _ H). repeat split.
Qed.

Lemma displayCurrentWeather_overwrites_witness :
  exists w' : world,
    displayCurrentWeather "Tokyo" (Schema.value_of_current (Schema.now Sample.tokyo_report))
      (Sample.world_after Sample.showing_london)
    = Returns tt w' /\
    current (document w') = View.card_of "Tokyo" (Schema.now Sample.tokyo_report) /\
    forecast_cards (document w')
    = forecast_cards (document (Sample.world_after Sample.showing_london)) /\
    currentCity w' = "London".
Proof.
  destruct (displayCurrentWeather_overwrites "Tokyo"
              (Schema.value_of_current (Schema.now Sample.tokyo_report))
              (Schema.now Sample.tokyo_report)
              (Sample.world_after Sample.showing_london) eq_refl)
    as (w' & H & _ & Hc & _ & _ & _ & Hf & _ & Hcity & _).
  exists w'. split; [exact H | split; [exact Hc | split; [exact Hf | exact Hcity]]].
Defined.

(* ===================================================================== *)
(** * More of index.tsx: how a search ends *)
(* ===================================================================== *)

Lemma after_any {A : Type} (P : world -> Prop) (m : M A) : after P m (fun _ _ => True).
Proof. intros w _. now destruct (m w). Qed.

(** When the [try] block of an explicit search returns, the content is
    shown. *)
Lemma fetchWeather_try_content (city : string) (r : response) :
  after (fun _ => True) (fetchWeather_try city false r)
        (fun _ w => phase_of (shown (document w)) = Some Content
                    /\ loader_hidden (shown (document w)) = true).
Proof.
  unfold fetchWeather_try.
  repeat (apply after_bind with (Q := fun _ _ => True); [apply after_any | intros ?]).
  intros w _. cbn. auto.
Qed.

(** X12.  However the backend settles an explicit search, the rest of
    [fetchWeather] returns with the search button enabled again and no
    loader; and the page shows the content when the [try] block has
    returned, and otherwise the error section with the fixed message, the
    favorites, the current weather and the forecast hidden. *)
Theorem explicit_search_ends (city : string) (r : response) (w : world) :
  exists w' : world,
    fetchWeather_then city false r w = Returns tt w' /\
    disabled (search_btn (document w')) = false /\
    searching (search_btn (document w')) = false /\
    loader_hidden (shown (document w')) = true /\
    ((exists w1, fetchWeather_try city false r w = Returns tt w1) /\
     phase_of (shown (document w')) = Some Content
     \/
     (exists e w1, fetchWeather_try city false r w = Throws e w1) /\
     phase_of (shown (document w')) = Some Error /\
     favorites_hidden (shown (document w')) = true /\
     error_message (document w')
     = "Could not retrieve weather data. Please try another city.").
Proof.
  pose proof (typed_fetchWeather_try city false r w) as Htyped.
  pose proof (fetchWeather_try_content city r w I) as Hcontent.
  destruct (fetchWeather_try city false r w) as [[] w1|e w1|] eqn:Htry; [| |congruence].
  - eexists. split; [apply (fetchWeather_then_of_try _ _ _ _ _ Htry)|].
    destruct Hcontent as [Hphase Hloader]. fields.
    repeat split; [exact Hloader|]. left. split; [now exists w1 | exact Hphase].
  - eexists. split.
    + unfold fetchWeather_then, try_finally, try_catch. rewrite Htry. reflexivity.
    + fields. repeat split. right. split; [now exists e, w1 | repeat split].
Qed.

(* ===================================================================== *)
(** * More of index.tsx: suggestions *)
(* ===================================================================== *)

Lemma settles_fetchCitySuggestions_then (r : response) :
  settles (fetchCitySuggestions_then r).
Proof.
  unfold fetchCitySuggestions_then. apply settles_caught.
  - statement.
  - intros e. statement.
  - statement.
Qed.

Lemma fetchCitySuggestions_then_keeps (r : response) :
  keeps beside_the_box (fetchCitySuggestions_then r).
Proof. unfold fetchCitySuggestions_then. statement. Qed.

Lemma fetchCitySuggestions_then_loading (r : response) :
  leaves (fun _ => True) (fetchCitySuggestions_then r)
    (fun w => loading (search_btn (document w)) = false)
    (fun w => loading (search_btn (document w)) = false).
Proof.
  unfold fetchCitySuggestions_then.
  apply leaves_try_finally with (R := fun _ => True); [| |auto].
  - intros w _. now destruct (try_catch _ _ w).
  - intros w _. reflexivity.
Qed.

(** X13.  A suggestion request that fails, fails silently.  Whatever the
    answer, the rest of [fetchCitySuggestions] returns, the loading mark is
    taken off the button, the box is hidden exactly when it is empty, and
    nothing else on the page or in the globals changes: no phase, no error
    message.  When the backend rejects the request, or its text does not
    parse, or parses to an empty array, the box is left empty and
    hidden. *)
Theorem suggestions_fail_silently (r : response) (w : world) :
  exists w' : world,
    fetchCitySuggestions_then r w = Returns tt w' /\
    loading (search_btn (document w')) = false /\
    beside_the_box w' = beside_the_box w /\
    box_coherent w' /\
    (r = Rejected
     \/ (exists text, r = Resolved text
                      /\ (JSON_parse text = None \/ JSON_parse text = Some (Arr []))) ->
     suggestions (document w') = [] /\ suggestions_hidden (document w') = true).
Proof.
  destruct (settles_keeps beside_the_box (fetchCitySuggestions_then r) w
              (settles_fetchCitySuggestions_then r) (fetchCitySuggestions_then_keeps r))
    as (w' & Hrun & Hframe).
  exists w'. split; [exact Hrun|].
  pose proof (fetchCitySuggestions_then_loading r w I) as Hloading.
  pose proof (fetchCitySuggestions_then_box r w I) as Hbox.
  rewrite Hrun in Hloading, Hbox.
  split; [exact Hloading|]. split; [exact Hframe|]. split; [exact Hbox|].
  intros Hbad.
  assert (fetchCitySuggestions_then r w
          = Returns tt
              (set_document
                 (set_search_btn {| searching := searching (search_btn (document w));
                                    loading := false;
                                    disabled := disabled (search_btn (document w)) |}
                    (set_suggestions [] (set_suggestions_hidden true (document w)))) w))
    as Hexplicit.
  { unfold fetchCitySuggestions_then, try_finally, try_catch.
    destruct Hbad as [-> | (text & -> & [H | H])].
    - erewrite bind_throws by reflexivity. reflexivity.
    - erewrite bind_returns by reflexivity.
      erewrite bind_throws by (unfold parse; rewrite H; reflexivity). reflexivity.
    - erewrite bind_returns by reflexivity.
      erewrite bind_returns by (unfold parse; rewrite H; reflexivity). reflexivity. }
  rewrite Hexplicit in Hrun. injection Hrun as <-. split; reflexivity.
Qed.

Lemma suggestions_fail_silently_witness :
  exists w' : world,
    fetchCitySuggestions_then (Resolved "oops")
      (Sample.world_after Sample.lon_then_lond) = Returns tt w' /\
    suggestions (document w') = [] /\ suggestions_hidden (document w') = true /\
    phase_of (shown (document w')) = Some Content.
Proof.
  destruct (suggestions_fail_silently (Resolved "oops")
              (Sample.world_after Sample.lon_then_lond))
    as (w' & Hrun & _ & Hframe & _ & Hbad).
  exists w'. split; [exact Hrun|].
  destruct Hbad as [H1 H2].
  - right. exists "oops". split; [reflexivity|]. left. reflexivity.
  - split; [exact H1|]. split; [exact H2|].
    unfold beside_the_box in Hframe. injection Hframe as Hshown. rewrite Hshown.
    reflexivity.
Defined.

(** ** The debounce *)

Lemma step_input (text : string) (w : world) :
  step w (Input text)
  = Some (set_debounceTimer (Some (trim text))
            (set_document (set_city_input text (document w)) w)).
Proof. reflexivity. Qed.

Lemma run_inputs (texts : list string) (last : string) (w : world) :
  run w (map Input texts ++ [Input last])
  = Some (set_debounceTimer (Some (trim last))
            (set_document (set_city_input last (document w)) w)).
Proof.
  revert w. induction texts as [|t texts IH]; intros w.
  - reflexivity.
  - cbn [map app run]. rewrite step_input, IH. reflexivity.
Qed.

Lemma run_app (w : world) (es fs : list event) :
  run w (es ++ fs) = match run w es with Some w1 => run w1 fs | None => None end.
Proof.
  revert w. induction es as [|e es IH]; intros w; [reflexivity|].
  cbn [app run]. destruct (step w e); [apply IH | reflexivity].
Qed.

(** X14.  Keystrokes that follow one another before the timer fires make
    one request at most, for the last value of the field, trimmed, and
    only when it has three characters or more; once the timer has fired it
    does not fire again before the next keystroke. *)
Theorem debounce_asks_once (w : world) (texts : list string) (last : string) :
  exists w' : world,
    run w (map Input texts ++ [Input last; DebounceFires]) = Some w' /\
    in_flight w'
    = in_flight w ++ (if Nat.ltb (String.length (trim last)) 3 then []
                      else [{| req_id := calls w;
                               req_prompt := suggestions_prompt (trim last);
                               req_then := Suggestions |}]) /\
    city_input (document w') = last /\
    debounceTimer w' = None /\
    step w' DebounceFires = None.
Proof.
  change (map Input texts ++ [Input last; DebounceFires])
    with (map Input texts ++ ([Input last] ++ [DebounceFires])).
  rewrite app_assoc, run_app, run_inputs.
  cbn [run step listener debounceTimer set_debounceTimer].
  unfold fetchCitySuggestions.
  destruct (Nat.ltb (String.length (trim last)) 3).
  - eexists. split; [reflexivity|]. fields. rewrite app_nil_r. repeat split.
  - eexists. split; [reflexivity|]. fields. repeat split.
Qed.

(** ** The search button *)

(** X15.  A click on the search button, when the button takes it, does
    nothing on a field that is blank, and otherwise makes one request, for
    the trimmed text of the field, shows the loader and disables the
    button: until that button is enabled again neither a click nor the
    Enter key starts a second search. *)
Theorem search_click_once (w w' : world) :
  step w ClickSearch = Some w' ->
  (trim (city_input (document w)) = EmptyString /\ w' = w)
  \/
  (trim (city_input (document w)) <> EmptyString /\
   map req_then (in_flight w')
   = map req_then (in_flight w) ++ [WeatherFor (trim (city_input (document w))) false] /\
   calls w' = S (calls w) /\
   phase_of (shown (document w')) = Some Loading /\
   currentCity w' = currentCity w /\
   step w' ClickSearch = None /\ step w' PressEnter = None).
Proof.
  unfold step. cbn [listener].
  destruct (disabled (search_btn (document w))); [discriminate|].
  unfold on_search_click. erewrite bind_returns by reflexivity.
  destruct (trim (city_input (document w))) as [|c s] eqn:E.
  - cbn. intros H. injection H as <-. now left.
  - cbn. intros H. injection H as <-. right. fields.
    rewrite map_app. repeat split. discriminate.
Qed.

Lemma search_click_once_witness :
  trim (city_input (document (Sample.world_after (Sample.showing_london ++ [Input " Tokyo "]))))
  <> EmptyString /\
  exists w' : world,
    step (Sample.world_after (Sample.showing_london ++ [Input " Tokyo "])) ClickSearch
    = Some w' /\
    map req_then (in_flight w') = [] ++ [WeatherFor "Tokyo" false] /\
    step w' ClickSearch = None.
Proof.
  split; [discriminate|].
  eexists. split; [vm_compute; reflexivity|].
  match goal with
  | |- context [step ?w ClickSearch = None] =>
      destruct (search_click_once
                  (Sample.world_after (Sample.showing_london ++ [Input " Tokyo "])) w)
        as [[H _] | (_ & Hq & _ & _ & _ & Hc & _)]
  end.
  - vm_compute. reflexivity.
  - discriminate H.
  - split; [exact Hq | exact Hc].
Defined.

(* ===================================================================== *)
(** * More of index.tsx: nothing is left waiting *)
(* ===================================================================== *)

Lemma take_request_In (id : nat) (l : list request) (q0 : request) (rest : list request) :
  take_request id l = Some (q0, rest) ->
  forall q, In q l -> q = q0 \/ In q rest.
Proof.
  revert rest. induction l as [|x l IH]; cbn; intros rest H q Hin; [discriminate|].
  destruct (Nat.eqb (req_id x) id).
  - injection H as <- <-. destruct Hin as [-> | Hin]; auto.
  - destruct (take_request id l) as [[y r']|]; [|discriminate].
    injection H as <- <-. destruct Hin as [-> | Hin].
    + right. now left.
    + destruct (IH r' eq_refl q Hin) as [-> | Hr]; [now left | right; now right].
Qed.

Lemma leaves_button {A : Type} (m : M A) :
  keeps (fun w => (busy w, in_flight w)) m ->
  leaves waits m waits waits.
Proof.
  intros H.
  apply (leaves_keeps (fun w => (busy w, in_flight w))
           (fun x => fst x = true ->
                     exists q city, In q (snd x) /\ req_then q = WeatherFor city false) m H).
Qed.

(** An explicit call of [fetchWeather] puts its request in flight. *)
Lemma fetchWeather_explicit_waits (city : string) (P : world -> Prop) :
  leaves P (fetchWeather city false) waits waits.
Proof.
  intros w _. cbn. intros _. eexists. exists city.
  split; [apply in_or_app; right; left; reflexivity | reflexivity].
Qed.

(** A request more does not take the explicit ones away. *)
Lemma generateContent_waits (prompt : string) (k : awaiting) :
  leaves waits (generateContent prompt k) waits waits.
Proof.
  intros w HP. cbn. intros Hd. destruct (HP Hd) as (q & city & Hin & Hq).
  exists q, city. split; [apply in_or_app; now left | exact Hq].
Qed.

(** The rest of an explicit search ends with nothing left waiting. *)
Lemma fetchWeather_then_idle (city : string) (r : response) :
  leaves (fun _ => True) (fetchWeather_then city false r)
    (fun w => busy w = false) (fun w => busy w = false).
Proof.
  unfold fetchWeather_then.
  apply leaves_try_finally
    with (R := fun w => loader_hidden (shown (document w)) = true); [| |auto].
  - apply leaves_try_catch with (R := fun _ => True).
    + intros w _. pose proof (fetchWeather_try_content city r w I) as H.
      destruct (fetchWeather_try city false r w); auto. apply H.
    + intros e w _. reflexivity.
  - intros w H. cbn. unfold busy. fields. now rewrite H.
Qed.

Lemma fetchCitySuggestions_then_button (r : response) :
  keeps (fun w => (busy w, in_flight w))
    (fetchCitySuggestions_then r).
Proof. unfold fetchCitySuggestions_then. statement. Qed.

Lemma fetchWeather_then_auto_button (city : string) (r : response) :
  keeps (fun w => (busy w, in_flight w))
    (fetchWeather_then city true r).
Proof.
  unfold fetchWeather_then, fetchWeather_try. cbn [negb when]. statement.
Qed.

Lemma step_waits (w w' : world) (e : event) :
  step w e = Some w' -> waits w -> waits w'.
Proof.
  destruct e as [| | | | | | | | | | |id r].
  12: {
    (* the backend settles a request *)
    unfold step. cbn [listener].
    destruct (take_request id (in_flight w)) as [[q0 rest]|] eqn:Htake; [|discriminate].
    erewrite bind_returns by reflexivity.
    set (w1 := set_in_flight rest (calls w) w).
    assert (forall m : M unit,
               keeps (fun w => (busy w, in_flight w)) m ->
               (forall city, req_then q0 <> WeatherFor city false) ->
               match m w1 with
               | Returns _ w2 | Throws _ w2 => Some w2
               | Untyped => None
               end = Some w' ->
               waits w -> waits w') as Hother.
    { intros m Hkeeps Hq0 Hstep HP Hd. specialize (Hkeeps w1).
      assert ((busy w', in_flight w')
              = (busy w, rest)) as Hsame.
      { destruct (m w1); [injection Hstep as <- | injection Hstep as <- | discriminate];
          exact Hkeeps. }
      injection Hsame as Hdis Hfl. rewrite Hdis in Hd. rewrite Hfl.
      destruct (HP Hd) as (q & city & Hin & Hq).
      destruct (take_request_In _ _ _ _ Htake q Hin) as [-> | Hrest].
      - exfalso. exact (Hq0 city Hq).
      - now exists q, city. }
    destruct (req_then q0) as [city [|]|] eqn:Hq0.
    - apply (Hother _ (fetchWeather_then_auto_button city r)). discriminate.
    - intros Hstep _ Hd. pose proof (fetchWeather_then_idle city r w1 I) as H.
      destruct (fetchWeather_then city false r w1);
        [injection Hstep as <- | injection Hstep as <- | discriminate]; congruence.
    - apply (Hother _ (fetchCitySuggestions_then_button r)). discriminate. }
  all: apply step_leaves; intros m H; which_listener H.
  all: try (apply leaves_button; open_listener; statement; fail).
  all: try edit_unseen.
  all: try match goal with
           | |- leaves _ (fetchWeather _ false) _ _ => apply fetchWeather_explicit_waits
           end.
  - (* Load *)
    intros w0 HP.
    destruct (loadFavorites_cases w0) as [H | [(text & l & _ & _ & H) | [H | H]]].
    + rewrite (on_load_loaded _ _ H). now apply (fetchWeather_explicit_waits _ (fun _ => True)).
    + rewrite (on_load_loaded _ _ H). now apply (fetchWeather_explicit_waits _ (fun _ => True)).
    + rewrite (on_load_thrown _ _ _ H). exact HP.
    + now rewrite (on_load_untyped _ H).
  - (* DebounceFires *)
    apply leaves_bind with (R := waits); [apply leaves_button; statement|].
    intros ?. cbv beta. unfold fetchCitySuggestions.
    destruct (Nat.ltb (String.length s) 3); [apply leaves_button; statement|].
    apply leaves_bind with (R := waits); [apply leaves_button; statement|].
    intros ?. cbv beta. apply generateContent_waits.
  - (* ClickSearch *)
    unfold on_search_click.
    apply leaves_bind with (R := waits); [apply leaves_button; statement|].
    intros p. destruct (Nat.ltb 0 (String.length (trim (city_input p))));
      [apply fetchWeather_explicit_waits | apply leaves_button; statement].
  - (* PressEnter *)
    unfold on_search_click.
    apply leaves_bind with (R := waits); [apply leaves_button; statement|].
    intros p. destruct (Nat.ltb 0 (String.length (trim (city_input p))));
      [apply fetchWeather_explicit_waits | apply leaves_button; statement].
  - (* ClickSuggestion *)
    unfold on_suggestion_click.
    apply leaves_bind with (R := waits); [apply leaves_button; statement|].
    intros ?. cbv beta. apply fetchWeather_explicit_waits.
  - (* RefreshFires *)
    unfold on_refresh.
    apply leaves_bind with (R := waits); [apply leaves_button; statement|].
    intros city. destruct (Nat.ltb 0 (String.length city));
      [|apply leaves_button; statement].
    unfold fetchWeather. cbn [negb when].
    apply leaves_bind with (R := waits); [apply leaves_button; statement|].
    intros ?. cbv beta. apply generateContent_waits.
Qed.

(** X16.  The page is never left waiting for nothing: from a world where
    the search button is disabled or marked as searching, or the loader
    shows, only while an explicit search is in flight, every run of events
    leads to such a world. *)
Theorem never_left_waiting (w w' : world) (es : list event) :
  waits w -> run w es = Some w' -> waits w'.
Proof.
  intros HP Hrun.
  apply (run_leaves waits (fun _ => True)
           (fun a b e _ => step_waits a b e) es w w'); auto.
Qed.

Lemma never_left_waiting_witness :
  waits (Sample.world_after Sample.tokyo_then_paris).
Proof.
  apply (never_left_waiting (boot Sample.blank None) _ Sample.tokyo_then_paris).
  - intros H. discriminate H.
  - vm_compute. reflexivity.
Defined.

(* ===================================================================== *)
(** * More of index.tsx: one phase at a time *)
(* ===================================================================== *)

Lemma leaves_phase {A : Type} (m : M A) :
  keeps (fun w => phase_of (shown (document w))) m ->
  leaves in_a_phase m in_a_phase in_a_phase.
Proof.
  intros H.
  apply (leaves_keeps (fun w => phase_of (shown (document w))) (fun x => x <> None) m H).
Qed.

(** An explicit call of [fetchWeather] shows the loader alone. *)
Lemma fetchWeather_explicit_phase (city : string) (P : world -> Prop) :
  leaves P (fetchWeather city false) in_a_phase in_a_phase.
Proof. intros w _. cbn. discriminate. Qed.

Lemma fetchWeather_auto_phase (city : string) :
  keeps (fun w => phase_of (shown (document w))) (fetchWeather city true).
Proof. unfold fetchWeather. cbn [negb when]. statement. Qed.

(** The rest of an explicit search ends with the content or with the error. *)
Lemma fetchWeather_then_phase (city : string) (r : response) :
  leaves (fun _ => True) (fetchWeather_then city false r) in_a_phase in_a_phase.
Proof.
  unfold fetchWeather_then.
  apply leaves_try_finally with (R := in_a_phase); [| |auto].
  - apply leaves_try_catch with (R := fun _ => True).
    + intros w _. pose proof (fetchWeather_try_content city r w I) as H.
      destruct (fetchWeather_try city false r w); auto.
      destruct H as [H _]. unfold in_a_phase. rewrite H. discriminate.
    + intros e w _. cbn. discriminate.
  - apply leaves_phase. statement.
Qed.

Lemma fetchWeather_then_auto_phase (city : string) (r : response) :
  keeps (fun w => phase_of (shown (document w))) (fetchWeather_then city true r).
Proof.
  unfold fetchWeather_then, fetchWeather_try. cbn [negb when]. statement.
Qed.

Lemma step_in_a_phase (w w' : world) (e : event) :
  step w e = Some w' -> in_a_phase w -> in_a_phase w'.
Proof.
  apply step_leaves. intros m H.
  by_event e H; try congruence;
    try (apply leaves_phase; open_listener; statement; fail);
    try edit_unseen;
    try match goal with
        | |- leaves _ (fetchWeather _ false) _ _ => apply fetchWeather_explicit_phase
        end.
  - (* Load *)
    intros w0 HP.
    destruct (loadFavorites_cases w0) as [H | [(text & l & _ & _ & H) | [H | H]]].
    + rewrite (on_load_loaded _ _ H). now apply (fetchWeather_explicit_phase _ (fun _ => True)).
    + rewrite (on_load_loaded _ _ H). now apply (fetchWeather_explicit_phase _ (fun _ => True)).
    + rewrite (on_load_thrown _ _ _ H). exact HP.
    + now rewrite (on_load_untyped _ H).
  - (* ClickSearch *)
    unfold on_search_click.
    apply leaves_bind with (R := in_a_phase); [apply leaves_phase; statement|].
    intros p. destruct (Nat.ltb 0 (String.length (trim (city_input p))));
      [apply fetchWeather_explicit_phase | apply leaves_phase; statement].
  - (* PressEnter *)
    unfold on_search_click.
    apply leaves_bind with (R := in_a_phase); [apply leaves_phase; statement|].
    intros p. destruct (Nat.ltb 0 (String.length (trim (city_input p))));
      [apply fetchWeather_explicit_phase | apply leaves_phase; statement].
  - (* ClickSuggestion *)
    unfold on_suggestion_click.
    apply leaves_bind with (R := in_a_phase); [apply leaves_phase; statement|].
    intros ?. cbv beta. apply fetchWeather_explicit_phase.
  - (* RefreshFires *)
    unfold on_refresh.
    apply leaves_bind with (R := in_a_phase); [apply leaves_phase; statement|].
    intros city. destruct (Nat.ltb 0 (String.length city));
      apply leaves_phase; [apply fetchWeather_auto_phase | statement].
  - (* Settles, weather *)
    apply leaves_bind with (R := in_a_phase); [apply leaves_phase; statement|].
    intros ?. cbv beta. destruct isAutoRefresh.
    + apply leaves_phase, fetchWeather_then_auto_phase.
    + apply leaves_weaken with (P := fun _ => True) (Q := in_a_phase) (E := in_a_phase);
        auto using fetchWeather_then_phase.
Qed.

(** X17.  The page shows one thing at a time: from a world where it shows
    the loader alone, the error alone, or the current weather with the
    forecast, every run of events leads to such a world; never the error
    beside the weather, the loader beside either, or nothing at all. *)
Theorem one_phase_at_a_time (w w' : world) (es : list event) :
  in_a_phase w -> run w es = Some w' -> in_a_phase w'.
Proof.
  intros HP Hrun.
  apply (run_leaves in_a_phase (fun _ => True)
           (fun a b e _ => step_in_a_phase a b e) es w w'); auto.
Qed.

Lemma one_phase_at_a_time_witness :
  in_a_phase (Sample.world_after Sample.tokyo_then_paris).
Proof.
  apply (one_phase_at_a_time (Sample.world_after [Load]) _
           (tl Sample.tokyo_then_paris)).
  - discriminate.
  - vm_compute. reflexivity.
Defined.

(* ===================================================================== *)
(** * More of index.tsx: what changes the favorites and the current city *)
(* ===================================================================== *)

Ltac open_edits := unfold on_favorite_click, addFavorite, removeFavorite.

Lemma step_saved (w w' : world) (e : event) (x : list string * option string * list string) :
  edits_favorites e = false -> step w e = Some w' -> saved w = x -> saved w' = x.
Proof.
  intros Hok. apply (step_leaves (fun y => saved y = x) (fun y => saved y = x)).
  intros m H.
  by_event e H; try discriminate Hok;
    apply (leaves_keeps saved (fun y => y = x)); open_listener; statement.
Qed.

(** X18.  Only the load of the window and the clicks on the star and on a
    remove button change the favorites: a run of other events (searches,
    keystrokes, suggestions, refreshes, and the answers of the backend,
    whatever they are) leaves the list, the storage and the rendered list
    as they were. *)
Theorem favorites_change_by_edits_only (w w' : world) (es : list event) :
  Forall (fun e => edits_favorites e = false) es ->
  run w es = Some w' ->
  favorites w' = favorites w /\
  localStorage w' = localStorage w /\
  favorites_list (document w') = favorites_list (document w).
Proof.
  intros Hes Hrun.
  assert (saved w' = saved w) as H.
  { apply (run_leaves (fun x => saved x = saved w) (fun e => edits_favorites e = false)
             (fun a b e He Hs => step_saved a b e (saved w) He Hs) es w w');
      [|exact Hrun | reflexivity].
    intros e He. rewrite Forall_forall in Hes. now apply Hes. }
  unfold saved in H. injection H as H1 H2 H3. auto.
Qed.

Lemma favorites_change_by_edits_only_witness :
  favorites (Sample.world_after Sample.favorite_refresh_then_tokyo) = ["London"] /\
  localStorage (Sample.world_after Sample.favorite_refresh_then_tokyo)
  = Some (JSON_stringify ["London"]).
Proof.
  destruct (favorites_change_by_edits_only
              (Sample.world_after (Sample.showing_london ++ [ClickStar true]))
              (Sample.world_after Sample.favorite_refresh_then_tokyo)
              [RefreshFires; Input "Tokyo"; ClickSearch; Settles 2 (Resolved Sample.tokyo)])
    as (H1 & H2 & _).
  - repeat constructor.
  - vm_compute. reflexivity.
  - split; [exact H1 | exact H2].
Defined.

(** ** The storage *)

Lemma step_mirrors (w w' : world) (e : event) :
  step w e = Some w' -> reliable w /\ mirrors w -> reliable w' /\ mirrors w'.
Proof.
  apply (step_leaves (fun x => reliable x /\ mirrors x) (fun x => reliable x /\ mirrors x)).
  intros m H.
  by_event e H;
    try (apply leaves_reliable;
         [|apply (leaves_keeps (fun w => (favorites w, localStorage w))
                    (fun x => snd x = Some (JSON_stringify (fst x))))];
         open_listener; statement; fail);
    try (apply leaves_edits_reliable; [reflexivity | constructor]).
  intros w0 [Hr HP].
  rewrite (on_load_loaded _ _ (loadFavorites_stringified _ _ HP)).
  split; [exact Hr | exact HP].
Qed.

(** X19.  As long as the storage takes every write, it is never out of
    date: from a world where [setItem] never throws and the storage holds
    the list of favorites as [saveFavorites] writes it (any world a
    successful edit of the favorites has left), every run of events, the
    load of the window included, leads to such a world.  (An edit whose
    [setItem] throws changes the list and leaves the storage.) *)
Theorem storage_never_stale (w w' : world) (es : list event) :
  reliable w -> mirrors w -> run w es = Some w' -> mirrors w'.
Proof.
  intros Hr HP Hrun.
  apply (run_leaves (fun x => reliable x /\ mirrors x) (fun _ => True)
           (fun a b e _ => step_mirrors a b e) es w w'); auto.
Qed.

Lemma storage_never_stale_witness :
  mirrors (Sample.world_after (Sample.favorite_refresh_then_tokyo
                               ++ [Load; ClickStar true; ClickStar true])).
Proof.
  apply (storage_never_stale
           (Sample.world_after (Sample.showing_london ++ [ClickStar true])) _
           ([RefreshFires; Input "Tokyo"; ClickSearch; Settles 2 (Resolved Sample.tokyo)]
            ++ [Load; ClickStar true; ClickStar true])).
  - intros text. reflexivity.
  - vm_compute. reflexivity.
  - vm_compute. reflexivity.
Defined.

(** ** The page and the storage *)

Lemma step_shows_stored (w w' : world) (e : event) :
  step w e = Some w' -> shows_stored w -> shows_stored w'.
Proof.
  apply step_leaves. intros m H.
  by_event e H;
    try (apply (leaves_keeps (fun w => (localStorage w, favorites_list (document w)))
                  (fun x => fst x = Some (JSON_stringify (snd x))));
         open_listener; statement; fail);
    try (apply leaves_edits; [reflexivity | intros ? ? HP _ _; exact HP | constructor]).
  intros w0 HP.
  rewrite (on_load_loaded _ _ (loadFavorites_stringified _ _ HP)). exact HP.
Qed.

(** X22.  The page lists what the storage holds, whether or not the storage
    takes the writes: from a world where the storage holds the rendered
    list as [saveFavorites] writes it, every run of events, the load of the
    window included, leads to such a world.  An edit that is stored is
    rendered, and an edit whose [setItem] throws is neither. *)
Theorem page_lists_what_is_stored (w w' : world) (es : list event) :
  shows_stored w -> run w es = Some w' -> shows_stored w'.
Proof.
  intros HP Hrun.
  apply (run_leaves shows_stored (fun _ => True)
           (fun a b e _ => step_shows_stored a b e) es w w'); auto.
Qed.

(** London is stored and listed; the storage then refuses every write: the
    click on the star takes London out of the favorites, and the page and
    the storage go on listing it. *)
Lemma page_lists_what_is_stored_witness :
  exists w' : world,
    run (set_storage_takes (fun _ => false)
           (Sample.world_after (Sample.showing_london ++ [ClickStar true])))
      [ClickStar true; RefreshFires] = Some w' /\
    favorites w' = [] /\
    favorites_list (document w') = ["London"] /\
    shows_stored w'.
Proof.
  eexists. split; [vm_compute; reflexivity|].
  split; [reflexivity|]. split; [reflexivity|].
  apply (page_lists_what_is_stored
           (set_storage_takes (fun _ => false)
              (Sample.world_after (Sample.showing_london ++ [ClickStar true]))) _
           [ClickStar true; RefreshFires]).
  - vm_compute. reflexivity.
  - vm_compute. reflexivity.
Defined.

(** ** The current city *)

Lemma take_request_found (id : nat) (l : list request) (q0 : request) (rest : list request) :
  take_request id l = Some (q0, rest) -> In q0 l /\ req_id q0 = id.
Proof.
  revert rest. induction l as [|x l IH]; cbn; intros rest H; [discriminate|].
  destruct (Nat.eqb (req_id x) id) eqn:E.
  - injection H as <- <-. split; [now left | now apply Nat.eqb_eq].
  - destruct (take_request id l) as [[y r']|]; [|discriminate].
    injection H as <- <-. destruct (IH r' eq_refl) as [Hin Hid]. split; [now right | exact Hid].
Qed.

Lemma leaves_city {A : Type} (m : M A) (city : string) :
  keeps currentCity m ->
  leaves (fun w => currentCity w = city) m
    (fun w => currentCity w = city) (fun w => currentCity w = city).
Proof. intros H. apply (leaves_keeps currentCity (fun x => x = city) m H). Qed.

(** An answer that does not come, or does not parse, names no city. *)
Lemma fetchWeather_then_unparsed (city : string) (isAutoRefresh : bool) (r : response) :
  (r = Rejected \/ exists text, r = Resolved text /\ JSON_parse text = None) ->
  keeps currentCity (fetchWeather_then city isAutoRefresh r).
Proof.
  intros Hr w.
  assert (exists e, fetchWeather_try city isAutoRefresh r w = Throws e w) as [e Htry].
  { destruct Hr as [-> | (text & -> & Hparse)].
    - now exists NetworkError.
    - exists SyntaxError. unfold fetchWeather_try.
      erewrite bind_returns by reflexivity.
      now erewrite bind_throws by (unfold parse; rewrite Hparse; reflexivity). }
  unfold fetchWeather_then, try_finally, try_catch. rewrite Htry.
  destruct isAutoRefresh; reflexivity.
Qed.

(** An answer that parses names the city of its request, however the rest
    of the [try] block ends. *)
Lemma fetchWeather_then_parsed (city : string) (isAutoRefresh : bool) (text : string)
    (v : value) :
  JSON_parse text = Some v ->
  leaves (fun _ => True) (fetchWeather_then city isAutoRefresh (Resolved text))
    (fun w => currentCity w = city) (fun w => currentCity w = city).
Proof.
  intros Hparse. unfold fetchWeather_then.
  apply leaves_try_finally with (R := fun w => currentCity w = city); [| |auto].
  - apply leaves_try_catch with (R := fun w => currentCity w = city).
    + intros w _. unfold fetchWeather_try.
      erewrite bind_returns by reflexivity.
      erewrite bind_returns by (unfold parse; rewrite Hparse; reflexivity).
      erewrite bind_returns by reflexivity.
      apply leaves_city; [statement | reflexivity].
    + intros e. apply leaves_city. statement.
  - apply leaves_city. statement.
Qed.

(** X20.  The current city changes only at the load of the window, or when
    the answer to a weather request parses, and then to the city of that
    request: no keystroke, click, suggestion, refresh timer, rejected
    request or unreadable answer changes it. *)
Theorem currentCity_changes (w w' : world) (e : event) :
  step w e = Some w' ->
  currentCity w' = currentCity w
  \/ e = Load
  \/ exists (id : nat) (text : string) (q : request) (isAutoRefresh : bool),
       e = Settles id (Resolved text) /\ JSON_parse text <> None /\
       In q (in_flight w) /\ req_id q = id /\
       req_then q = WeatherFor (currentCity w') isAutoRefresh.
Proof.
  destruct e as [| | | | | | | | | | |id r]; try (right; left; reflexivity).
  11: {
    unfold step. cbn [listener].
    destruct (take_request id (in_flight w)) as [[q0 rest]|] eqn:Htake; [|discriminate].
    erewrite bind_returns by reflexivity.
    set (w1 := set_in_flight rest (calls w) w).
    change (currentCity w) with (currentCity w1).
    destruct (take_request_found _ _ _ _ Htake) as [Hin Hid].
    assert (forall m : M unit,
               keeps currentCity m ->
               match m w1 with
               | Returns _ w2 | Throws _ w2 => Some w2
               | Untyped => None
               end = Some w' -> currentCity w' = currentCity w1) as Hkept.
    { intros m Hk Hstep. specialize (Hk w1).
      destruct (m w1); [injection Hstep as <- | injection Hstep as <- | discriminate];
        exact Hk. }
    destruct (req_then q0) as [city isAutoRefresh|] eqn:Hq0.
    - destruct r as [|text].
      + intros Hstep. left. apply (Hkept _ (fetchWeather_then_unparsed city isAutoRefresh Rejected
                                         (or_introl eq_refl))).
        exact Hstep.
      + destruct (JSON_parse text) as [v|] eqn:Hparse.
        * intros Hstep. right. right. exists id, text, q0, isAutoRefresh.
          pose proof (fetchWeather_then_parsed city isAutoRefresh text v Hparse w1 I) as H.
          assert (currentCity w' = city) as ->.
          { destruct (fetchWeather_then city isAutoRefresh (Resolved text) w1);
              [injection Hstep as <- | injection Hstep as <- | discriminate]; exact H. }
          repeat split; auto. rewrite Hparse. discriminate.
        * intros Hstep. left.
          apply (Hkept _ (fetchWeather_then_unparsed city isAutoRefresh (Resolved text)
                            (or_intror (ex_intro _ text (conj eq_refl Hparse))))).
          exact Hstep.
    - intros Hstep. left. apply (Hkept (fetchCitySuggestions_then r)); [|exact Hstep].
      unfold fetchCitySuggestions_then. statement. }
  all: intros Hstep; left.
  all: refine (step_leaves (fun x => currentCity x = currentCity w)
                 (fun x => currentCity x = currentCity w) w w' _ _ Hstep eq_refl).
  all: intros m H; which_listener H.
  all: apply leaves_city; open_listener; open_edits; statement.
Qed.

Lemma currentCity_changes_witness :
  currentCity (Sample.world_after (Sample.showing_london ++ [Input "Tokyo"; ClickSearch;
                                                            Settles 1 (Resolved Sample.tokyo)]))
  = "London"
  \/ Settles 1 (Resolved Sample.tokyo) = Load
  \/ exists (id : nat) (text : string) (q : request) (isAutoRefresh : bool),
       Settles 1 (Resolved Sample.tokyo) = Settles id (Resolved text) /\
       JSON_parse text <> None /\
       In q (in_flight (Sample.world_after
                          (Sample.showing_london ++ [Input "Tokyo"; ClickSearch]))) /\
       req_id q = id /\
       req_then q
       = WeatherFor
           (currentCity (Sample.world_after
                           (Sample.showing_london ++ [Input "Tokyo"; ClickSearch;
                                                      Settles 1 (Resolved Sample.tokyo)])))
           isAutoRefresh.
Proof.
  apply (currentCity_changes
           (Sample.world_after (Sample.showing_london ++ [Input "Tokyo"; ClickSearch]))
           (Sample.world_after (Sample.showing_london ++ [Input "Tokyo"; ClickSearch;
                                                          Settles 1 (Resolved Sample.tokyo)]))
           (Settles 1 (Resolved Sample.tokyo))).
  vm_compute. reflexivity.
Defined.

(* ===================================================================== *)
(** * More of index.tsx: the remove button of a favorite *)
(* ===================================================================== *)



